(** * The record stores of the todo-list page and of the wallet page

    A shallow embedding of the two React pages of the repository:
    - [src/Todo-Lsit/app/page.tsx], the todo list (module [Todo]);
    - [src/app/page.tsx], whose first document has the handlers of the todo
      list above, comments apart, under another markup, and whose second
      document is the first version of the todo list, without priorities
      (module [TodoV1]);
    - [src/unnamed/part_000], the wallet manager (module [Wallet]).

    Every event handler of a page reads the [useState] cells of the current
    render and schedules new values for some of them; it is embedded as a
    function from the page state before the event to the page state after
    it.  What the host supplies (the clock, the text typed in a field, the
    content of the chosen file) is an argument of the handler.

    Besides the handlers, the embedding has what the markup computes: the
    [disabled] attributes of the buttons, the heading and the message of
    the empty table, the charts' conditions, the progress bar.  After an
    import the cell [tasks] holds values of type [any]; the functions that
    read it are embedded a second time as they run on such values
    ([Todo.getFilteredValues], [Todo.getStatsOfValues],
    [Todo.sortValuesByPriority]).

    The values of the host language are in module [JS]: strings are
    sequences of UTF-16 code units, numbers are kept behind the interface
    [Number], with one instance for IEEE 754 binary64 (what the pages run
    on) and one for exact rationals (what the spec's formulas read like).
    What is proved of sums is proved for both: in exact arithmetic, and on
    binary64 where no sum needs rounding, the value of a number taken in
    units of 2^-1074 ([ulps]). *)

From Stdlib Require Import Ascii String.
From Stdlib Require Import List ZArith NArith Bool Lia.
From Stdlib Require Import Permutation Sorted.
From Stdlib Require QArith Qcanon.
From Stdlib Require Import Floats.
Import ListNotations.

Local Open Scope Z_scope.
Set Warnings "-register-all".

(* ================================================================== *)
(** * Host values *)
(* ================================================================== *)

Module JS.

(** ** Strings: sequences of UTF-16 code units *)

Definition jsstring := list N.

(** A string literal of the source (ASCII only). *)
Definition lit (s : string) : jsstring :=
  map N_of_ascii (list_ascii_of_string s).

(** [a === b] on strings. *)
Fixpoint str_eqb (a b : jsstring) : bool :=
  match a, b with
  | [], [] => true
  | x :: a', y :: b' => N.eqb x y && str_eqb a' b'
  | _, _ => false
  end.

(** ECMAScript's WhiteSpace and LineTerminator code points, the ones
    [String.prototype.trim] strips: TAB, LF, VT, FF, CR, SP, NBSP, the
    other space separators (category Zs), LS, PS and the byte order mark. *)
Definition isWhiteSpace (c : N) : bool :=
  ((9 <=? c) && (c <=? 13) || (c =? 32) || (c =? 160) || (c =? 5760)
   || (8192 <=? c) && (c <=? 8202) || (c =? 8232) || (c =? 8233)
   || (c =? 8239) || (c =? 8287) || (c =? 12288) || (c =? 65279))%N.

Fixpoint trimStart (s : jsstring) : jsstring :=
  match s with
  | [] => []
  | c :: r => if isWhiteSpace c then trimStart r else s
  end.

Definition trimEnd (s : jsstring) : jsstring := rev (trimStart (rev s)).

(** [s.trim()] *)
Definition trim (s : jsstring) : jsstring := trimEnd (trimStart s).

Fixpoint startsWith (s p : jsstring) : bool :=
  match p, s with
  | [], _ => true
  | _ :: _, [] => false
  | a :: p', b :: s' => N.eqb a b && startsWith s' p'
  end.

(** [s.includes(p)]: [p] occurs in [s] as a contiguous run of code units. *)
Fixpoint includes (s p : jsstring) : bool :=
  startsWith s p || match s with [] => false | _ :: s' => includes s' p end.

(** ** Numbers *)

(** The operations the pages use on values of type [number]. *)
Class Number (num : Type) : Type := {
  nzero : num;                      (* the literal 0 *)
  nhundred : num;                   (* the literal 100 *)
  nofZ : Z -> num;                  (* an integral value, e.g. Date.now() *)
  nadd : num -> num -> num;         (* a + b *)
  nsub : num -> num -> num;         (* a - b *)
  nmul : num -> num -> num;         (* a * b *)
  ndiv : num -> num -> num;         (* a / b *)
  nltb : num -> num -> bool;        (* a < b; b > a *)
  nleb : num -> num -> bool;        (* a <= b; b >= a *)
  nmax : num -> num -> num;         (* Math.max(a, b) *)
  nmin : num -> num -> num;         (* Math.min(a, b) *)
  ntruthy : num -> bool;            (* ToBoolean(a), as in a || 0 *)
  nisNaN : num -> bool              (* isNaN(a) *)
}.

(** *** binary64, the numbers of the host *)

(** The number nearest to the integer [z], ties to even, an infinity
    beyond the largest number; [z] itself up to 2^53 in absolute value,
    which a reading of the clock in milliseconds is far below. *)
Definition float_of_Z (z : Z) : float :=
  SF2Prim (SpecFloat.binary_normalize prec emax z 0 false).

(** [Number.isSafeInteger] on an integer: below 2^53 in absolute value,
    where binary64 holds every integer and no two integers read as the
    same number. *)
Definition isSafeInteger (z : Z) : bool := Z.abs z <? 2 ^ 53.

(** [Math.max]: NaN if an argument is NaN; +0 is larger than -0. *)
Definition float_max (a b : float) : float :=
  if PrimFloat.is_nan a || PrimFloat.is_nan b then PrimFloat.nan
  else if PrimFloat.ltb a b then b
  else if PrimFloat.ltb b a then a
  else match PrimFloat.classify a with NZero => b | _ => a end.

(** [Math.min]: NaN if an argument is NaN; -0 is smaller than +0. *)
Definition float_min (a b : float) : float :=
  if PrimFloat.is_nan a || PrimFloat.is_nan b then PrimFloat.nan
  else if PrimFloat.ltb a b then a
  else if PrimFloat.ltb b a then b
  else match PrimFloat.classify a with PZero => b | _ => a end.

#[global] Instance binary64 : Number float := {|
  nzero := PrimFloat.zero;
  nhundred := 100%float;
  nofZ := float_of_Z;
  nadd := PrimFloat.add;
  nsub := PrimFloat.sub;
  nmul := PrimFloat.mul;
  ndiv := PrimFloat.div;
  nltb := PrimFloat.ltb;
  nleb := PrimFloat.leb;
  nmax := float_max;
  nmin := float_min;
  ntruthy := fun a => negb (PrimFloat.eqb a PrimFloat.zero || PrimFloat.is_nan a);
  nisNaN := PrimFloat.is_nan
|}.

(** *** Exact rationals *)

Definition Qc_ltb (a b : Qcanon.Qc) : bool :=
  match Qcanon.Qccompare a b with Lt => true | _ => false end.

Definition Qc_leb (a b : Qcanon.Qc) : bool :=
  match Qcanon.Qccompare a b with Gt => false | _ => true end.

Definition Qc_ofZ (z : Z) : Qcanon.Qc := Qcanon.Q2Qc (QArith_base.inject_Z z).

#[global] Instance exact : Number Qcanon.Qc := {|
  nzero := Qc_ofZ 0;
  nhundred := Qc_ofZ 100;
  nofZ := Qc_ofZ;
  nadd := Qcanon.Qcplus;
  nsub := Qcanon.Qcminus;
  nmul := Qcanon.Qcmult;
  ndiv := Qcanon.Qcdiv;
  nltb := Qc_ltb;
  nleb := Qc_leb;
  nmax := fun a b => if Qc_ltb a b then b else a;
  nmin := fun a b => if Qc_ltb b a then b else a;
  ntruthy := fun a => negb (Qcanon.Qc_eq_bool a (Qc_ofZ 0));
  nisNaN := fun _ => false
|}.

(** The laws of exact arithmetic that the theorems below rely on.  Addition
    is associative and commutative with neutral element 0, subtraction is
    its inverse, and 0 is the only number that [||] replaces. *)
Class ExactAdd (num : Type) {N : Number num} : Prop := {
  nadd_comm : forall a b : num, nadd a b = nadd b a;
  nadd_assoc : forall a b c : num, nadd a (nadd b c) = nadd (nadd a b) c;
  nadd_0_l : forall a : num, nadd nzero a = a;
  nsub_add : forall a b : num, nadd (nsub a b) b = a;
  nadd_sub : forall a b : num, nsub (nadd a b) b = a;
  ntruthy_zero : forall a : num, ntruthy a = false -> a = nzero
}.

(** [<=] is a total preorder, and [<], [Math.max] and [Math.min] follow it. *)
Class ExactOrder (num : Type) {N : Number num} : Prop := {
  nleb_total : forall a b : num, nleb a b = true \/ nleb b a = true;
  nleb_trans : forall a b c : num, nleb a b = true -> nleb b c = true -> nleb a c = true;
  nltb_nleb : forall a b : num, nltb a b = negb (nleb b a);
  nmax_def : forall a b : num, nmax a b = if nltb a b then b else a;
  nmin_def : forall a b : num, nmin a b = if nltb b a then b else a
}.

(** ** Arrays *)

(** [Array.prototype.sort(cmp)].  ECMAScript requires the sort to be stable:
    [a] is placed before [b] when [cmp a b < 0], after it when
    [cmp a b > 0], and elements that compare equal keep their order.  For a
    consistent comparator this fixes the result; it is computed here by
    insertion, each element placed before the first element of the sorted
    rest that it does not exceed. *)
Section Sort.
Context {A : Type} (cmp : A -> A -> Z).

Fixpoint sort_insert (x : A) (l : list A) : list A :=
  match l with
  | [] => [x]
  | y :: r => if cmp x y <=? 0 then x :: l else y :: sort_insert x r
  end.

Fixpoint Array_sort (l : list A) : list A :=
  match l with
  | [] => []
  | x :: r => sort_insert x (Array_sort r)
  end.

End Sort.

(** ** Exceptions *)

(** A computation that returns a value or throws; [try { ... } catch] is a
    match on the result. *)
Inductive result (A : Type) : Type :=
| Ok (a : A)
| Throw.
Arguments Ok {A} a.
Arguments Throw {A}.

Definition bind {A B : Type} (m : result A) (k : A -> result B) : result B :=
  match m with
  | Ok a => k a
  | Throw => Throw
  end.

Notation "x <- m ;; k" := (bind m (fun x => k))
  (at level 61, m at next level, right associativity).

(** [a && b] where evaluating [b] may throw: [b] is not evaluated when [a]
    is false. *)
Definition and_then (a b : result bool) : result bool :=
  x <- a ;; if x then b else Ok false.

(** [l.every(f)]: stops at the first element that [f] rejects. *)
Fixpoint every {A : Type} (f : A -> result bool) (l : list A) : result bool :=
  match l with
  | [] => Ok true
  | x :: r => b <- f x ;; if b then every f r else Ok false
  end.

(** ** Values read from JSON text *)

Inductive json (num : Type) : Type :=
| JNull
| JBool (b : bool)
| JNumber (n : num)
| JString (s : jsstring)
| JArray (l : list (json num))
| JObject (m : list (jsstring * json num)).
Arguments JNull {num}.
Arguments JBool {num} b.
Arguments JNumber {num} n.
Arguments JString {num} s.
Arguments JArray {num} l.
Arguments JObject {num} m.

(** The property [k] of an object given by its key-value pairs, in
    insertion order. *)
Fixpoint lookup {V : Type} (k : jsstring) (m : list (jsstring * V)) : option V :=
  match m with
  | [] => None
  | (k', v) :: r => if str_eqb k k' then Some v else lookup k r
  end.

Definition hasKey {V : Type} (k : jsstring) (m : list (jsstring * V)) : bool :=
  match lookup k m with Some _ => true | None => false end.

(** [v.k] for a key [k] that no prototype defines: throws on [null], is
    the own property of an object, and [undefined] ([None]) otherwise. *)
Definition getProperty {num : Type} (v : json num) (k : jsstring)
  : result (option (json num)) :=
  match v with
  | JNull => Throw
  | JObject m => Ok (lookup k m)
  | _ => Ok None
  end.

(** The value of a string of decimal digits, [None] for any other string. *)
Fixpoint digitsValue (acc : N) (s : jsstring) : option N :=
  match s with
  | [] => Some acc
  | c :: r => if ((48 <=? c) && (c <=? 57))%N
              then digitsValue (10 * acc + (c - 48))%N r else None
  end.

(** [k] is the canonical name of an array index below [len]. *)
Definition isIndexBelow (k : jsstring) (len : nat) : bool :=
  match k with
  | [] => false
  | c :: r =>
      match digitsValue 0 k with
      | Some n => (negb (N.eqb c 48) || match r with [] => true | _ => false end)
                  && (n <? N.of_nat len)%N
      | None => false
      end
  end.

(** [v.hasOwnProperty(k)].  Reading the method throws on [null]; an object
    with an own property of that name hides the inherited method, and the
    value found there, read from JSON text, cannot be called.  Arrays and
    strings own their indices and [length]. *)
Definition hasOwnProperty {num : Type} (v : json num) (k : jsstring) : result bool :=
  match v with
  | JNull => Throw
  | JObject m => if hasKey (lit "hasOwnProperty") m then Throw else Ok (hasKey k m)
  | JArray l => Ok (str_eqb k (lit "length") || isIndexBelow k (length l))
  | JString s => Ok (str_eqb k (lit "length") || isIndexBelow k (length s))
  | JBool _ | JNumber _ => Ok false
  end.

(** ** Built-ins left abstract *)

(** What the embedding does not compute: the Unicode case mapping, the
    conversion of decimal text to a number, and the JSON reader and writer
    ([JSON_stringify v] stands for [JSON.stringify(v, null, 2)];
    [JSON_parse] throws on text that is not JSON).  Every theorem below
    holds for every host. *)
Class Host (num : Type) : Type := {
  toLowerCase : jsstring -> jsstring;
  parseFloat : jsstring -> num;
  JSON_parse : jsstring -> result (json num);
  JSON_stringify : json num -> jsstring
}.

(** [l.join(sep)] on an array of strings: the elements with [sep] between
    them, the empty string for the empty array. *)
Fixpoint join (sep : jsstring) (l : list jsstring) : jsstring :=
  match l with
  | [] => []
  | x :: r => match r with [] => x | _ :: _ => x ++ sep ++ join sep r end
  end.

(** [l.filter(f)] for a callback that may throw: the elements are visited
    in order, and what the callback throws is thrown by [filter]. *)
Fixpoint filter_r {A : Type} (f : A -> result bool) (l : list A) : result (list A) :=
  match l with
  | [] => Ok []
  | x :: r =>
      b <- f x ;;
      rest <- filter_r f r ;;
      Ok (if b then x :: rest else rest)
  end.

(** [v === s] for a string [s]: strict equality, true of the strings with
    the code units of [s] only. *)
Definition isString {num : Type} (v : option (json num)) (s : jsstring) : bool :=
  match v with
  | Some (JString x) => str_eqb x s
  | _ => false
  end.

(** [ToBoolean(v)] for what reading a property of a JSON value gives:
    [undefined], [null], [false], [0], [NaN] and the empty string are
    falsy. *)
Definition truthy {num : Type} {N : Number num} (v : option (json num)) : bool :=
  match v with
  | None => false
  | Some JNull => false
  | Some (JBool b) => b
  | Some (JNumber n) => ntruthy n
  | Some (JString s) => negb (str_eqb s [])
  | Some (JArray _) => true
  | Some (JObject _) => true
  end.

(** [String(x)] for a number [x], as [join] applies it to an element that
    is a number; left abstract like the built-ins of [Host]. *)
Class NumberText (num : Type) : Type := {
  Number_toString : num -> jsstring
}.

End JS.

(* ================================================================== *)
(** * The todo list: [src/Todo-Lsit/app/page.tsx] *)
(* ================================================================== *)

Module Todo.
Import JS.

Inductive Category : Type := Work | Personal | Shopping | Others | Home.
Inductive Priority : Type := Critical | High | Medium | Low.

Scheme Equality for Category.
Scheme Equality for Priority.

(** [interface Task].  [id] is a reading of [Date.now()], an integral
    number of milliseconds; the id of an imported task is the integer that
    the number of the file reads as. *)
Record Task : Type := {
  id : Z;
  text : jsstring;
  completed : bool;
  createdAt : jsstring;
  category : Category;
  priority : Priority
}.

(** [Category | 'All'] and [Priority | 'All'] *)
Inductive OrAll (A : Type) : Type :=
| All
| Only (a : A).
Arguments All {A}.
Arguments Only {A} a.

(** The [useState] cells of [Home].  The cells [category] and [priority] of
    the source are [formCategory] and [formPriority] here, the names being
    taken by the fields of [Task].  [T] is what the cell [tasks] holds:
    [Task] as the source declares it, or values as read from a file (the
    import stores [data.tasks], of type [any], unchecked). *)
Record State (T : Type) : Type := {
  tasks : list T;
  newTask : jsstring;
  selectedTaskId : option Z;
  formCategory : Category;
  formPriority : Priority;
  searchTerm : jsstring;
  filterCategory : OrAll Category;
  filterPriority : OrAll Priority;
  showStatsDialog : bool
}.
Arguments tasks {T} s.
Arguments newTask {T} s.
Arguments selectedTaskId {T} s.
Arguments formCategory {T} s.
Arguments formPriority {T} s.
Arguments searchTerm {T} s.
Arguments filterCategory {T} s.
Arguments filterPriority {T} s.
Arguments showStatsDialog {T} s.

(** The initial render. *)
Definition initial {T : Type} : State T := {|
  tasks := [];
  newTask := [];
  selectedTaskId := None;
  formCategory := Work;
  formPriority := Medium;
  searchTerm := [];
  filterCategory := All;
  filterPriority := All;
  showStatsDialog := false
|}.

(** The setters of the cells that the handlers write. *)
Definition setTasks {T U : Type} (l : list U) (st : State T) : State U := {|
  tasks := l;
  newTask := newTask st;
  selectedTaskId := selectedTaskId st;
  formCategory := formCategory st;
  formPriority := formPriority st;
  searchTerm := searchTerm st;
  filterCategory := filterCategory st;
  filterPriority := filterPriority st;
  showStatsDialog := showStatsDialog st
|}.

Definition setNewTask {T : Type} (s : jsstring) (st : State T) : State T := {|
  tasks := tasks st;
  newTask := s;
  selectedTaskId := selectedTaskId st;
  formCategory := formCategory st;
  formPriority := formPriority st;
  searchTerm := searchTerm st;
  filterCategory := filterCategory st;
  filterPriority := filterPriority st;
  showStatsDialog := showStatsDialog st
|}.

Definition setSelectedTaskId {T : Type} (i : option Z) (st : State T) : State T := {|
  tasks := tasks st;
  newTask := newTask st;
  selectedTaskId := i;
  formCategory := formCategory st;
  formPriority := formPriority st;
  searchTerm := searchTerm st;
  filterCategory := filterCategory st;
  filterPriority := filterPriority st;
  showStatsDialog := showStatsDialog st
|}.

Definition setCategory {T : Type} (c : Category) (st : State T) : State T := {|
  tasks := tasks st;
  newTask := newTask st;
  selectedTaskId := selectedTaskId st;
  formCategory := c;
  formPriority := formPriority st;
  searchTerm := searchTerm st;
  filterCategory := filterCategory st;
  filterPriority := filterPriority st;
  showStatsDialog := showStatsDialog st
|}.

Definition setPriority {T : Type} (p : Priority) (st : State T) : State T := {|
  tasks := tasks st;
  newTask := newTask st;
  selectedTaskId := selectedTaskId st;
  formCategory := formCategory st;
  formPriority := p;
  searchTerm := searchTerm st;
  filterCategory := filterCategory st;
  filterPriority := filterPriority st;
  showStatsDialog := showStatsDialog st
|}.

Definition setSearchTerm {T : Type} (x : jsstring) (st : State T) : State T := {|
  tasks := tasks st;
  newTask := newTask st;
  selectedTaskId := selectedTaskId st;
  formCategory := formCategory st;
  formPriority := formPriority st;
  searchTerm := x;
  filterCategory := filterCategory st;
  filterPriority := filterPriority st;
  showStatsDialog := showStatsDialog st
|}.

Definition setFilterCategory {T : Type} (x : OrAll Category) (st : State T) : State T := {|
  tasks := tasks st;
  newTask := newTask st;
  selectedTaskId := selectedTaskId st;
  formCategory := formCategory st;
  formPriority := formPriority st;
  searchTerm := searchTerm st;
  filterCategory := x;
  filterPriority := filterPriority st;
  showStatsDialog := showStatsDialog st
|}.

Definition setFilterPriority {T : Type} (x : OrAll Priority) (st : State T) : State T := {|
  tasks := tasks st;
  newTask := newTask st;
  selectedTaskId := selectedTaskId st;
  formCategory := formCategory st;
  formPriority := formPriority st;
  searchTerm := searchTerm st;
  filterCategory := filterCategory st;
  filterPriority := x;
  showStatsDialog := showStatsDialog st
|}.

Definition setShowStatsDialog {T : Type} (x : bool) (st : State T) : State T := {|
  tasks := tasks st;
  newTask := newTask st;
  selectedTaskId := selectedTaskId st;
  formCategory := formCategory st;
  formPriority := formPriority st;
  searchTerm := searchTerm st;
  filterCategory := filterCategory st;
  filterPriority := filterPriority st;
  showStatsDialog := x
|}.

(** ** Sorting *)

(** The [default] branch of the source, rank 4, is for values that are not
    of type [Priority]. *)
Definition getPriorityOrder (p : Priority) : Z :=
  match p with
  | Critical => 0
  | High => 1
  | Medium => 2
  | Low => 3
  end.

Definition sortTasksByPriority (st : State Task) : State Task :=
  let sortedTasks :=
    Array_sort (fun a b => getPriorityOrder (priority a) - getPriorityOrder (priority b))
               (tasks st) in
  setTasks sortedTasks st.

(** ** Filtering *)

Definition matchesFilter {A : Type} (eqb : A -> A -> bool) (f : OrAll A) (a : A) : bool :=
  match f with
  | All => true
  | Only x => eqb a x
  end.

Definition getFilteredTasks {num : Type} {H : Host num} (st : State Task) : list Task :=
  filter (fun task =>
            let matchesSearch :=
              includes (toLowerCase (text task)) (toLowerCase (searchTerm st)) in
            let matchesCategory :=
              matchesFilter Category_beq (filterCategory st) (category task) in
            let matchesPriority :=
              matchesFilter Priority_beq (filterPriority st) (priority task) in
            matchesSearch && matchesCategory && matchesPriority)
         (tasks st).

(** ** Adding, deleting, toggling *)

(** [add_task], [now] being the reading of [Date.now()] and [nowText] the
    text of [new Date().toLocaleString()]. *)
Definition add_task (now : Z) (nowText : jsstring) (st : State Task) : State Task :=
  if negb (str_eqb (trim (newTask st)) []) then
    let task := {|
      id := now;
      text := trim (newTask st);
      completed := false;
      createdAt := nowText;
      category := formCategory st;
      priority := formPriority st
    |} in
    setNewTask [] (setTasks (tasks st ++ [task]) st)
  else st.

Definition delete_task (st : State Task) : State Task :=
  match selectedTaskId st with
  | Some sel =>
      setSelectedTaskId None
        (setTasks (filter (fun task => negb (id task =? sel)) (tasks st)) st)
  | None => st
  end.

Definition clear_task (st : State Task) : State Task :=
  setSelectedTaskId None (setTasks [] st).

Definition toggle (task : Task) : Task := {|
  id := id task;
  text := text task;
  completed := negb (completed task);
  createdAt := createdAt task;
  category := category task;
  priority := priority task
|}.

Definition mark_done (st : State Task) : State Task :=
  match selectedTaskId st with
  | Some sel =>
      setTasks (map (fun task => if id task =? sel then toggle task else task) (tasks st)) st
  | None => st
  end.

(** ** Statistics *)

(** What [getStats] returns; the two objects of counts are lists of
    properties, in the order of the object literals. *)
Record Stats : Type := {
  totalTasks : Z;
  completedTasks : Z;
  pendingTasks : Z;
  categoryStats : list (Category * Z);
  priorityStats : list (Priority * Z)
}.

(** [tasks.filter(f).length] *)
Definition countWhere (f : Task -> bool) (l : list Task) : Z :=
  Z.of_nat (length (filter f l)).

Definition getStats (st : State Task) : Stats :=
  let totalTasks := Z.of_nat (length (tasks st)) in
  let completedTasks := countWhere (fun task => completed task) (tasks st) in
  let pendingTasks := totalTasks - completedTasks in
  let categoryStats :=
    [ (Work, countWhere (fun task => Category_beq (category task) Work) (tasks st));
      (Personal, countWhere (fun task => Category_beq (category task) Personal) (tasks st));
      (Shopping, countWhere (fun task => Category_beq (category task) Shopping) (tasks st));
      (Others, countWhere (fun task => Category_beq (category task) Others) (tasks st));
      (Home, countWhere (fun task => Category_beq (category task) Home) (tasks st)) ] in
  let priorityStats :=
    [ (Critical, countWhere (fun task => Priority_beq (priority task) Critical) (tasks st));
      (High, countWhere (fun task => Priority_beq (priority task) High) (tasks st));
      (Medium, countWhere (fun task => Priority_beq (priority task) Medium) (tasks st));
      (Low, countWhere (fun task => Priority_beq (priority task) Low) (tasks st)) ] in
  {| totalTasks := totalTasks;
     completedTasks := completedTasks;
     pendingTasks := pendingTasks;
     categoryStats := categoryStats;
     priorityStats := priorityStats |}.

(** ** Export and import *)

Definition categoryName (c : Category) : jsstring :=
  match c with
  | Work => lit "Work"
  | Personal => lit "Personal"
  | Shopping => lit "Shopping"
  | Others => lit "Others"
  | Home => lit "Home"
  end.

Definition priorityName (p : Priority) : jsstring :=
  match p with
  | Critical => lit "Critical"
  | High => lit "High"
  | Medium => lit "Medium"
  | Low => lit "Low"
  end.

(** A [Task] as the object [add_task] builds, its properties in the order
    of the object literal. *)
Definition taskObject {num : Type} {N : Number num} (t : Task) : json num :=
  JObject [ (lit "id", JNumber (nofZ (id t)));
            (lit "text", JString (text t));
            (lit "completed", JBool (completed t));
            (lit "createdAt", JString (createdAt t));
            (lit "category", JString (categoryName (category t)));
            (lit "priority", JString (priorityName (priority t))) ].

(** The page state with its tasks as objects. *)
Definition asObjects {num : Type} {N : Number num} (st : State Task) : State (json num) :=
  setTasks (map taskObject (tasks st)) st.

(** The file handed to the browser for download. *)
Record File : Type := {
  download : jsstring;
  content : jsstring
}.

(** [iso.split('T')[0]] *)
Fixpoint beforeT (iso : jsstring) : jsstring :=
  match iso with
  | [] => []
  | c :: r => if N.eqb c 84 then [] else c :: beforeT r
  end.

Inductive Alert : Type :=
| ImportedSuccessfully      (* 'Tasks imported successfully!' *)
| InvalidTaskData           (* 'Invalid file format. Please check that ...' *)
| ExpectedTasksArray        (* 'Invalid file format. Expected a JSON file ...' *)
| ErrorReadingFile.         (* 'Error reading file. Please make sure ...' *)

Section ImportExport.
Context {num : Type} {H : Host num}.

(** [saveTasksToFile]; [iso1] and [iso2] are the texts of the two calls of
    [new Date().toISOString()]. *)
Definition saveTasksToFile (iso1 iso2 : jsstring) (st : State (json num)) : File :=
  let dataToSave := JObject [ (lit "tasks", JArray (tasks st));
                              (lit "exportDate", JString iso1);
                              (lit "version", JString (lit "1.0")) ] in
  let dataStr := JSON_stringify dataToSave in
  {| download := lit "todo-tasks-" ++ beforeT iso2 ++ lit ".json";
     content := dataStr |}.

(** The callback of [every] in [handleFileImport]. *)
Definition hasTaskKeys (task : json num) : result bool :=
  and_then (and_then (and_then (and_then
    (hasOwnProperty task (lit "id"))
    (hasOwnProperty task (lit "text")))
    (hasOwnProperty task (lit "completed")))
    (hasOwnProperty task (lit "category")))
    (hasOwnProperty task (lit "priority")).

(** The body of [try] in [reader.onload].  [data.tasks &&
    Array.isArray(data.tasks)] holds exactly when [data.tasks] is an array,
    every array being truthy. *)
Definition onload_try (fileText : jsstring) (st : State (json num))
  : result (State (json num) * Alert) :=
  data <- JSON_parse fileText ;;
  data_tasks <- getProperty data (lit "tasks") ;;
  match data_tasks with
  | Some (JArray l) =>
      isValidFormat <- every hasTaskKeys l ;;
      if isValidFormat
      then Ok (setSelectedTaskId None (setTasks l st), ImportedSuccessfully)
      else Ok (st, InvalidTaskData)
  | _ => Ok (st, ExpectedTasksArray)
  end.

(** [reader.onload], called with the text of the file once it is read. *)
Definition reader_onload (fileText : jsstring) (st : State (json num))
  : State (json num) * Alert :=
  match onload_try fileText st with
  | Ok r => r
  | Throw => (st, ErrorReadingFile)
  end.

(** [handleFileImport]: nothing happens when no file was chosen. *)
Definition handleFileImport (file : option jsstring) (st : State (json num))
  : State (json num) * option Alert :=
  match file with
  | None => (st, None)
  | Some fileText => let (st', a) := reader_onload fileText st in (st', Some a)
  end.

End ImportExport.

(** ** The filter bar and the footer *)

(** The handler of the button Clear Filters. *)
Definition clearFilters {T : Type} (st : State T) : State T :=
  setFilterPriority All (setFilterCategory All (setSearchTerm [] st)).

(** The heading of the table, 'Tasks (shown of total)'. *)
Definition heading {num : Type} {H : Host num} (st : State Task) : nat * nat :=
  (length (getFilteredTasks st), length (tasks st)).

(** What stands in place of the table when no row is shown. *)
Inductive EmptyMessage : Type :=
| NoTasksYet                (* 'No tasks yet. Add one above!' *)
| NoTasksMatch.             (* 'No tasks match your current filters.' *)

Definition emptyMessage {num : Type} {H : Host num} (st : State Task) : option EmptyMessage :=
  if (length (getFilteredTasks st) =? 0)%nat
  then Some (if (length (tasks st) =? 0)%nat then NoTasksYet else NoTasksMatch)
  else None.

(** The six buttons of the footer (Import is a file input under a label,
    never disabled), with their [disabled] attributes. *)
Inductive Button : Type :=
| DeleteSelected
| ToggleComplete
| ClearAll
| SortByPriority
| ShowStats
| Save.

Definition disabled (b : Button) (st : State Task) : bool :=
  match b with
  | DeleteSelected | ToggleComplete =>
      match selectedTaskId st with None => true | Some _ => false end
  | ClearAll | SortByPriority | ShowStats | Save => (length (tasks st) =? 0)%nat
  end.

(** What the [onClick] handler of a button does: the page state it leaves
    and the file it hands to the browser, which only [saveTasksToFile]
    does ([iso1] and [iso2] as there). *)
Definition onClick {num : Type} {N : Number num} {H : Host num} (iso1 iso2 : jsstring)
    (b : Button) (st : State Task) : State Task * option File :=
  match b with
  | DeleteSelected => (delete_task st, None)
  | ToggleComplete => (mark_done st, None)
  | ClearAll => (clear_task st, None)
  | SortByPriority => (sortTasksByPriority st, None)
  | ShowStats => (setShowStatsDialog true st, None)
  | Save => (st, Some (saveTasksToFile iso1 iso2 (asObjects st)))
  end.

(** ** The table and the statistics after an import *)

(** After an import the cell [tasks] holds what the file held, values of
    type [any] of which the import checked five keys.  The functions below
    are [getFilteredTasks], [getPriorityOrder] and [getStats] as they run on
    such values: reading a property of [null] throws, calling [toLowerCase]
    on what is not a string throws, and [===] compares with the names of
    the categories and of the priorities. *)
Section ImportedValues.
Context {num : Type} {N : Number num} {H : Host num}.

(** [f === 'All' || v === f] *)
Definition matchesValue {A : Type} (name : A -> jsstring) (f : OrAll A)
    (v : option (json num)) : bool :=
  match f with
  | All => true
  | Only a => isString v (name a)
  end.

(** The callback of [filter] in [getFilteredTasks]. *)
Definition matchesTask (st : State (json num)) (task : json num) : result bool :=
  text <- getProperty task (lit "text") ;;
  match text with
  | Some (JString s) =>
      let matchesSearch := includes (toLowerCase s) (toLowerCase (searchTerm st)) in
      category <- getProperty task (lit "category") ;;
      let matchesCategory := matchesValue categoryName (filterCategory st) category in
      priority <- getProperty task (lit "priority") ;;
      let matchesPriority := matchesValue priorityName (filterPriority st) priority in
      Ok (matchesSearch && matchesCategory && matchesPriority)
  | _ => Throw
  end.

Definition getFilteredValues (st : State (json num)) : result (list (json num)) :=
  filter_r (matchesTask st) (tasks st).

(** [getPriorityOrder] on any value: the [default] branch is taken by
    what is not the name of a priority. *)
Definition getPriorityOrderOf (priority : option (json num)) : Z :=
  if isString priority (lit "Critical") then 0
  else if isString priority (lit "High") then 1
  else if isString priority (lit "Medium") then 2
  else if isString priority (lit "Low") then 3
  else 4.

(** The rank of a task, [getPriorityOrder(task.priority)], for a task that
    is not [null]. *)
Definition rankOf (task : json num) : Z :=
  match task with
  | JObject m => getPriorityOrderOf (lookup (lit "priority") m)
  | _ => getPriorityOrderOf None
  end.

Definition isNull (task : json num) : bool :=
  match task with
  | JNull => true
  | _ => false
  end.

(** [sortTasksByPriority]: the comparator is called when there are two
    tasks or more, and reading [a.priority] throws on [null]. *)
Definition sortValuesByPriority (st : State (json num)) : result (State (json num)) :=
  match tasks st with
  | [] => Ok (setTasks [] st)
  | [task] => Ok (setTasks [task] st)
  | _ :: _ :: _ =>
      if existsb isNull (tasks st) then Throw
      else Ok (setTasks (Array_sort (fun a b => rankOf a - rankOf b) (tasks st)) st)
  end.

(** [tasks.filter((task) => task.k).length] and
    [tasks.filter((task) => task.k === name).length] *)
Definition countTruthy (k : jsstring) (l : list (json num)) : result Z :=
  kept <- filter_r (fun task => v <- getProperty task k ;; Ok (truthy v)) l ;;
  Ok (Z.of_nat (length kept)).

Definition countNamed (k name : jsstring) (l : list (json num)) : result Z :=
  kept <- filter_r (fun task => v <- getProperty task k ;; Ok (isString v name)) l ;;
  Ok (Z.of_nat (length kept)).

Definition getStatsOfValues (st : State (json num)) : result Stats :=
  let totalTasks := Z.of_nat (length (tasks st)) in
  completedTasks <- countTruthy (lit "completed") (tasks st) ;;
  let pendingTasks := totalTasks - completedTasks in
  work <- countNamed (lit "category") (lit "Work") (tasks st) ;;
  personal <- countNamed (lit "category") (lit "Personal") (tasks st) ;;
  shopping <- countNamed (lit "category") (lit "Shopping") (tasks st) ;;
  others <- countNamed (lit "category") (lit "Others") (tasks st) ;;
  home <- countNamed (lit "category") (lit "Home") (tasks st) ;;
  critical <- countNamed (lit "priority") (lit "Critical") (tasks st) ;;
  high <- countNamed (lit "priority") (lit "High") (tasks st) ;;
  medium <- countNamed (lit "priority") (lit "Medium") (tasks st) ;;
  low <- countNamed (lit "priority") (lit "Low") (tasks st) ;;
  Ok {| totalTasks := totalTasks;
        completedTasks := completedTasks;
        pendingTasks := pendingTasks;
        categoryStats := [ (Work, work); (Personal, personal); (Shopping, shopping);
                           (Others, others); (Home, home) ];
        priorityStats := [ (Critical, critical); (High, high); (Medium, medium);
                           (Low, low) ] |}.

End ImportedValues.

End Todo.

(* ================================================================== *)
(** * The first todo list: [src/app/page.tsx], second document *)
(* ================================================================== *)

Module TodoV1.
Import JS.

Inductive Category : Type := Work | Personal | Shopping | Others | Home.

Record Task : Type := {
  id : Z;
  text : jsstring;
  completed : bool;
  createdAt : jsstring;
  category : Category
}.

Record State : Type := {
  tasks : list Task;
  newTask : jsstring;
  selectedTaskId : option Z;
  formCategory : Category
}.

Definition setTasks (l : list Task) (st : State) : State := {|
  tasks := l;
  newTask := newTask st;
  selectedTaskId := selectedTaskId st;
  formCategory := formCategory st
|}.

Definition toggle (task : Task) : Task := {|
  id := id task;
  text := text task;
  completed := negb (completed task);
  createdAt := createdAt task;
  category := category task
|}.

Definition mark_done (st : State) : State :=
  match selectedTaskId st with
  | Some sel =>
      setTasks (map (fun task => if id task =? sel then toggle task else task) (tasks st)) st
  | None => st
  end.

Definition initial : State := {|
  tasks := [];
  newTask := [];
  selectedTaskId := None;
  formCategory := Work
|}.

Definition setNewTask (s : jsstring) (st : State) : State := {|
  tasks := tasks st;
  newTask := s;
  selectedTaskId := selectedTaskId st;
  formCategory := formCategory st
|}.

Definition setSelectedTaskId (i : option Z) (st : State) : State := {|
  tasks := tasks st;
  newTask := newTask st;
  selectedTaskId := i;
  formCategory := formCategory st
|}.

Definition setCategory (c : Category) (st : State) : State := {|
  tasks := tasks st;
  newTask := newTask st;
  selectedTaskId := selectedTaskId st;
  formCategory := c
|}.

Definition add_task (now : Z) (nowText : jsstring) (st : State) : State :=
  if negb (str_eqb (trim (newTask st)) []) then
    let task := {|
      id := now;
      text := trim (newTask st);
      completed := false;
      createdAt := nowText;
      category := formCategory st
    |} in
    setNewTask [] (setTasks (tasks st ++ [task]) st)
  else st.

Definition delete_task (st : State) : State :=
  match selectedTaskId st with
  | Some sel =>
      setSelectedTaskId None
        (setTasks (filter (fun task => negb (id task =? sel)) (tasks st)) st)
  | None => st
  end.

Definition clear_task (st : State) : State :=
  setSelectedTaskId None (setTasks [] st).

End TodoV1.

(* ================================================================== *)
(** * The wallet: [src/unnamed/part_000] *)
(* ================================================================== *)

Module Wallet.
Import JS.

Inductive Category : Type := Work | Personal | Shopping | Others | Home.
Inductive TransactionType : Type := income | expense.
Inductive Tab : Type := transactionsTab | analyticsTab | budgetTab.

Scheme Equality for Category.
Scheme Equality for TransactionType.

Inductive OrAll (A : Type) : Type :=
| All
| Only (a : A).
Arguments All {A}.
Arguments Only {A} a.

Definition matchesFilter {A : Type} (eqb : A -> A -> bool) (f : OrAll A) (a : A) : bool :=
  match f with
  | All => true
  | Only x => eqb a x
  end.

Section Page.
Context {num : Type} {N : Number num}.

(** [interface Transaction] *)
Record Transaction : Type := {
  id : Z;
  amount : num;
  type : TransactionType;
  description : jsstring;
  category : Category;
  createdAt : jsstring
}.

(** The [useState] cells of [Home].  The cells [amount], [description] and
    [category] of the source are [formAmount], [formDescription] and
    [formCategory] here. *)
Record State : Type := {
  transactions : list Transaction;
  formAmount : jsstring;
  formDescription : jsstring;
  selectedTransactionId : option Z;
  formCategory : Category;
  transactionType : TransactionType;
  searchTerm : jsstring;
  filterCategory : OrAll Category;
  filterType : OrAll TransactionType;
  activeTab : Tab;
  budget : num;
  budgetInput : jsstring
}.

Definition initial : State := {|
  transactions := [];
  formAmount := [];
  formDescription := [];
  selectedTransactionId := None;
  formCategory := Personal;
  transactionType := expense;
  searchTerm := [];
  filterCategory := All;
  filterType := All;
  activeTab := transactionsTab;
  budget := nzero;
  budgetInput := []
|}.

Definition setTransactions (l : list Transaction) (st : State) : State := {|
  transactions := l;
  formAmount := formAmount st;
  formDescription := formDescription st;
  selectedTransactionId := selectedTransactionId st;
  formCategory := formCategory st;
  transactionType := transactionType st;
  searchTerm := searchTerm st;
  filterCategory := filterCategory st;
  filterType := filterType st;
  activeTab := activeTab st;
  budget := budget st;
  budgetInput := budgetInput st
|}.

Definition setAmount (s : jsstring) (st : State) : State := {|
  transactions := transactions st;
  formAmount := s;
  formDescription := formDescription st;
  selectedTransactionId := selectedTransactionId st;
  formCategory := formCategory st;
  transactionType := transactionType st;
  searchTerm := searchTerm st;
  filterCategory := filterCategory st;
  filterType := filterType st;
  activeTab := activeTab st;
  budget := budget st;
  budgetInput := budgetInput st
|}.

Definition setDescription (s : jsstring) (st : State) : State := {|
  transactions := transactions st;
  formAmount := formAmount st;
  formDescription := s;
  selectedTransactionId := selectedTransactionId st;
  formCategory := formCategory st;
  transactionType := transactionType st;
  searchTerm := searchTerm st;
  filterCategory := filterCategory st;
  filterType := filterType st;
  activeTab := activeTab st;
  budget := budget st;
  budgetInput := budgetInput st
|}.

Definition setSelectedTransactionId (i : option Z) (st : State) : State := {|
  transactions := transactions st;
  formAmount := formAmount st;
  formDescription := formDescription st;
  selectedTransactionId := i;
  formCategory := formCategory st;
  transactionType := transactionType st;
  searchTerm := searchTerm st;
  filterCategory := filterCategory st;
  filterType := filterType st;
  activeTab := activeTab st;
  budget := budget st;
  budgetInput := budgetInput st
|}.

Definition setCategory (c : Category) (st : State) : State := {|
  transactions := transactions st;
  formAmount := formAmount st;
  formDescription := formDescription st;
  selectedTransactionId := selectedTransactionId st;
  formCategory := c;
  transactionType := transactionType st;
  searchTerm := searchTerm st;
  filterCategory := filterCategory st;
  filterType := filterType st;
  activeTab := activeTab st;
  budget := budget st;
  budgetInput := budgetInput st
|}.

Definition setTransactionType (t : TransactionType) (st : State) : State := {|
  transactions := transactions st;
  formAmount := formAmount st;
  formDescription := formDescription st;
  selectedTransactionId := selectedTransactionId st;
  formCategory := formCategory st;
  transactionType := t;
  searchTerm := searchTerm st;
  filterCategory := filterCategory st;
  filterType := filterType st;
  activeTab := activeTab st;
  budget := budget st;
  budgetInput := budgetInput st
|}.

Definition setBudget (b : num) (st : State) : State := {|
  transactions := transactions st;
  formAmount := formAmount st;
  formDescription := formDescription st;
  selectedTransactionId := selectedTransactionId st;
  formCategory := formCategory st;
  transactionType := transactionType st;
  searchTerm := searchTerm st;
  filterCategory := filterCategory st;
  filterType := filterType st;
  activeTab := activeTab st;
  budget := b;
  budgetInput := budgetInput st
|}.

Definition setBudgetInput (s : jsstring) (st : State) : State := {|
  transactions := transactions st;
  formAmount := formAmount st;
  formDescription := formDescription st;
  selectedTransactionId := selectedTransactionId st;
  formCategory := formCategory st;
  transactionType := transactionType st;
  searchTerm := searchTerm st;
  filterCategory := filterCategory st;
  filterType := filterType st;
  activeTab := activeTab st;
  budget := budget st;
  budgetInput := s
|}.

(** ** Filtering and the balance *)

Definition getFilteredTransactions {H : Host num} (st : State) : list Transaction :=
  filter (fun transaction =>
            let matchesSearch :=
              includes (toLowerCase (description transaction))
                       (toLowerCase (searchTerm st)) in
            let matchesCategory :=
              matchesFilter Category_beq (filterCategory st) (category transaction) in
            let matchesType :=
              matchesFilter TransactionType_beq (filterType st) (type transaction) in
            matchesSearch && matchesCategory && matchesType)
         (transactions st).

Definition getCurrentBalance (st : State) : num :=
  fold_left (fun balance transaction =>
               if TransactionType_beq (type transaction) income
               then nadd balance (amount transaction)
               else nsub balance (amount transaction))
            (transactions st) nzero.

(** ** Analytics *)

Record Analytics : Type := {
  totalIncome : num;
  totalExpenses : num;
  netSavings : num;
  totalTransactions : nat;
  avgMonthlyExpense : num;
  largestExpense : num
}.

(** [Math.max(...l)] for a non-empty [l]. *)
Definition Math_max (first : num) (others : list num) : num :=
  fold_left nmax others first.

Definition getAnalyticsData (st : State) : Analytics :=
  let totalIncome :=
    fold_left (fun sum t => nadd sum (amount t))
              (filter (fun t => TransactionType_beq (type t) income) (transactions st))
              nzero in
  let totalExpenses :=
    fold_left (fun sum t => nadd sum (amount t))
              (filter (fun t => TransactionType_beq (type t) expense) (transactions st))
              nzero in
  let netSavings := nsub totalIncome totalExpenses in
  let totalTransactions := length (transactions st) in
  let avgMonthlyExpense := totalExpenses in
  let expenseTransactions :=
    filter (fun t => TransactionType_beq (type t) expense) (transactions st) in
  let largestExpense :=
    match map amount expenseTransactions with
    | [] => nzero
    | a :: others => Math_max a others
    end in
  {| totalIncome := totalIncome;
     totalExpenses := totalExpenses;
     netSavings := netSavings;
     totalTransactions := totalTransactions;
     avgMonthlyExpense := avgMonthlyExpense;
     largestExpense := largestExpense |}.

Definition getCategoryColor (c : Category) : jsstring :=
  match c with
  | Work => lit "#3B82F6"
  | Personal => lit "#10B981"
  | Shopping => lit "#F59E0B"
  | Others => lit "#8B5CF6"
  | Home => lit "#EF4444"
  end.

(** [acc[c]] on the accumulator of [getCategoryDistribution], an object
    whose properties are kept in the order they were first assigned. *)
Fixpoint getEntry (c : Category) (acc : list (Category * num)) : option num :=
  match acc with
  | [] => None
  | (c', v) :: r => if Category_beq c c' then Some v else getEntry c r
  end.

(** [acc[c] = v] *)
Fixpoint setEntry (c : Category) (v : num) (acc : list (Category * num))
  : list (Category * num) :=
  match acc with
  | [] => [(c, v)]
  | (c', v') :: r => if Category_beq c c' then (c, v) :: r else (c', v') :: setEntry c v r
  end.

(** [x || 0] *)
Definition orZero (x : option num) : num :=
  match x with
  | Some v => if ntruthy v then v else nzero
  | None => nzero
  end.

Definition expensesByCategory (st : State) : list (Category * num) :=
  fold_left (fun acc transaction =>
               let category := category transaction in
               setEntry category (nadd (orZero (getEntry category acc)) (amount transaction)) acc)
            (filter (fun t => TransactionType_beq (type t) expense) (transactions st))
            [].

Record Slice : Type := {
  name : Category;
  value : num;
  color : jsstring
}.

Definition getCategoryDistribution (st : State) : list Slice :=
  map (fun '(category, amount) =>
         {| name := category; value := amount; color := getCategoryColor category |})
      (expensesByCategory st).

(** ** The budget *)

Definition setBudgetAmount {H : Host num} (st : State) : State :=
  let numBudget := parseFloat (budgetInput st) in
  if negb (nisNaN numBudget) && nltb nzero numBudget
  then setBudgetInput [] (setBudget numBudget st)
  else st.

Record BudgetData : Type := {
  budgetSet : num;          (* [budget] *)
  spent : num;
  remaining : num;
  percentageSpent : num
}.

Definition getBudgetData (st : State) : BudgetData :=
  let totalSpent :=
    fold_left (fun sum t => nadd sum (amount t))
              (filter (fun t => TransactionType_beq (type t) expense) (transactions st))
              nzero in
  let remaining := nsub (budget st) totalSpent in
  let percentageSpent :=
    if nltb nzero (budget st) then nmul (ndiv totalSpent (budget st)) nhundred else nzero in
  {| budgetSet := budget st;
     spent := totalSpent;
     remaining := nmax nzero remaining;
     percentageSpent := nmin nhundred percentageSpent |}.

(** The sentence of the budget notice, with the number it hands to
    [toFixed(1)]: 'You have exceeded your budget by ...%!' or 'You have
    spent ...% of your budget'. *)
Inductive Notice : Type :=
| ExceededBy (percent : num)
| SpentSoFar (percent : num).

(** The four colours of the notice. *)
Inductive Band : Type := green | yellow | orange | red.

Definition noticeBand (st : State) : Band :=
  if nleb (percentageSpent (getBudgetData st)) (nofZ 50) then green
  else if nleb (percentageSpent (getBudgetData st)) (nofZ 80) then yellow
  else if nltb (percentageSpent (getBudgetData st)) nhundred then orange
  else red.

(** The budget notice section, rendered when [budget > 0]. *)
Definition budgetNotice (st : State) : option (Band * Notice) :=
  if nltb nzero (budget st) then
    Some (noticeBand st,
          if nleb nhundred (percentageSpent (getBudgetData st))
          then ExceededBy (nsub (percentageSpent (getBudgetData st)) nhundred)
          else SpentSoFar (percentageSpent (getBudgetData st)))
  else None.

(** ** Adding and deleting *)

(** [addTransaction], [now] being the reading of [Date.now()] and [nowText]
    the text of [new Date().toLocaleString()]. *)
Definition addTransaction {H : Host num} (now : Z) (nowText : jsstring) (st : State) : State :=
  let numAmount := parseFloat (formAmount st) in
  if negb (str_eqb (trim (formAmount st)) [])
     && negb (nisNaN numAmount)
     && nltb nzero numAmount
     && negb (str_eqb (trim (formDescription st)) [])
  then
    let transaction := {|
      id := now;
      amount := numAmount;
      type := transactionType st;
      description := trim (formDescription st);
      category := formCategory st;
      createdAt := nowText
    |} in
    setDescription [] (setAmount [] (setTransactions (transactions st ++ [transaction]) st))
  else st.

Definition deleteTransaction (st : State) : State :=
  match selectedTransactionId st with
  | Some sel =>
      setSelectedTransactionId None
        (setTransactions
           (filter (fun transaction => negb (id transaction =? sel)) (transactions st)) st)
  | None => st
  end.

Definition clearAllTransactions (st : State) : State :=
  setSelectedTransactionId None (setTransactions [] st).

(** ** The other cells, the filter bar and the footer *)

Definition setSearchTerm (x : jsstring) (st : State) : State := {|
  transactions := transactions st;
  formAmount := formAmount st;
  formDescription := formDescription st;
  selectedTransactionId := selectedTransactionId st;
  formCategory := formCategory st;
  transactionType := transactionType st;
  searchTerm := x;
  filterCategory := filterCategory st;
  filterType := filterType st;
  activeTab := activeTab st;
  budget := budget st;
  budgetInput := budgetInput st
|}.

Definition setFilterCategory (x : OrAll Category) (st : State) : State := {|
  transactions := transactions st;
  formAmount := formAmount st;
  formDescription := formDescription st;
  selectedTransactionId := selectedTransactionId st;
  formCategory := formCategory st;
  transactionType := transactionType st;
  searchTerm := searchTerm st;
  filterCategory := x;
  filterType := filterType st;
  activeTab := activeTab st;
  budget := budget st;
  budgetInput := budgetInput st
|}.

Definition setFilterType (x : OrAll TransactionType) (st : State) : State := {|
  transactions := transactions st;
  formAmount := formAmount st;
  formDescription := formDescription st;
  selectedTransactionId := selectedTransactionId st;
  formCategory := formCategory st;
  transactionType := transactionType st;
  searchTerm := searchTerm st;
  filterCategory := filterCategory st;
  filterType := x;
  activeTab := activeTab st;
  budget := budget st;
  budgetInput := budgetInput st
|}.

Definition setActiveTab (x : Tab) (st : State) : State := {|
  transactions := transactions st;
  formAmount := formAmount st;
  formDescription := formDescription st;
  selectedTransactionId := selectedTransactionId st;
  formCategory := formCategory st;
  transactionType := transactionType st;
  searchTerm := searchTerm st;
  filterCategory := filterCategory st;
  filterType := filterType st;
  activeTab := x;
  budget := budget st;
  budgetInput := budgetInput st
|}.

(** The handler of the button Clear Filters. *)
Definition clearFilters (st : State) : State :=
  setFilterType All (setFilterCategory All (setSearchTerm [] st)).

(** The buttons of the footer, with their [disabled] attributes. *)
Inductive Button : Type := DeleteSelected | ClearAll | ExportCSV.

Definition disabled (b : Button) (st : State) : bool :=
  match b with
  | DeleteSelected => match selectedTransactionId st with None => true | Some _ => false end
  | ClearAll | ExportCSV => (length (transactions st) =? 0)%nat
  end.

(** ** The bar chart and the progress bar *)

(** The one data point of the bar chart; its properties [name], [income]
    and [expense] are [periodName], [periodIncome] and [periodExpense]
    here. *)
Record Period : Type := {
  periodName : jsstring;
  periodIncome : num;
  periodExpense : num
}.

Definition getIncomeVsExpenseData (st : State) : list Period :=
  let incomeTotal :=
    fold_left (fun sum t => nadd sum (amount t))
              (filter (fun t => TransactionType_beq (type t) income) (transactions st))
              nzero in
  let expenseTotal :=
    fold_left (fun sum t => nadd sum (amount t))
              (filter (fun t => TransactionType_beq (type t) expense) (transactions st))
              nzero in
  [ {| periodName := lit "Current Period";
       periodIncome := incomeTotal;
       periodExpense := expenseTotal |} ].

(** Which of the two charts are drawn: the pie when the distribution has a
    slice, the bars when there is a transaction. *)
Definition pieDrawn (st : State) : bool :=
  negb (length (getCategoryDistribution st) =? 0)%nat.

Definition barsDrawn (st : State) : bool :=
  negb (length (transactions st) =? 0)%nat.

(** The progress bar of the budget view, rendered when [budget > 0]: its
    colour (green, yellow or red) and its width in percent. *)
Definition progressBar (st : State) : option (Band * num) :=
  if nltb nzero (budget st) then
    let budgetData := getBudgetData st in
    Some (if nleb (percentageSpent budgetData) (nofZ 50) then green
          else if nleb (percentageSpent budgetData) (nofZ 80) then yellow
          else red,
          nmin nhundred (percentageSpent budgetData))
  else None.

(** ** The export *)

Definition typeName (k : TransactionType) : jsstring :=
  match k with
  | income => lit "income"
  | expense => lit "expense"
  end.

Definition categoryName (c : Category) : jsstring :=
  match c with
  | Work => lit "Work"
  | Personal => lit "Personal"
  | Shopping => lit "Shopping"
  | Others => lit "Others"
  | Home => lit "Home"
  end.

(** The file handed to the browser for download. *)
Record File : Type := {
  download : jsstring;
  content : jsstring
}.

(** The row of a transaction: the date and the description between double
    quotes (code unit 34), written as they are. *)
Definition csvRow {P : NumberText num} (transaction : Transaction) : jsstring :=
  join (lit ",")
       [ [34%N] ++ createdAt transaction ++ [34%N];
         typeName (type transaction);
         Number_toString (amount transaction);
         categoryName (category transaction);
         [34%N] ++ description transaction ++ [34%N] ].

(** [exportToCSV]; [iso] is the text of [new Date().toISOString()], and the
    rows are joined by line feeds (code unit 10). *)
Definition exportToCSV {P : NumberText num} (iso : jsstring) (st : State) : File :=
  let headers := [lit "Date"; lit "Type"; lit "Amount"; lit "Category"; lit "Description"] in
  let csvData := join [10%N] (join (lit ",") headers :: map csvRow (transactions st)) in
  {| download := lit "wallet-transactions-" ++ Todo.beforeT iso ++ lit ".csv";
     content := csvData |}.

(** What the [onClick] handler of a button of the footer does: the page
    state it leaves and the file it hands to the browser, which only
    [exportToCSV] does. *)
Definition onClick {P : NumberText num} (iso : jsstring) (b : Button) (st : State)
  : State * option File :=
  match b with
  | DeleteSelected => (deleteTransaction st, None)
  | ClearAll => (clearAllTransactions st, None)
  | ExportCSV => (st, Some (exportToCSV iso st))
  end.

End Page.

Arguments Transaction num : clear implicits.
Arguments State num : clear implicits.
Arguments Analytics num : clear implicits.
Arguments BudgetData num : clear implicits.
Arguments Slice num : clear implicits.
Arguments Notice num : clear implicits.
Arguments Period num : clear implicits.

End Wallet.

(* ================================================================== *)
(** * A host to run the pages on *)
(* ================================================================== *)

(** An instance of [Host] over the exact rationals, for the examples: the
    case mapping of the ASCII letters, decimal text read exactly, and a
    JSON writer and reader for documents whose numbers are integers (the
    writer puts [null] for any other number, the reader reads every JSON
    number).  Text that does not start with a number, which [parseFloat]
    reads as NaN, reads as 0 here: the validations reject both.

    The host is a stand-in for the built-ins, which it is not: [toLowerCase]
    maps the letters outside ASCII as well; [parseFloat] reads 'Infinity'
    as an infinity, which the rationals do not have, and rounds; and
    [JSON.parse] rounds every number to binary64, so that two integers
    beyond 2^53 can read as one number, and lists the keys that are array
    indices before the others, where this reader keeps the numbers apart
    and the keys in the order of the text.  The examples stay where the
    two agree: ASCII texts, decimal amounts, safe integers, keys that are
    words.  The theorems hold for every host, but for the ones that
    are stated of this one. *)
Module Reference.
Import JS.

Definition lowerUnit (c : N) : N :=
  if ((65 <=? c) && (c <=? 90))%N then (c + 32)%N else c.

Definition asciiLowerCase (s : jsstring) : jsstring := map lowerUnit s.

(** ** Decimal text *)

Definition isDigit (c : N) : bool := ((48 <=? c) && (c <=? 57))%N.

(** The digits at the head of [s], as a number, their count, and the rest. *)
Fixpoint scanDigits (s : jsstring) (acc : N) (count : nat) : N * nat * jsstring :=
  match s with
  | c :: r => if isDigit c then scanDigits r (10 * acc + (c - 48))%N (S count)
              else (acc, count, s)
  | [] => (acc, count, s)
  end.

(** [m] times ten to the [e]. *)
Definition scaled (m : Z) (e : Z) : Qcanon.Qc :=
  if 0 <=? e then Qcanon.Q2Qc (QArith_base.inject_Z (m * 10 ^ e))
  else Qcanon.Q2Qc (QArith_base.Qmake m (Z.to_pos (10 ^ (- e)))).

(** An exponent part at the head of [s], if there is one. *)
Definition scanExponent (s : jsstring) : Z * jsstring :=
  match s with
  | c :: r =>
      if ((c =? 101) || (c =? 69))%N then
        let '(negative, r1) :=
          match r with
          | 45%N :: r' => (true, r')
          | 43%N :: r' => (false, r')
          | _ => (false, r)
          end in
        let '(e, n, r2) := scanDigits r1 0%N 0%nat in
        match n with
        | O => (0, s)
        | S _ => ((if negative then - Z.of_N e else Z.of_N e), r2)
        end
      else (0, s)
  | [] => (0, s)
  end.

(** A number of the JSON grammar at the head of [s]. *)
Definition scanJsonNumber (s : jsstring) : option (Qcanon.Qc * jsstring) :=
  let negative := match s with c :: _ => (c =? 45)%N | [] => false end in
  let s1 := if negative then tl s else s in
  let signed := fun m : N => if negative then - Z.of_N m else Z.of_N m in
  let '(i, n, s2) := scanDigits s1 0%N 0%nat in
  let leadingZero := match s1 with c :: _ => (c =? 48)%N | [] => false end in
  match n with
  | O => None
  | S n' =>
      if leadingZero && negb (Nat.eqb n' 0) then None
      else
        match s2 with
        | 46%N :: r =>
            let '(m, k, s3) := scanDigits r i 0%nat in
            match k with
            | O => None
            | S _ =>
                let '(e, s4) := scanExponent s3 in
                Some (scaled (signed m) (e - Z.of_nat k), s4)
            end
        | _ =>
            let '(e, s4) := scanExponent s2 in
            Some (scaled (signed i) e, s4)
        end
  end.

(** [parseFloat]: leading white space, a sign, digits with an optional
    fraction and exponent; the rest of the text is ignored. *)
Definition readFloat (s : jsstring) : Qcanon.Qc :=
  let s0 := trimStart s in
  let '(negative, s1) :=
    match s0 with
    | 45%N :: r => (true, r)
    | 43%N :: r => (false, r)
    | _ => (false, s0)
    end in
  let '(i, n, s2) := scanDigits s1 0%N 0%nat in
  let '(m, k, s3) :=
    match s2 with
    | 46%N :: r => scanDigits r i 0%nat
    | _ => (i, 0%nat, s2)
    end in
  match (n + k)%nat with
  | O => Qc_ofZ 0
  | S _ =>
      let '(e, _) := scanExponent s3 in
      scaled (if negative then - Z.of_N m else Z.of_N m) (e - Z.of_nat k)
  end.

(** ** Writing JSON *)

Fixpoint digitsOf (fuel : nat) (n : N) (acc : jsstring) : jsstring :=
  match fuel with
  | O => acc
  | S f =>
      let acc' := (48 + n mod 10)%N :: acc in
      if (n / 10 =? 0)%N then acc' else digitsOf f (n / 10)%N acc'
  end.

Definition decimal (n : N) : jsstring := digitsOf (S (N.size_nat n)) n [].

Definition writeNumber (q : Qcanon.Qc) : jsstring :=
  match QArith_base.Qden (Qcanon.this q) with
  | xH =>
      match QArith_base.Qnum (Qcanon.this q) with
      | Z0 => lit "0"
      | Zpos p => decimal (Npos p)
      | Zneg p => 45%N :: decimal (Npos p)
      end
  | _ => lit "null"
  end.

Definition hexDigit (n : N) : N := if (n <? 10)%N then (48 + n)%N else (87 + n)%N.

Definition unicodeEscape (c : N) : jsstring :=
  [92; 117; hexDigit (c / 4096 mod 16); hexDigit (c / 256 mod 16);
   hexDigit (c / 16 mod 16); hexDigit (c mod 16)]%N.

(** The characters of a string between its quotes; a surrogate that is
    not part of a pair is written as an escape. *)
Fixpoint writeUnits (s : jsstring) : jsstring :=
  match s with
  | [] => []
  | c :: r =>
      if (c =? 34)%N then [92; 34]%N ++ writeUnits r
      else if (c =? 92)%N then [92; 92]%N ++ writeUnits r
      else if (c =? 8)%N then [92; 98]%N ++ writeUnits r
      else if (c =? 12)%N then [92; 102]%N ++ writeUnits r
      else if (c =? 10)%N then [92; 110]%N ++ writeUnits r
      else if (c =? 13)%N then [92; 114]%N ++ writeUnits r
      else if (c =? 9)%N then [92; 116]%N ++ writeUnits r
      else if (c <? 32)%N then unicodeEscape c ++ writeUnits r
      else if ((55296 <=? c) && (c <=? 56319))%N then
        match r with
        | d :: r' => if ((56320 <=? d) && (d <=? 57343))%N
                     then c :: d :: writeUnits r'
                     else unicodeEscape c ++ writeUnits r
        | [] => unicodeEscape c
        end
      else if ((56320 <=? c) && (c <=? 57343))%N then unicodeEscape c ++ writeUnits r
      else c :: writeUnits r
  end.

Definition quote (s : jsstring) : jsstring := 34%N :: writeUnits s ++ [34%N].

Definition newline (indent : nat) : jsstring := 10%N :: repeat 32%N indent.

(** [JSON.stringify(v, null, 2)] at nesting depth [indent / 2]. *)
Fixpoint write (indent : nat) (v : json Qcanon.Qc) : jsstring :=
  match v with
  | JNull => lit "null"
  | JBool true => lit "true"
  | JBool false => lit "false"
  | JNumber q => writeNumber q
  | JString s => quote s
  | JArray [] => lit "[]"
  | JArray (x :: r) =>
      lit "[" ++ newline (2 + indent) ++ write (2 + indent) x
      ++ flat_map (fun y => lit "," ++ newline (2 + indent) ++ write (2 + indent) y) r
      ++ newline indent ++ lit "]"
  | JObject [] => lit "{}"
  | JObject ((k, x) :: r) =>
      lit "{" ++ newline (2 + indent) ++ quote k ++ lit ": " ++ write (2 + indent) x
      ++ flat_map (fun '(k', y) =>
                     lit "," ++ newline (2 + indent) ++ quote k' ++ lit ": "
                     ++ write (2 + indent) y) r
      ++ newline indent ++ lit "}"
  end.

(** ** Reading JSON *)

Fixpoint skipSpace (s : jsstring) : jsstring :=
  match s with
  | c :: r => if ((c =? 32) || (c =? 9) || (c =? 10) || (c =? 13))%N then skipSpace r else s
  | [] => []
  end.

Definition hexValue (c : N) : option N :=
  if isDigit c then Some (c - 48)%N
  else if ((97 <=? c) && (c <=? 102))%N then Some (c - 87)%N
  else if ((65 <=? c) && (c <=? 70))%N then Some (c - 55)%N
  else None.

Definition hex4 (a b c d : N) : option N :=
  match hexValue a, hexValue b, hexValue c, hexValue d with
  | Some x, Some y, Some z, Some w => Some (4096 * x + 256 * y + 16 * z + w)%N
  | _, _, _, _ => None
  end.

(** The characters of a string up to its closing quote, and the rest. *)
Fixpoint readUnits (s : jsstring) (acc : jsstring) : option (jsstring * jsstring) :=
  match s with
  | [] => None
  | c :: r =>
      if (c =? 34)%N then Some (rev acc, r)
      else if (c =? 92)%N then
        match r with
        | 34%N :: r' => readUnits r' (34%N :: acc)
        | 92%N :: r' => readUnits r' (92%N :: acc)
        | 47%N :: r' => readUnits r' (47%N :: acc)
        | 98%N :: r' => readUnits r' (8%N :: acc)
        | 102%N :: r' => readUnits r' (12%N :: acc)
        | 110%N :: r' => readUnits r' (10%N :: acc)
        | 114%N :: r' => readUnits r' (13%N :: acc)
        | 116%N :: r' => readUnits r' (9%N :: acc)
        | 117%N :: h1 :: h2 :: h3 :: h4 :: r' =>
            match hex4 h1 h2 h3 h4 with
            | Some u => readUnits r' (u :: acc)
            | None => None
            end
        | _ => None
        end
      else if (c <? 32)%N then None
      else readUnits r (c :: acc)
  end.

(** [m[k] = v] on the properties of an object under construction. *)
Fixpoint define {V : Type} (k : jsstring) (v : V) (m : list (jsstring * V))
  : list (jsstring * V) :=
  match m with
  | [] => [(k, v)]
  | (k', v') :: r => if str_eqb k k' then (k, v) :: r else (k', v') :: define k v r
  end.

Fixpoint readValue (fuel : nat) (s : jsstring) : option (json Qcanon.Qc * jsstring) :=
  match fuel with
  | O => None
  | S f =>
      match skipSpace s with
      | 110%N :: 117%N :: 108%N :: 108%N :: r => Some (JNull, r)
      | 116%N :: 114%N :: 117%N :: 101%N :: r => Some (JBool true, r)
      | 102%N :: 97%N :: 108%N :: 115%N :: 101%N :: r => Some (JBool false, r)
      | 34%N :: r =>
          match readUnits r [] with
          | Some (str, r') => Some (JString str, r')
          | None => None
          end
      | 91%N :: r =>
          match skipSpace r with
          | 93%N :: r' => Some (JArray [], r')
          | _ => readElements f r []
          end
      | 123%N :: r =>
          match skipSpace r with
          | 125%N :: r' => Some (JObject [], r')
          | _ => readMembers f r []
          end
      | s' =>
          match scanJsonNumber s' with
          | Some (q, r) => Some (JNumber q, r)
          | None => None
          end
      end
  end
with readElements (fuel : nat) (s : jsstring) (acc : list (json Qcanon.Qc))
  : option (json Qcanon.Qc * jsstring) :=
  match fuel with
  | O => None
  | S f =>
      match readValue f s with
      | Some (v, r) =>
          match skipSpace r with
          | 44%N :: r' => readElements f r' (v :: acc)
          | 93%N :: r' => Some (JArray (rev (v :: acc)), r')
          | _ => None
          end
      | None => None
      end
  end
with readMembers (fuel : nat) (s : jsstring) (acc : list (jsstring * json Qcanon.Qc))
  : option (json Qcanon.Qc * jsstring) :=
  match fuel with
  | O => None
  | S f =>
      match skipSpace s with
      | 34%N :: r =>
          match readUnits r [] with
          | Some (k, r1) =>
              match skipSpace r1 with
              | 58%N :: r2 =>
                  match readValue f r2 with
                  | Some (v, r3) =>
                      match skipSpace r3 with
                      | 44%N :: r4 => readMembers f r4 (define k v acc)
                      | 125%N :: r4 => Some (JObject (define k v acc), r4)
                      | _ => None
                      end
                  | None => None
                  end
              | _ => None
              end
          | None => None
          end
      | _ => None
      end
  end.

(** [JSON.parse]: one value, nothing but white space after it. *)
Definition read (s : jsstring) : result (json Qcanon.Qc) :=
  match readValue (S (length s)) s with
  | Some (v, r) => match skipSpace r with [] => Ok v | _ => Throw end
  | None => Throw
  end.

#[global] Instance host : Host Qcanon.Qc := {|
  toLowerCase := asciiLowerCase;
  parseFloat := readFloat;
  JSON_parse := read;
  JSON_stringify := write 0
|}.

End Reference.

(* ================================================================== *)
(** * The vocabulary of the statements *)
(* ================================================================== *)

(** ** Lists *)

(** [l'] is [l] with some elements left out, the others in their order. *)
Inductive Subsequence {A : Type} : list A -> list A -> Prop :=
| sub_nil : Subsequence [] []
| sub_skip : forall x l' l, Subsequence l' l -> Subsequence l' (x :: l)
| sub_keep : forall x l' l, Subsequence l' l -> Subsequence (x :: l') (x :: l).

(** ** Toggling *)

(** [t'] is [t] with, at most, [completed] negated: negated exactly when
    the id of [t] is the selected one. *)
Definition toggled_when_selected (sel : option Z) (t t' : Todo.Task) : Prop :=
  Todo.id t' = Todo.id t
  /\ Todo.text t' = Todo.text t
  /\ Todo.createdAt t' = Todo.createdAt t
  /\ Todo.category t' = Todo.category t
  /\ Todo.priority t' = Todo.priority t
  /\ Todo.completed t'
     = if match sel with Some s => Todo.id t =? s | None => false end
       then negb (Todo.completed t) else Todo.completed t.

Definition toggled_when_selected_v1 (sel : option Z) (t t' : TodoV1.Task) : Prop :=
  TodoV1.id t' = TodoV1.id t
  /\ TodoV1.text t' = TodoV1.text t
  /\ TodoV1.createdAt t' = TodoV1.createdAt t
  /\ TodoV1.category t' = TodoV1.category t
  /\ TodoV1.completed t'
     = if match sel with Some s => TodoV1.id t =? s | None => false end
       then negb (TodoV1.completed t) else TodoV1.completed t.

(** ** Sorting *)

(** The comparator that subtracts keys, and the order it sorts by. *)
Definition by_key {A : Type} (key : A -> Z) : A -> A -> Z := fun a b => key a - key b.

Definition key_le {A : Type} (key : A -> Z) : A -> A -> Prop := fun a b => key a <= key b.

(** The rank of a task in the table of [getPriorityOrder]. *)
Definition rank (t : Todo.Task) : Z := Todo.getPriorityOrder (Todo.priority t).

(** The test that picks the tasks of priority [p]. *)
Definition has_priority (p : Todo.Priority) (t : Todo.Task) : bool :=
  Todo.Priority_beq (Todo.priority t) p.

(** ** Sequences of additions *)

(** One use of the form of the todo page: the text typed, the category and
    the priority picked, and what the clock reads when [add_task] runs. *)
Record TaskEntry : Type := {
  typedText : JS.jsstring;
  pickedCategory : Todo.Category;
  pickedPriority : Todo.Priority;
  clock : Z;
  clockText : JS.jsstring
}.

Definition enter_task (st : Todo.State Todo.Task) (e : TaskEntry) : Todo.State Todo.Task :=
  Todo.add_task (clock e) (clockText e)
    (Todo.setPriority (pickedPriority e)
       (Todo.setCategory (pickedCategory e)
          (Todo.setNewTask (typedText e) st))).

Definition enter_tasks (es : list TaskEntry) (st : Todo.State Todo.Task)
  : Todo.State Todo.Task :=
  fold_left enter_task es st.

(** The validation of [add_task]: the text is not empty once trimmed. *)
Definition passes (e : TaskEntry) : bool :=
  negb (JS.str_eqb (JS.trim (typedText e)) []).

Definition entered (e : TaskEntry) : Todo.Task := {|
  Todo.id := clock e;
  Todo.text := JS.trim (typedText e);
  Todo.completed := false;
  Todo.createdAt := clockText e;
  Todo.category := pickedCategory e;
  Todo.priority := pickedPriority e
|}.

(** One use of the form of the wallet page. *)
Record TransactionEntry : Type := {
  typedAmount : JS.jsstring;
  typedDescription : JS.jsstring;
  pickedType : Wallet.TransactionType;
  pickedWalletCategory : Wallet.Category;
  walletClock : Z;
  walletClockText : JS.jsstring
}.

Section WalletEntries.
Context {num : Type} {N : JS.Number num} {H : JS.Host num}.

Definition enter_transaction (st : Wallet.State num) (e : TransactionEntry)
  : Wallet.State num :=
  Wallet.addTransaction (walletClock e) (walletClockText e)
    (Wallet.setTransactionType (pickedType e)
       (Wallet.setCategory (pickedWalletCategory e)
          (Wallet.setDescription (typedDescription e)
             (Wallet.setAmount (typedAmount e) st)))).

Definition enter_transactions (es : list TransactionEntry) (st : Wallet.State num)
  : Wallet.State num :=
  fold_left enter_transaction es st.

(** The validation of [addTransaction]: the amount is not blank, reads as a
    number, that number is greater than 0, and the description is not empty
    once trimmed. *)
Definition passes_wallet (e : TransactionEntry) : bool :=
  negb (JS.str_eqb (JS.trim (typedAmount e)) [])
  && negb (JS.nisNaN (JS.parseFloat (typedAmount e)))
  && JS.nltb JS.nzero (JS.parseFloat (typedAmount e))
  && negb (JS.str_eqb (JS.trim (typedDescription e)) []).

Definition entered_transaction (e : TransactionEntry) : Wallet.Transaction num := {|
  Wallet.id := walletClock e;
  Wallet.amount := JS.parseFloat (typedAmount e);
  Wallet.type := pickedType e;
  Wallet.description := JS.trim (typedDescription e);
  Wallet.category := pickedWalletCategory e;
  Wallet.createdAt := walletClockText e
|}.

End WalletEntries.

(** ** The events of the todo page *)

(** What the user can do on the page, with what the host supplies: typing
    in a field, picking in a list, clicking a button or a row, closing the
    statistics dialog.  [Import l] is the choice of a file that
    [handleFileImport] accepts and whose tasks read as the objects of [l]:
    the ids of [l] are the integers that the numbers of the file read as,
    which are the integers written in the file as long as these are safe
    integers ([JS.isSafeInteger]). *)
Inductive Event : Type :=
| TypeTask (s : JS.jsstring)
| PickCategory (c : Todo.Category)
| PickPriority (p : Todo.Priority)
| ClickAdd (now : Z) (nowText : JS.jsstring)
| TypeSearch (s : JS.jsstring)
| PickFilterCategory (f : Todo.OrAll Todo.Category)
| PickFilterPriority (f : Todo.OrAll Todo.Priority)
| ClickClearFilters
| ClickRow (i : Z)
| ClickDelete
| ClickToggle
| ClickClear
| ClickSort
| ClickStats
| CloseStats
| ClickSave
| Import (l : list Todo.Task).

Section Events.
Context {num : Type} {H : JS.Host num}.

(** The rows on the page are the filtered tasks: only their ids can be
    clicked.  The button Stats is clicked only while it is enabled, its
    handler being one that does not look at the collection.  Any other
    event can happen in any state: the handlers of the other buttons do
    nothing to the page when their button is disabled. *)
Definition possible (st : Todo.State Todo.Task) (e : Event) : Prop :=
  match e with
  | ClickRow i => In i (map Todo.id (Todo.getFilteredTasks st))
  | ClickStats => Todo.disabled Todo.ShowStats st = false
  | _ => True
  end.

Definition handle (st : Todo.State Todo.Task) (e : Event) : Todo.State Todo.Task :=
  match e with
  | TypeTask s => Todo.setNewTask s st
  | PickCategory c => Todo.setCategory c st
  | PickPriority p => Todo.setPriority p st
  | ClickAdd now nowText => Todo.add_task now nowText st
  | TypeSearch s => Todo.setSearchTerm s st
  | PickFilterCategory f => Todo.setFilterCategory f st
  | PickFilterPriority f => Todo.setFilterPriority f st
  | ClickClearFilters =>
      Todo.setFilterPriority Todo.All (Todo.setFilterCategory Todo.All (Todo.setSearchTerm [] st))
  | ClickRow i => Todo.setSelectedTaskId (Some i) st
  | ClickDelete => Todo.delete_task st
  | ClickToggle => Todo.mark_done st
  | ClickClear => Todo.clear_task st
  | ClickSort => Todo.sortTasksByPriority st
  | ClickStats => Todo.setShowStatsDialog true st
  | CloseStats => Todo.setShowStatsDialog false st
  | ClickSave => st
  | Import l => Todo.setSelectedTaskId None (Todo.setTasks l st)
  end.

(** The states the page can be in. *)
Inductive Reachable : Todo.State Todo.Task -> Prop :=
| reach_initial : Reachable Todo.initial
| reach_event : forall st e, Reachable st -> possible st e -> Reachable (handle st e).

End Events.

(** The selection, when there is one, is the id of a task of the
    collection. *)
Definition selection_in_store (st : Todo.State Todo.Task) : Prop :=
  match Todo.selectedTaskId st with
  | Some i => In i (map Todo.id (Todo.tasks st))
  | None => True
  end.

(** The sum of the counts of an object of counts. *)
Definition sumCounts {K : Type} (l : list (K * Z)) : Z :=
  fold_right (fun kv acc => snd kv + acc) 0 l.

(** ** Sums and maxima *)

Section AnalyticsVocabulary.
Context {num : Type} {N : JS.Number num}.

(** The sum of the amounts of the transactions that pass [P], as the spec
    writes it: one pass over the collection. *)
Fixpoint total_where (P : Wallet.Transaction num -> bool) (l : list (Wallet.Transaction num))
  : num :=
  match l with
  | [] => JS.nzero
  | t :: r => if P t then JS.nadd (Wallet.amount t) (total_where P r) else total_where P r
  end.

Definition is_income (t : Wallet.Transaction num) : bool :=
  Wallet.TransactionType_beq (Wallet.type t) Wallet.income.

Definition is_expense (t : Wallet.Transaction num) : bool :=
  Wallet.TransactionType_beq (Wallet.type t) Wallet.expense.

Definition is_expense_of (c : Wallet.Category) (t : Wallet.Transaction num) : bool :=
  is_expense t && Wallet.Category_beq (Wallet.category t) c.

(** The test that picks the transactions of category [c]. *)
Definition in_category (c : Wallet.Category) (t : Wallet.Transaction num) : bool :=
  Wallet.Category_beq (Wallet.category t) c.

(** [m] is the largest of [l]: one of its elements, and none exceeds it. *)
Definition is_largest (m : num) (l : list num) : Prop :=
  In m l /\ forall x, In x l -> JS.nleb x m = true.

(** The slice of the pie for category [c] with sum [v]. *)
Definition slice (c : Wallet.Category) (v : num) : Wallet.Slice num :=
  {| Wallet.name := c; Wallet.value := v; Wallet.color := Wallet.getCategoryColor c |}.

End AnalyticsVocabulary.

(** ** The numbers of the host, exactly *)

(** Every finite binary64 number is a whole multiple of 2^-1074, the
    smallest positive number of the format.  [ulps x] is the value of [x]
    in that unit, an integer; NaN and the infinities have none.  With it
    the sums that the real numbers have are sums of integers. *)
Definition SFulps (x : spec_float) : option Z :=
  match x with
  | S754_zero _ => Some 0
  | S754_finite s m e => Some (SpecFloat.cond_Zopp s (Zpos m) * 2 ^ (e + 1074))
  | _ => None
  end.

Definition ulps (x : float) : option Z := SFulps (Prim2SF x).

(** [a] units of 2^-1074 are a number of the format: an operation whose
    result, taken in the real numbers, is representable needs no
    rounding. *)
Definition representable (a : Z) : Prop := exists x : float, ulps x = Some a.

(** The value of the amount of a transaction, in units of 2^-1074. *)
Definition exact_amount (t : Wallet.Transaction float) : Z :=
  match ulps (Wallet.amount t) with
  | Some a => a
  | None => 0
  end.

(** What the transaction adds to the balance. *)
Definition signed_amount (t : Wallet.Transaction float) : Z :=
  if is_income t then exact_amount t else - exact_amount t.

(** The sums [acc + a1], [acc + a1 + a2], ... *)
Fixpoint running_sums (acc : Z) (l : list Z) : list Z :=
  match l with
  | [] => []
  | a :: r => (acc + a) :: running_sums (acc + a) r
  end.

(** The sum of the integers of [l]. *)
Definition Zsum (l : list Z) : Z := fold_right Z.add 0 l.

(** No amount is NaN or an infinity. *)
Definition finite_amounts (l : list (Wallet.Transaction float)) : Prop :=
  Forall (fun t => ulps (Wallet.amount t) <> None) l.

(** Adding the numbers of [l] one by one, from 0, no sum needs rounding. *)
Definition sums_need_no_rounding (l : list Z) : Prop :=
  Forall representable (running_sums 0 l).

(** Neither the fold of [getCurrentBalance] nor the two of
    [getAnalyticsData] meet a sum that needs rounding (the difference of
    the two totals is the last sum of the balance). *)
Definition balance_needs_no_rounding (st : Wallet.State float) : Prop :=
  finite_amounts (Wallet.transactions st)
  /\ sums_need_no_rounding (map signed_amount (Wallet.transactions st))
  /\ sums_need_no_rounding (map exact_amount (filter is_income (Wallet.transactions st)))
  /\ sums_need_no_rounding (map exact_amount (filter is_expense (Wallet.transactions st))).

(** The amounts are whole numbers greater than 0. *)
Definition whole_amounts (l : list (Wallet.Transaction float)) : Prop :=
  Forall (fun t => exists n : Z, 0 < n /\ ulps (Wallet.amount t) = Some (n * 2 ^ 1074)) l.

(** The sum of the amounts of the transactions that pass [P], in units of
    2^-1074: the sum that the real numbers have. *)
Definition exact_total (P : Wallet.Transaction float -> bool)
    (l : list (Wallet.Transaction float)) : Z :=
  Zsum (map exact_amount (filter P l)).

(** None of the folds of [getAnalyticsData] and [getCategoryDistribution]
    meets a sum that needs rounding. *)
Definition analytics_need_no_rounding (st : Wallet.State float) : Prop :=
  finite_amounts (Wallet.transactions st)
  /\ sums_need_no_rounding (map exact_amount (filter is_income (Wallet.transactions st)))
  /\ sums_need_no_rounding (map exact_amount (filter is_expense (Wallet.transactions st)))
  /\ representable (exact_total is_income (Wallet.transactions st)
                    - exact_total is_expense (Wallet.transactions st))
  /\ forall c, sums_need_no_rounding
                 (map exact_amount (filter (is_expense_of c) (Wallet.transactions st))).

(** ** Imported files *)

Section ImportVocabulary.
Context {num : Type}.

(** The keys a task of an imported file must have. *)
Definition requiredKeys : list JS.jsstring :=
  [ JS.lit "id"; JS.lit "text"; JS.lit "completed"; JS.lit "category"; JS.lit "priority" ].

(** [v] has an own property named [k]. *)
Definition owns (v : JS.json num) (k : JS.jsstring) : bool :=
  match v with
  | JS.JObject m => JS.hasKey k m
  | JS.JArray l => JS.str_eqb k (JS.lit "length") || JS.isIndexBelow k (length l)
  | JS.JString s => JS.str_eqb k (JS.lit "length") || JS.isIndexBelow k (length s)
  | _ => false
  end.

Definition hasRequiredKeys (v : JS.json num) : bool := forallb (owns v) requiredKeys.

(** [v] has no own property that hides the method [hasOwnProperty]. *)
Definition unshadowed (v : JS.json num) : bool := negb (owns v (JS.lit "hasOwnProperty")).

(** The field [tasks] of the parsed file, when it is an array. *)
Definition tasksOf (data : JS.json num) : option (list (JS.json num)) :=
  match data with
  | JS.JObject m =>
      match JS.lookup (JS.lit "tasks") m with
      | Some (JS.JArray l) => Some l
      | _ => None
      end
  | _ => None
  end.

(** How the claim sorts the files: not JSON, no [tasks] array, a task
    without one of the keys, or none of these. *)
Inductive Verdict : Type :=
| NotJson
| NoTasksArray
| TaskWithoutKey
| WellFormed (l : list (JS.json num)).

Definition verdict {H : JS.Host num} (fileText : JS.jsstring) : Verdict :=
  match JS.JSON_parse fileText with
  | JS.Throw => NotJson
  | JS.Ok data =>
      match tasksOf data with
      | None => NoTasksArray
      | Some l => if forallb hasRequiredKeys l then WellFormed l else TaskWithoutKey
      end
  end.

(** The object that [saveTasksToFile] serializes. *)
Definition exportDocument (iso : JS.jsstring) (l : list (JS.json num)) : JS.json num :=
  JS.JObject [ (JS.lit "tasks", JS.JArray l);
               (JS.lit "exportDate", JS.JString iso);
               (JS.lit "version", JS.JString (JS.lit "1.0")) ].

End ImportVocabulary.

(** ** The text of an export *)

(** The characters that the reader of the reference host skips between
    tokens. *)
Definition isSpace (c : N) : bool := ((c =? 32) || (c =? 9) || (c =? 10) || (c =? 13))%N.

(** What the writer of the reference host puts after the first task of an
    array of tasks: a comma, a new line and the task, for each further
    task. *)
Definition moreTasks (l : list Todo.Task) : JS.jsstring :=
  flat_map (fun y => JS.lit "," ++ Reference.newline 4 ++ Reference.write 4 y)
           (map (Todo.taskObject (N:=JS.exact)) l).

(** ** The rows of the tables *)

(** [p] occurs in [s] as a run of consecutive code units. *)
Definition Substring (p s : JS.jsstring) : Prop := exists a b, s = a ++ p ++ b.

(** ** The two versions of the todo list *)

(** The categories are the same five in both versions. *)
Definition forgetCategory (c : Todo.Category) : TodoV1.Category :=
  match c with
  | Todo.Work => TodoV1.Work
  | Todo.Personal => TodoV1.Personal
  | Todo.Shopping => TodoV1.Shopping
  | Todo.Others => TodoV1.Others
  | Todo.Home => TodoV1.Home
  end.

(** A task of the second version without its priority. *)
Definition forgetTask (t : Todo.Task) : TodoV1.Task := {|
  TodoV1.id := Todo.id t;
  TodoV1.text := Todo.text t;
  TodoV1.completed := Todo.completed t;
  TodoV1.createdAt := Todo.createdAt t;
  TodoV1.category := forgetCategory (Todo.category t)
|}.

(** A state of the second version as the first version holds it: the
    priorities, the filters and the dialog are forgotten. *)
Definition forget (st : Todo.State Todo.Task) : TodoV1.State := {|
  TodoV1.tasks := map forgetTask (Todo.tasks st);
  TodoV1.newTask := Todo.newTask st;
  TodoV1.selectedTaskId := Todo.selectedTaskId st;
  TodoV1.formCategory := forgetCategory (Todo.formCategory st)
|}.

(** ** The events of the wallet page *)

(** As for the todo page: what the user can do, with what the host
    supplies, and the states the page can be in. *)
Module WalletPage.

Inductive Event : Type :=
| TypeAmount (s : JS.jsstring)
| TypeDescription (s : JS.jsstring)
| PickType (k : Wallet.TransactionType)
| PickCategory (c : Wallet.Category)
| ClickAdd (now : Z) (nowText : JS.jsstring)
| TypeSearch (s : JS.jsstring)
| PickFilterCategory (f : Wallet.OrAll Wallet.Category)
| PickFilterType (f : Wallet.OrAll Wallet.TransactionType)
| ClickClearFilters
| ClickRow (i : Z)
| ClickDelete
| ClickClearAll
| ClickTab (x : Wallet.Tab)
| TypeBudget (s : JS.jsstring)
| ClickSetBudget.

Section Events.
Context {num : Type} {N : JS.Number num} {H : JS.Host num}.

Definition possible (st : Wallet.State num) (e : Event) : Prop :=
  match e with
  | ClickRow i => In i (map Wallet.id (Wallet.getFilteredTransactions st))
  | _ => True
  end.

Definition handle (st : Wallet.State num) (e : Event) : Wallet.State num :=
  match e with
  | TypeAmount s => Wallet.setAmount s st
  | TypeDescription s => Wallet.setDescription s st
  | PickType k => Wallet.setTransactionType k st
  | PickCategory c => Wallet.setCategory c st
  | ClickAdd now nowText => Wallet.addTransaction now nowText st
  | TypeSearch s => Wallet.setSearchTerm s st
  | PickFilterCategory f => Wallet.setFilterCategory f st
  | PickFilterType f => Wallet.setFilterType f st
  | ClickClearFilters => Wallet.clearFilters st
  | ClickRow i => Wallet.setSelectedTransactionId (Some i) st
  | ClickDelete => Wallet.deleteTransaction st
  | ClickClearAll => Wallet.clearAllTransactions st
  | ClickTab x => Wallet.setActiveTab x st
  | TypeBudget s => Wallet.setBudgetInput s st
  | ClickSetBudget => Wallet.setBudgetAmount st
  end.

Inductive Reachable : Wallet.State num -> Prop :=
| reach_initial : Reachable Wallet.initial
| reach_event : forall st e, Reachable st -> possible st e -> Reachable (handle st e).

(** The selection, when there is one, is the id of a transaction of the
    collection. *)
Definition selection_in_store (st : Wallet.State num) : Prop :=
  match Wallet.selectedTransactionId st with
  | Some i => In i (map Wallet.id (Wallet.transactions st))
  | None => True
  end.

(** What [addTransaction] checks before it stores a transaction, as it
    holds of the stored one. *)
Definition valid (t : Wallet.Transaction num) : Prop :=
  JS.nisNaN (Wallet.amount t) = false
  /\ JS.nltb JS.nzero (Wallet.amount t) = true
  /\ Wallet.description t <> []
  /\ JS.trim (Wallet.description t) = Wallet.description t.

(** The budget is the 0 of the initial render or a number that
    [setBudgetAmount] accepted. *)
Definition budget_unset_or_positive (st : Wallet.State num) : Prop :=
  Wallet.budget st = JS.nzero
  \/ (JS.nisNaN (Wallet.budget st) = false /\ JS.nltb JS.nzero (Wallet.budget st) = true).

End Events.

End WalletPage.

(** The form of the wallet passes the validation of [addTransaction]. *)
Definition form_passes {num : Type} {N : JS.Number num} {H : JS.Host num}
    (st : Wallet.State num) : Prop :=
  JS.trim (Wallet.formAmount st) <> []
  /\ JS.nisNaN (JS.parseFloat (Wallet.formAmount st)) = false
  /\ JS.nltb JS.nzero (JS.parseFloat (Wallet.formAmount st)) = true
  /\ JS.trim (Wallet.formDescription st) <> [].

(** ** Clocks that give fresh ids *)

Section FreshClock.
Context {num : Type} {N : JS.Number num} {H : JS.Host num}.

(** The events that bring no second record with an id of the collection:
    an addition while the clock reads a number that is not such an id, an
    import of a file whose ids are distinct safe integers (of two larger
    integers binary64 can make one number), and every other event. *)
Definition fresh (st : Todo.State Todo.Task) (e : Event) : Prop :=
  match e with
  | ClickAdd now _ => ~ In now (map Todo.id (Todo.tasks st))
  | Import l =>
      NoDup (map Todo.id l)
      /\ Forall (fun t => JS.isSafeInteger (Todo.id t) = true) l
  | _ => True
  end.

(** The states the todo page reaches by such events. *)
Inductive ReachableFresh : Todo.State Todo.Task -> Prop :=
| fresh_initial : ReachableFresh Todo.initial
| fresh_event : forall st e,
    ReachableFresh st -> possible st e -> fresh st e -> ReachableFresh (handle st e).

(** The same for the wallet, which has no import. *)
Definition wallet_fresh (st : Wallet.State num) (e : WalletPage.Event) : Prop :=
  match e with
  | WalletPage.ClickAdd now _ => ~ In now (map Wallet.id (Wallet.transactions st))
  | _ => True
  end.

Inductive WalletReachableFresh : Wallet.State num -> Prop :=
| wallet_fresh_initial : WalletReachableFresh Wallet.initial
| wallet_fresh_event : forall st e,
    WalletReachableFresh st -> WalletPage.possible st e -> wallet_fresh st e ->
    WalletReachableFresh (WalletPage.handle st e).

End FreshClock.

(** ** The elements of an imported array *)

Section ImportDefects.
Context {num : Type}.

(** An element of the [tasks] array that the check of the import passes. *)
Definition sound (v : JS.json num) : bool := hasRequiredKeys v && unshadowed v.

(** The first element that the check does not pass. *)
Fixpoint firstUnsound (l : list (JS.json num)) : option (JS.json num) :=
  match l with
  | [] => None
  | v :: r => if sound v then firstUnsound r else Some v
  end.

End ImportDefects.

(** ** The pie and the lines of the export *)

(** The sum of the values of the slices of the pie. *)
Definition sum_of_slices {num : Type} {N : JS.Number num} (l : list (Wallet.Slice num)) : num :=
  fold_right (fun s acc => JS.nadd (Wallet.value s) acc) JS.nzero l.

(** What the export writes of a transaction: every field but the id. *)
Definition exported {num : Type} (t : Wallet.Transaction num)
  : JS.jsstring * Wallet.TransactionType * num * Wallet.Category * JS.jsstring :=
  (Wallet.createdAt t, Wallet.type t, Wallet.amount t, Wallet.category t,
   Wallet.description t).

(** A transaction whose texts do not break the layout of the export: no
    line feed (code unit 10) in the date, the description or the amount as
    written, no double quote (34) in the date, no comma (44) in the amount
    as written. *)
Definition exportable {num : Type} {P : JS.NumberText num} (t : Wallet.Transaction num)
  : Prop :=
  ~ In 10%N (Wallet.createdAt t)
  /\ ~ In 34%N (Wallet.createdAt t)
  /\ ~ In 10%N (Wallet.description t)
  /\ ~ In 10%N (JS.Number_toString (Wallet.amount t))
  /\ ~ In 44%N (JS.Number_toString (Wallet.amount t)).

(** [s.split(c)] for a separator [c] of one code unit. *)
Fixpoint splitOn (c : N) (s : JS.jsstring) : list JS.jsstring :=
  match s with
  | [] => [[]]
  | x :: r =>
      if N.eqb x c then [] :: splitOn c r
      else match splitOn c r with
           | [] => [[x]]
           | piece :: pieces => (x :: piece) :: pieces
           end
  end.

(** ** Imported values *)

Section ValueVocabulary.
Context {num : Type}.

(** The property [k] of a value that is not [null]. *)
Definition propertyOf (task : JS.json num) (k : JS.jsstring) : option (JS.json num) :=
  match task with
  | JS.JObject m => JS.lookup k m
  | _ => None
  end.

(** The category of the task is not one of the five of the page. *)
Definition uncategorized (task : JS.json num) : bool :=
  negb (existsb (fun c => JS.isString (propertyOf task (JS.lit "category")) (Todo.categoryName c))
                [Todo.Work; Todo.Personal; Todo.Shopping; Todo.Others; Todo.Home]).

(** The priority of the task is not one of the four of the page. *)
Definition unranked (task : JS.json num) : bool :=
  negb (existsb (fun p => JS.isString (propertyOf task (JS.lit "priority")) (Todo.priorityName p))
                [Todo.Critical; Todo.High; Todo.Medium; Todo.Low]).

End ValueVocabulary.

(* ================================================================== *)
(** * The states and the files of the examples *)
(* ================================================================== *)

(** A todo list whose two tasks carry the same id, as two additions within
    one millisecond or an imported file leave it, the id selected. *)
Definition twins : Todo.State Todo.Task :=
  Todo.setSelectedTaskId (Some 7)
    (Todo.setTasks
       [ {| Todo.id := 7; Todo.text := JS.lit "Buy milk"; Todo.completed := false;
            Todo.createdAt := JS.lit "1/1/2025, 10:00:00 AM";
            Todo.category := Todo.Shopping; Todo.priority := Todo.High |};
         {| Todo.id := 7; Todo.text := JS.lit "Pay rent"; Todo.completed := false;
            Todo.createdAt := JS.lit "1/1/2025, 10:00:00 AM";
            Todo.category := Todo.Home; Todo.priority := Todo.Critical |} ]
       (@Todo.initial Todo.Task)).

(** Two tasks with different ids, the first selected. *)
Definition pair_of_tasks : Todo.State Todo.Task :=
  Todo.setSelectedTaskId (Some 7)
    (Todo.setTasks
       [ {| Todo.id := 7; Todo.text := JS.lit "Buy milk"; Todo.completed := false;
            Todo.createdAt := JS.lit "1/1/2025, 10:00:00 AM";
            Todo.category := Todo.Shopping; Todo.priority := Todo.High |};
         {| Todo.id := 8; Todo.text := JS.lit "Pay rent"; Todo.completed := false;
            Todo.createdAt := JS.lit "1/1/2025, 10:00:01 AM";
            Todo.category := Todo.Home; Todo.priority := Todo.Critical |} ]
       (@Todo.initial Todo.Task)).

(** Two tasks typed and added while the clock reads the same millisecond. *)
Definition same_millisecond : list TaskEntry :=
  [ {| typedText := JS.lit "Buy milk"; pickedCategory := Todo.Shopping;
       pickedPriority := Todo.High; clock := 1735725600000;
       clockText := JS.lit "1/1/2025, 10:00:00 AM" |};
    {| typedText := JS.lit "Pay rent"; pickedCategory := Todo.Home;
       pickedPriority := Todo.Critical; clock := 1735725600000;
       clockText := JS.lit "1/1/2025, 10:00:00 AM" |} ].

(** Three uses of the form, a second apart; the second leaves the field
    blank. *)
Definition three_entries : list TaskEntry :=
  [ {| typedText := JS.lit "  Buy milk "; pickedCategory := Todo.Shopping;
       pickedPriority := Todo.High; clock := 1735725600000;
       clockText := JS.lit "1/1/2025, 10:00:00 AM" |};
    {| typedText := JS.lit "   "; pickedCategory := Todo.Work;
       pickedPriority := Todo.Medium; clock := 1735725601000;
       clockText := JS.lit "1/1/2025, 10:00:01 AM" |};
    {| typedText := JS.lit "Pay rent"; pickedCategory := Todo.Home;
       pickedPriority := Todo.Critical; clock := 1735725602000;
       clockText := JS.lit "1/1/2025, 10:00:02 AM" |} ].

(** A transaction of the examples; only the type, the amount and the
    category matter to the figures. *)
Definition entry {num : Type} (k : Wallet.TransactionType) (a : num) (c : Wallet.Category)
  : Wallet.Transaction num := {|
  Wallet.id := 1735725600000;
  Wallet.amount := a;
  Wallet.type := k;
  Wallet.description := JS.lit "entry";
  Wallet.category := c;
  Wallet.createdAt := JS.lit "1/1/2025, 10:00:00 AM"
|}.

(** An income of 0.1, an expense of 0.3, an income of 0.2: in binary64 the
    amounts are the numbers nearest to the tenths, as [parseFloat] returns
    them, in exact arithmetic the tenths themselves. *)
Definition tenths {num : Type} {N : JS.Number num} : Wallet.State num :=
  Wallet.setTransactions
    [ entry Wallet.income (JS.ndiv (JS.nofZ 1) (JS.nofZ 10)) Wallet.Work;
      entry Wallet.expense (JS.ndiv (JS.nofZ 3) (JS.nofZ 10)) Wallet.Shopping;
      entry Wallet.income (JS.ndiv (JS.nofZ 2) (JS.nofZ 10)) Wallet.Work ]
    Wallet.initial.

(** Three incomes of [a], [b] and [c] tenths, in this order. *)
Definition three_incomes {num : Type} {N : JS.Number num} (a b c : Z) : Wallet.State num :=
  Wallet.setTransactions
    [ entry Wallet.income (JS.ndiv (JS.nofZ a) (JS.nofZ 10)) Wallet.Work;
      entry Wallet.income (JS.ndiv (JS.nofZ b) (JS.nofZ 10)) Wallet.Work;
      entry Wallet.income (JS.ndiv (JS.nofZ c) (JS.nofZ 10)) Wallet.Work ]
    Wallet.initial.

(** An income of 1.5, an expense of 0.25 and an income of 0.75, amounts
    that binary64 holds exactly. *)
Definition quarters : Wallet.State float :=
  Wallet.setTransactions
    [ entry Wallet.income 1.5%float Wallet.Work;
      entry Wallet.expense 0.25%float Wallet.Shopping;
      entry Wallet.income 0.75%float Wallet.Work ]
    Wallet.initial.

(** A budget of 100 and one expense of 120. *)
Definition overspent {num : Type} {N : JS.Number num} : Wallet.State num :=
  Wallet.setBudget (JS.nofZ 100)
    (Wallet.setTransactions [ entry Wallet.expense (JS.nofZ 120) Wallet.Shopping ]
       Wallet.initial).

Definition salary_and_purchases {num : Type} {N : JS.Number num} : Wallet.State num :=
  Wallet.setTransactions
    [ entry Wallet.income (JS.nofZ 1000) Wallet.Work;
      entry Wallet.expense (JS.nofZ 200) Wallet.Shopping;
      entry Wallet.expense (JS.nofZ 50) Wallet.Work ]
    Wallet.initial.

(** A file whose only task has the five keys and, besides, a property
    named [hasOwnProperty]. *)
Definition shadowing_file : JS.jsstring :=
  JS.lit "{ 'tasks': [ { 'id': 1, 'text': 'a', 'completed': false, 'category': 'Work', 'priority': 'Low', 'hasOwnProperty': 1 } ] }".

(** The text of [shadowing_file] with its apostrophes turned into the
    double quotes of JSON. *)
Definition doubleQuoted (s : JS.jsstring) : JS.jsstring :=
  map (fun c => if N.eqb c 39 then 34%N else c) s.

(** The digits of an integer, as [String] gives them for the integers the
    examples use. *)
Definition integerText : JS.NumberText Qcanon.Qc :=
  {| JS.Number_toString := Reference.writeNumber |}.

(** Two purchases, as the wallet stores them. *)
Definition two_purchases : Wallet.State Qcanon.Qc :=
  Wallet.setTransactions
    [ {| Wallet.id := 1735725600000; Wallet.amount := JS.Qc_ofZ 200;
         Wallet.type := Wallet.expense; Wallet.description := JS.lit "Shoes, black";
         Wallet.category := Wallet.Shopping;
         Wallet.createdAt := JS.lit "1/1/2025, 10:00:00 AM" |};
      {| Wallet.id := 1735725601000; Wallet.amount := JS.Qc_ofZ 50;
         Wallet.type := Wallet.expense; Wallet.description := JS.lit "Train";
         Wallet.category := Wallet.Work;
         Wallet.createdAt := JS.lit "1/1/2025, 10:00:01 AM" |} ]
    Wallet.initial.

(** The form of the wallet filled in for a purchase. *)
Definition purchase_typed : Wallet.State Qcanon.Qc :=
  Wallet.setDescription (JS.lit " Train ")
    (Wallet.setAmount (JS.lit "12.50") Wallet.initial).

(** The todo list after the import of the two tasks of [pair_of_tasks],
    the addition of a third task and a click on the row of the second. *)
Definition imported_then_added : Todo.State Todo.Task :=
  handle
    (handle
       (handle
          (handle Todo.initial (Import (Todo.tasks pair_of_tasks)))
          (TypeTask (JS.lit "Call home")))
       (ClickAdd 1735725600000 (JS.lit "1/1/2025, 10:00:00 AM")))
    (ClickRow 8).

(** The wallet after two purchases a second apart and a click on the row
    of the first. *)
Definition two_purchases_entered : Wallet.State Qcanon.Qc :=
  WalletPage.handle (H:=Reference.host)
    (WalletPage.handle (H:=Reference.host)
       (WalletPage.handle (H:=Reference.host)
          (WalletPage.handle (H:=Reference.host)
             (WalletPage.handle (H:=Reference.host) purchase_typed
                (WalletPage.ClickAdd 1735725600000 (JS.lit "1/1/2025, 10:00:00 AM")))
             (WalletPage.TypeAmount (JS.lit "3")))
          (WalletPage.TypeDescription (JS.lit "Coffee")))
       (WalletPage.ClickAdd 1735725601000 (JS.lit "1/1/2025, 10:00:01 AM")))
    (WalletPage.ClickRow 1735725600000).

(** A file with one task, whose text is a number. *)
Definition numbered_text_file : JS.jsstring :=
  JS.lit "{ 'tasks': [ { 'id': 1, 'text': 5, 'completed': false, 'category': 'Work', 'priority': 'Low' } ] }".

(** A file with four tasks: the priority of the first is a word that is
    not a priority of the page, the priority of the third a number. *)
Definition mixed_priorities_file : JS.jsstring :=
  JS.lit "{ 'tasks': [ { 'id': 1, 'text': 'a', 'completed': false, 'category': 'Work', 'priority': 'Urgent' }, { 'id': 2, 'text': 'b', 'completed': true, 'category': 'Home', 'priority': 'Low' }, { 'id': 3, 'text': 'c', 'completed': false, 'category': 'Work', 'priority': 7 }, { 'id': 4, 'text': 'd', 'completed': false, 'category': 'Garden', 'priority': 'Critical' } ] }".

(* ================================================================== *)
(** * Facts about lists *)
(* ================================================================== *)

Lemma filter_Subsequence {A : Type} (f : A -> bool) (l : list A) :
  Subsequence (filter f l) l.
Proof.
  induction l as [|x l IH]; simpl.
  - constructor.
  - destruct (f x); constructor; exact IH.
Qed.

Lemma filter_idempotent {A : Type} (f : A -> bool) (l : list A) :
  filter f (filter f l) = filter f l.
Proof.
  induction l as [|x l IH]; simpl; [reflexivity|].
  destruct (f x) eqn:E; simpl; [rewrite E, IH|]; auto.
Qed.

(** Filtering out the elements whose key is [k] removes as many elements
    as [k] occurs among the keys. *)
Lemma length_filter_out_key {A : Type} (key : A -> Z) (k : Z) (l : list A) :
  (length (filter (fun x => negb (key x =? k)%Z) l) + count_occ Z.eq_dec (map key l) k
   = length l)%nat.
Proof.
  induction l as [|x l IH]; simpl; [reflexivity|].
  destruct (Z.eq_dec (key x) k) as [E|E].
  - rewrite (proj2 (Z.eqb_eq _ _) E). simpl. lia.
  - rewrite (proj2 (Z.eqb_neq _ _) E). simpl. lia.
Qed.

Lemma count_occ_once (k : Z) (l : list Z) :
  NoDup l -> In k l -> count_occ Z.eq_dec l k = 1%nat.
Proof.
  intros Hnd Hin. exact (proj1 (NoDup_count_occ' Z.eq_dec l) Hnd k Hin).
Qed.

Lemma map_id_when_unselected {A : Type} (f : A -> A) (p : A -> bool) (l : list A) :
  (forall x, In x l -> p x = false) ->
  map (fun x => if p x then f x else x) l = l.
Proof.
  induction l as [|x l IH]; simpl; intros H; [reflexivity|].
  rewrite (H x (or_introl eq_refl)), IH; auto.
Qed.

(* ================================================================== *)
(** * Deleting the selected record *)
(* ================================================================== *)

(** C2, as stated, fails: with a task selected, [delete_task] on [twins]
    takes the list from two tasks to none, not to one. *)
Lemma delete_task_twins :
  Todo.selectedTaskId twins = Some 7
  /\ length (Todo.tasks twins) = 2%nat
  /\ length (Todo.tasks (Todo.delete_task twins)) = 0%nat
  /\ (length (Todo.tasks (Todo.delete_task twins)) + 1 <> length (Todo.tasks twins))%nat.
Proof.
  repeat split; try reflexivity. simpl. discriminate.
Qed.

(** C2, amended.  With no selection [delete_task] returns the state as it
    is.  With [sel] selected it keeps, in their order, the tasks whose id
    is not [sel], so the length drops by the number of tasks that carry
    [sel], and it clears the selection; when the ids are pairwise distinct
    and [sel] is one of them the length drops by exactly 1.  The same holds
    for [deleteTransaction]. *)
Theorem delete_selected_record :
  (forall st : Todo.State Todo.Task,
      Todo.selectedTaskId st = None -> Todo.delete_task st = st)
  /\ (forall (st : Todo.State Todo.Task) (sel : Z),
      Todo.selectedTaskId st = Some sel ->
      Todo.selectedTaskId (Todo.delete_task st) = None
      /\ Todo.tasks (Todo.delete_task st)
         = filter (fun t => negb (Todo.id t =? sel)) (Todo.tasks st)
      /\ (length (Todo.tasks (Todo.delete_task st))
          + count_occ Z.eq_dec (map Todo.id (Todo.tasks st)) sel
          = length (Todo.tasks st))%nat
      /\ (NoDup (map Todo.id (Todo.tasks st)) ->
          In sel (map Todo.id (Todo.tasks st)) ->
          (length (Todo.tasks (Todo.delete_task st)) + 1 = length (Todo.tasks st))%nat))
  /\ (forall (num : Type) (N : JS.Number num) (st : Wallet.State num),
      Wallet.selectedTransactionId st = None -> Wallet.deleteTransaction st = st)
  /\ (forall (num : Type) (N : JS.Number num) (st : Wallet.State num) (sel : Z),
      Wallet.selectedTransactionId st = Some sel ->
      Wallet.selectedTransactionId (Wallet.deleteTransaction st) = None
      /\ Wallet.transactions (Wallet.deleteTransaction st)
         = filter (fun t => negb (Wallet.id t =? sel)) (Wallet.transactions st)
      /\ (length (Wallet.transactions (Wallet.deleteTransaction st))
          + count_occ Z.eq_dec (map Wallet.id (Wallet.transactions st)) sel
          = length (Wallet.transactions st))%nat
      /\ (NoDup (map Wallet.id (Wallet.transactions st)) ->
          In sel (map Wallet.id (Wallet.transactions st)) ->
          (length (Wallet.transactions (Wallet.deleteTransaction st)) + 1
           = length (Wallet.transactions st))%nat)).
Proof.
  split; [|split; [|split]].
  - intros st H. unfold Todo.delete_task. rewrite H. reflexivity.
  - intros st sel H. unfold Todo.delete_task. rewrite H. simpl.
    split; [reflexivity|]. split; [reflexivity|].
    pose proof (length_filter_out_key Todo.id sel (Todo.tasks st)) as L.
    split; [exact L|].
    intros Hnd Hin. rewrite (count_occ_once _ _ Hnd Hin) in L. exact L.
  - intros num N st H. unfold Wallet.deleteTransaction. rewrite H. reflexivity.
  - intros num N st sel H. unfold Wallet.deleteTransaction. rewrite H. simpl.
    split; [reflexivity|]. split; [reflexivity|].
    pose proof (length_filter_out_key Wallet.id sel (Wallet.transactions st)) as L.
    split; [exact L|].
    intros Hnd Hin. rewrite (count_occ_once _ _ Hnd Hin) in L. exact L.
Qed.

Lemma delete_selected_record_witness :
  (length (Todo.tasks (Todo.delete_task pair_of_tasks)) + 1
   = length (Todo.tasks pair_of_tasks))%nat.
Proof.
  destruct delete_selected_record as [_ [H _]].
  destruct (H pair_of_tasks 7 eq_refl) as [_ [_ [_ H1]]].
  apply H1.
  - simpl. repeat constructor; simpl; intuition discriminate.
  - simpl. left. reflexivity.
Defined.

(* ================================================================== *)
(** * Toggling the selected task *)
(* ================================================================== *)

Lemma setTasks_same {T : Type} (st : Todo.State T) : Todo.setTasks (Todo.tasks st) st = st.
Proof. destruct st; reflexivity. Qed.

Lemma setTasks_same_v1 (st : TodoV1.State) : TodoV1.setTasks (TodoV1.tasks st) st = st.
Proof. destruct st; reflexivity. Qed.

Lemma Forall2_map_r {A : Type} (R : A -> A -> Prop) (f : A -> A) (l : list A) :
  (forall x, R x (f x)) -> Forall2 R l (map f l).
Proof. intros H. induction l; simpl; constructor; auto. Qed.

Lemma Forall2_same {A : Type} (R : A -> A -> Prop) (l : list A) :
  (forall x, R x x) -> Forall2 R l l.
Proof. intros H. induction l; constructor; auto. Qed.

(** C10.  [mark_done] keeps the number and the order of the tasks, and each
    task keeps every field but [completed], which is negated for the tasks
    whose id is the selected one and kept for the others; every other cell
    of the page, the selection among them, is unchanged; and when no task
    carries the selected id, or none is selected, the state is unchanged.
    The same holds for the first version of the page. *)
Theorem mark_done_frame :
  (forall st : Todo.State Todo.Task,
      Forall2 (toggled_when_selected (Todo.selectedTaskId st))
              (Todo.tasks st) (Todo.tasks (Todo.mark_done st))
      /\ Todo.mark_done st = Todo.setTasks (Todo.tasks (Todo.mark_done st)) st
      /\ Todo.selectedTaskId (Todo.mark_done st) = Todo.selectedTaskId st
      /\ ((forall t, In t (Todo.tasks st) -> Some (Todo.id t) <> Todo.selectedTaskId st) ->
          Todo.mark_done st = st))
  /\ (forall st : TodoV1.State,
      Forall2 (toggled_when_selected_v1 (TodoV1.selectedTaskId st))
              (TodoV1.tasks st) (TodoV1.tasks (TodoV1.mark_done st))
      /\ TodoV1.mark_done st = TodoV1.setTasks (TodoV1.tasks (TodoV1.mark_done st)) st
      /\ TodoV1.selectedTaskId (TodoV1.mark_done st) = TodoV1.selectedTaskId st
      /\ ((forall t, In t (TodoV1.tasks st) -> Some (TodoV1.id t) <> TodoV1.selectedTaskId st) ->
          TodoV1.mark_done st = st)).
Proof.
  split; intros st.
  - unfold Todo.mark_done. destruct (Todo.selectedTaskId st) as [sel|] eqn:Hsel.
    + split; [|split; [|split]].
      * simpl. apply Forall2_map_r. intros t. unfold toggled_when_selected.
        destruct (Todo.id t =? sel); simpl; repeat split; reflexivity.
      * reflexivity.
      * simpl. exact Hsel.
      * intros Hno. simpl.
        rewrite (map_id_when_unselected Todo.toggle (fun t => Todo.id t =? sel)).
        -- apply setTasks_same.
        -- intros t Hin. apply Z.eqb_neq. intros E. apply (Hno t Hin). now rewrite E.
    + split; [|split; [|split]].
      * apply Forall2_same. intros t. unfold toggled_when_selected. repeat split; reflexivity.
      * symmetry. apply setTasks_same.
      * exact Hsel.
      * reflexivity.
  - unfold TodoV1.mark_done. destruct (TodoV1.selectedTaskId st) as [sel|] eqn:Hsel.
    + split; [|split; [|split]].
      * simpl. apply Forall2_map_r. intros t. unfold toggled_when_selected_v1.
        destruct (TodoV1.id t =? sel); simpl; repeat split; reflexivity.
      * reflexivity.
      * simpl. exact Hsel.
      * intros Hno. simpl.
        rewrite (map_id_when_unselected TodoV1.toggle (fun t => TodoV1.id t =? sel)).
        -- apply setTasks_same_v1.
        -- intros t Hin. apply Z.eqb_neq. intros E. apply (Hno t Hin). now rewrite E.
    + split; [|split; [|split]].
      * apply Forall2_same. intros t. unfold toggled_when_selected_v1. repeat split; reflexivity.
      * symmetry. apply setTasks_same_v1.
      * exact Hsel.
      * reflexivity.
Qed.

(* ================================================================== *)
(** * Filtering *)
(* ================================================================== *)

(** C8.  For every search term, category filter and priority (or type)
    filter, filtering the filtered list leaves it as it is, and the
    filtered list is a subsequence of the collection: records are left out,
    never reordered.  The view is a function of the page state and returns
    a list; it has no state to write to. *)
Theorem filter_idempotent_subsequence :
  (forall (num : Type) (H : JS.Host num) (st : Todo.State Todo.Task),
      Todo.getFilteredTasks (Todo.setTasks (Todo.getFilteredTasks st) st)
      = Todo.getFilteredTasks st
      /\ Subsequence (Todo.getFilteredTasks st) (Todo.tasks st))
  /\ (forall (num : Type) (N : JS.Number num) (H : JS.Host num) (st : Wallet.State num),
      Wallet.getFilteredTransactions
        (Wallet.setTransactions (Wallet.getFilteredTransactions st) st)
      = Wallet.getFilteredTransactions st
      /\ Subsequence (Wallet.getFilteredTransactions st) (Wallet.transactions st)).
Proof.
  split; intros.
  - split.
    + unfold Todo.getFilteredTasks. simpl. apply filter_idempotent.
    + apply filter_Subsequence.
  - split.
    + unfold Wallet.getFilteredTransactions. simpl. apply filter_idempotent.
    + apply filter_Subsequence.
Qed.

(* ================================================================== *)
(** * Sorting by priority *)
(* ================================================================== *)

(** [Array_sort] with a comparator that subtracts keys. *)
Section SortByKey.
Context {A : Type} (key : A -> Z).

Lemma sort_insert_perm (x : A) (l : list A) :
  Permutation (x :: l) (JS.sort_insert (by_key key) x l).
Proof.
  induction l as [|y r IH]; simpl; [apply Permutation_refl|].
  destruct (by_key key x y <=? 0).
  - apply Permutation_refl.
  - eapply perm_trans; [apply perm_swap|]. apply perm_skip. exact IH.
Qed.

Lemma Array_sort_perm (l : list A) : Permutation l (JS.Array_sort (by_key key) l).
Proof.
  induction l as [|x r IH]; simpl; [constructor|].
  eapply perm_trans; [apply perm_skip; exact IH|]. apply sort_insert_perm.
Qed.

Lemma sort_insert_sorted (x : A) (l : list A) :
  StronglySorted (key_le key) l -> StronglySorted (key_le key) (JS.sort_insert (by_key key) x l).
Proof.
  induction l as [|y r IH]; simpl; intros Hs.
  - repeat constructor.
  - inversion Hs as [|? ? Hr Hy]; subst.
    destruct (by_key key x y <=? 0) eqn:E.
    + apply Z.leb_le in E. unfold by_key in E.
      constructor; [exact Hs|].
      constructor; [unfold key_le; lia|].
      eapply Forall_impl; [|exact Hy]. unfold key_le. intros; lia.
    + apply Z.leb_gt in E. unfold by_key in E.
      constructor; [apply IH; exact Hr|].
      eapply Permutation_Forall; [apply sort_insert_perm|].
      constructor; [unfold key_le; lia|exact Hy].
Qed.

Lemma Array_sort_sorted (l : list A) : StronglySorted (key_le key) (JS.Array_sort (by_key key) l).
Proof.
  induction l as [|x r IH]; simpl; [constructor|]. apply sort_insert_sorted, IH.
Qed.

Lemma Array_sort_of_sorted (l : list A) :
  StronglySorted (key_le key) l -> JS.Array_sort (by_key key) l = l.
Proof.
  induction l as [|x r IH]; simpl; intros Hs; [reflexivity|].
  inversion Hs as [|? ? Hr Hx]; subst. rewrite (IH Hr).
  destruct r as [|y r']; simpl; [reflexivity|].
  inversion Hx as [|? ? Hxy _]; subst. unfold key_le in Hxy.
  replace (by_key key x y <=? 0) with true; [reflexivity|].
  symmetry. apply Z.leb_le. unfold by_key. lia.
Qed.

(** The elements picked by a test that only elements of one key pass keep
    their order. *)
Section Stable.
Variable f : A -> bool.
Hypothesis f_one_key : forall a b, f a = true -> f b = true -> key a = key b.

Lemma sort_insert_stable (x : A) (l : list A) :
  filter f (JS.sort_insert (by_key key) x l) = filter f (x :: l).
Proof.
  induction l as [|y r IH]; simpl; [reflexivity|].
  destruct (by_key key x y <=? 0) eqn:E; simpl; [reflexivity|].
  apply Z.leb_gt in E. unfold by_key in E.
  rewrite IH. simpl.
  destruct (f x) eqn:Fx, (f y) eqn:Fy; try reflexivity.
  pose proof (f_one_key x y Fx Fy). lia.
Qed.

Lemma Array_sort_stable (l : list A) :
  filter f (JS.Array_sort (by_key key) l) = filter f l.
Proof.
  induction l as [|x r IH]; simpl; [reflexivity|].
  rewrite sort_insert_stable. simpl. rewrite IH. reflexivity.
Qed.

End Stable.

(** Two sorted lists that hold, for every key, the same elements of that
    key in the same order are equal: what ECMAScript requires of
    [Array.prototype.sort] leaves no choice. *)
Lemma sorted_by_classes_unique (l1 l2 : list A) :
  StronglySorted (key_le key) l1 -> StronglySorted (key_le key) l2 ->
  (forall k, filter (fun a => key a =? k) l1 = filter (fun a => key a =? k) l2) ->
  l1 = l2.
Proof.
  revert l2. induction l1 as [|x r1 IH]; intros l2 H1 H2 Hf.
  - destruct l2 as [|y r2]; [reflexivity|].
    specialize (Hf (key y)). simpl in Hf. rewrite Z.eqb_refl in Hf. discriminate.
  - destruct l2 as [|y r2].
    + specialize (Hf (key x)). simpl in Hf. rewrite Z.eqb_refl in Hf. discriminate.
    + inversion H1 as [|? ? Hr1 Hx]; subst. inversion H2 as [|? ? Hr2 Hy]; subst.
      assert (Hxy : key x = key y).
      { pose proof (Hf (key x)) as Fx. pose proof (Hf (key y)) as Fy.
        simpl in Fx, Fy. rewrite Z.eqb_refl in Fx, Fy.
        assert (Lx : key y <= key x).
        { destruct (key y =? key x) eqn:E; [apply Z.eqb_eq in E; lia|].
          assert (Hin : In x (filter (fun a => key a =? key x) r2))
            by (rewrite <- Fx; left; reflexivity).
          apply filter_In in Hin. destruct Hin as [Hin _].
          rewrite Forall_forall in Hy. exact (Hy x Hin). }
        assert (Ly : key x <= key y).
        { destruct (key x =? key y) eqn:E; [apply Z.eqb_eq in E; lia|].
          assert (Hin : In y (filter (fun a => key a =? key y) r1))
            by (rewrite Fy; left; reflexivity).
          apply filter_In in Hin. destruct Hin as [Hin _].
          rewrite Forall_forall in Hx. exact (Hx y Hin). }
        lia. }
      assert (Exy : x = y).
      { pose proof (Hf (key x)) as Fx. simpl in Fx.
        rewrite Z.eqb_refl, <- Hxy, Z.eqb_refl in Fx. congruence. }
      subst y. f_equal. apply IH; try assumption.
      intros k. specialize (Hf k). simpl in Hf.
      destruct (key x =? k); congruence.
Qed.

Lemma Array_sort_unique (l l' : list A) :
  StronglySorted (key_le key) l' ->
  (forall k, filter (fun a => key a =? k) l' = filter (fun a => key a =? k) l) ->
  l' = JS.Array_sort (by_key key) l.
Proof.
  intros Hs Hf. apply sorted_by_classes_unique; [exact Hs|apply Array_sort_sorted|].
  intros k. rewrite Hf. symmetry. apply Array_sort_stable.
  intros a b Ha Hb. apply Z.eqb_eq in Ha, Hb. lia.
Qed.

End SortByKey.

Lemma Priority_beq_eq (p q : Todo.Priority) : Todo.Priority_beq p q = true -> p = q.
Proof. destruct p, q; simpl; intros H; try reflexivity; discriminate H. Qed.

Lemma sorted_tasks (st : Todo.State Todo.Task) :
  Todo.tasks (Todo.sortTasksByPriority st) = JS.Array_sort (by_key rank) (Todo.tasks st).
Proof. reflexivity. Qed.

(** C6.  [sortTasksByPriority] rearranges the tasks in ascending order of
    the rank table Critical 0, High 1, Medium 2, Low 3; the tasks of each
    priority keep their relative order (the sort is stable); and sorting a
    second time changes nothing. *)
Theorem sortTasksByPriority_stable_idempotent (st : Todo.State Todo.Task) :
  (Todo.getPriorityOrder Todo.Critical = 0 /\ Todo.getPriorityOrder Todo.High = 1
   /\ Todo.getPriorityOrder Todo.Medium = 2 /\ Todo.getPriorityOrder Todo.Low = 3)
  /\ Permutation (Todo.tasks st) (Todo.tasks (Todo.sortTasksByPriority st))
  /\ StronglySorted (fun a b => rank a <= rank b) (Todo.tasks (Todo.sortTasksByPriority st))
  /\ (forall p, filter (has_priority p) (Todo.tasks (Todo.sortTasksByPriority st))
                = filter (has_priority p) (Todo.tasks st))
  /\ Todo.sortTasksByPriority (Todo.sortTasksByPriority st) = Todo.sortTasksByPriority st.
Proof.
  split; [repeat split|]. rewrite sorted_tasks.
  split; [apply Array_sort_perm|].
  split; [apply (Array_sort_sorted rank)|].
  split.
  - intros p. apply Array_sort_stable.
    intros a b Ha Hb. unfold has_priority in Ha, Hb.
    apply Priority_beq_eq in Ha, Hb. unfold rank. congruence.
  - unfold Todo.sortTasksByPriority at 1 3. simpl.
    fold rank. change (fun a b : Todo.Task => rank a - rank b) with (by_key rank).
    rewrite (Array_sort_of_sorted rank); [reflexivity|]. apply Array_sort_sorted.
Qed.

(* ================================================================== *)
(** * Sequences of additions *)
(* ================================================================== *)

Section WalletEntryFacts.
Context {num : Type} {N : JS.Number num} {H : JS.Host num}.

Lemma enter_transaction_transactions (st : Wallet.State num) (e : TransactionEntry) :
  Wallet.transactions (enter_transaction st e)
  = Wallet.transactions st ++ (if passes_wallet e then [entered_transaction e] else []).
Proof.
  unfold enter_transaction, Wallet.addTransaction, passes_wallet. simpl.
  match goal with |- context [if ?c then _ else _] => destruct c end; simpl.
  - reflexivity.
  - symmetry. apply app_nil_r.
Qed.

Lemma enter_transactions_transactions (es : list TransactionEntry) (st : Wallet.State num) :
  Wallet.transactions (enter_transactions es st)
  = Wallet.transactions st ++ map entered_transaction (filter passes_wallet es).
Proof.
  revert st. induction es as [|e es IH]; intros st; simpl.
  - symmetry. apply app_nil_r.
  - unfold enter_transactions in *. simpl. rewrite IH, enter_transaction_transactions.
    rewrite <- app_assoc. destruct (passes_wallet e); reflexivity.
Qed.

End WalletEntryFacts.

Lemma str_eqb_eq (a b : JS.jsstring) : JS.str_eqb a b = true <-> a = b.
Proof.
  revert b. induction a as [|x a IH]; intros [|y b]; simpl; split; intros E;
    try reflexivity; try discriminate.
  - apply andb_true_iff in E. destruct E as [E1 E2].
    apply N.eqb_eq in E1. apply IH in E2. congruence.
  - injection E as -> ->. rewrite N.eqb_refl. simpl. apply IH. reflexivity.
Qed.

Lemma enter_task_tasks (st : Todo.State Todo.Task) (e : TaskEntry) :
  Todo.tasks (enter_task st e)
  = Todo.tasks st ++ (if passes e then [entered e] else []).
Proof.
  unfold enter_task, Todo.add_task, passes. simpl.
  destruct (negb (JS.str_eqb (JS.trim (typedText e)) [])); simpl.
  - reflexivity.
  - symmetry. apply app_nil_r.
Qed.

Lemma enter_tasks_tasks (es : list TaskEntry) (st : Todo.State Todo.Task) :
  Todo.tasks (enter_tasks es st) = Todo.tasks st ++ map entered (filter passes es).
Proof.
  revert st. induction es as [|e es IH]; intros st; simpl.
  - symmetry. apply app_nil_r.
  - unfold enter_tasks in *. simpl. rewrite IH, enter_task_tasks.
    rewrite <- app_assoc. destruct (passes e); reflexivity.
Qed.

(** C3, as stated, fails: both additions pass the validation and both
    tasks are stored, with the same id. *)
Lemma same_millisecond_same_id :
  filter passes same_millisecond = same_millisecond
  /\ map Todo.id (Todo.tasks (enter_tasks same_millisecond Todo.initial))
     = [1735725600000; 1735725600000]
  /\ ~ NoDup (map Todo.id (Todo.tasks (enter_tasks same_millisecond Todo.initial))).
Proof.
  split; [reflexivity|]. split; [reflexivity|].
  intros Hnd. inversion Hnd as [|? ? Hnot _]; subst. apply Hnot. left. reflexivity.
Qed.

(** C3, amended.  After any sequence of additions the collection is the
    former one followed by one record per addition that passed the
    validation, in order; so its length is the former length plus the
    number of such additions.  The id of each new record is the reading of
    the clock at its addition, and nothing checks it against the others:
    the ids are pairwise distinct exactly when the former ids and the
    readings of the additions that passed are. *)
Theorem additions_counted_ids_from_clock :
  (forall (es : list TaskEntry) (st : Todo.State Todo.Task),
      Todo.tasks (enter_tasks es st) = Todo.tasks st ++ map entered (filter passes es)
      /\ (length (Todo.tasks (enter_tasks es st))
          = length (Todo.tasks st) + length (filter passes es))%nat
      /\ (forall e, passes e = true <-> JS.trim (typedText e) <> [])
      /\ (NoDup (map Todo.id (Todo.tasks (enter_tasks es st)))
          <-> NoDup (map Todo.id (Todo.tasks st) ++ map clock (filter passes es))))
  /\ (forall (num : Type) (N : JS.Number num) (H : JS.Host num)
             (es : list TransactionEntry) (st : Wallet.State num),
      Wallet.transactions (enter_transactions es st)
      = Wallet.transactions st ++ map entered_transaction (filter passes_wallet es)
      /\ (length (Wallet.transactions (enter_transactions es st))
          = length (Wallet.transactions st) + length (filter passes_wallet es))%nat
      /\ (forall e, passes_wallet e = true <->
                    JS.trim (typedAmount e) <> []
                    /\ JS.nisNaN (JS.parseFloat (typedAmount e)) = false
                    /\ JS.nltb JS.nzero (JS.parseFloat (typedAmount e)) = true
                    /\ JS.trim (typedDescription e) <> [])
      /\ (NoDup (map Wallet.id (Wallet.transactions (enter_transactions es st)))
          <-> NoDup (map Wallet.id (Wallet.transactions st)
                     ++ map walletClock (filter passes_wallet es)))).
Proof.
  split.
  - intros es st. rewrite enter_tasks_tasks.
    split; [reflexivity|]. split; [|split].
    + rewrite length_app, length_map. reflexivity.
    + intros e. unfold passes. rewrite negb_true_iff.
      rewrite <- (str_eqb_eq (JS.trim (typedText e)) []).
      destruct (JS.str_eqb (JS.trim (typedText e)) []); split; congruence.
    + rewrite map_app, map_map. simpl. reflexivity.
  - intros num N H es st. rewrite enter_transactions_transactions.
    split; [reflexivity|]. split; [|split].
    + rewrite length_app, length_map. reflexivity.
    + intros e. unfold passes_wallet. rewrite !andb_true_iff, !negb_true_iff.
      rewrite <- (str_eqb_eq (JS.trim (typedAmount e)) []).
      rewrite <- (str_eqb_eq (JS.trim (typedDescription e)) []).
      destruct (JS.str_eqb (JS.trim (typedAmount e)) []),
               (JS.str_eqb (JS.trim (typedDescription e)) []);
        intuition congruence.
    + rewrite map_app, map_map. simpl. reflexivity.
Qed.

(* ================================================================== *)
(** * The exact rationals are exact *)
(* ================================================================== *)

Lemma Qc_leb_le (a b : Qcanon.Qc) : JS.Qc_leb a b = true <-> Qcanon.Qcle a b.
Proof.
  unfold JS.Qc_leb. rewrite Qcanon.Qcle_alt.
  destruct (Qcanon.Qccompare a b); split; intros; congruence.
Qed.

Lemma Qc_ltb_lt (a b : Qcanon.Qc) : JS.Qc_ltb a b = true <-> Qcanon.Qclt a b.
Proof.
  unfold JS.Qc_ltb. rewrite Qcanon.Qclt_alt.
  destruct (Qcanon.Qccompare a b); split; intros; congruence.
Qed.

#[global] Instance exact_add : JS.ExactAdd Qcanon.Qc.
Proof.
  constructor; simpl.
  - apply Qcanon.Qcplus_comm.
  - apply Qcanon.Qcplus_assoc.
  - apply Qcanon.Qcplus_0_l.
  - intros a b. unfold Qcanon.Qcminus.
    rewrite <- Qcanon.Qcplus_assoc, (Qcanon.Qcplus_comm (Qcanon.Qcopp b) b),
      Qcanon.Qcplus_opp_r. apply Qcanon.Qcplus_0_r.
  - intros a b. unfold Qcanon.Qcminus.
    rewrite <- Qcanon.Qcplus_assoc, Qcanon.Qcplus_opp_r. apply Qcanon.Qcplus_0_r.
  - intros a Ha. apply negb_false_iff in Ha. apply Qcanon.Qc_eq_bool_correct. exact Ha.
Qed.

#[global] Instance exact_order : JS.ExactOrder Qcanon.Qc.
Proof.
  constructor; simpl.
  - intros a b. rewrite !Qc_leb_le.
    destruct (Qcanon.Qclt_le_dec a b) as [L|L]; [left; apply Qcanon.Qclt_le_weak, L|right; exact L].
  - intros a b c. rewrite !Qc_leb_le. apply Qcanon.Qcle_trans.
  - intros a b. unfold JS.Qc_ltb, JS.Qc_leb, Qcanon.Qccompare.
    rewrite <- (QArith_base.Qcompare_antisym (Qcanon.this b) (Qcanon.this a)).
    destruct (QArith_base.Qcompare (Qcanon.this b) (Qcanon.this a)); reflexivity.
  - reflexivity.
  - reflexivity.
Qed.

(* ================================================================== *)
(** * binary64 where nothing is rounded *)
(* ================================================================== *)

(** The operations of binary64 are specified by [SpecFloat]: the result of
    an addition is the exact sum of the two numbers, rounded to the
    format.  Below: rounding leaves a number of the format as it is, so an
    addition or a subtraction whose exact result is a number of the format
    returns that number; and the order of the finite numbers is the order
    of their values. *)

(** *** Digits *)

(** A number of [d] binary digits is at least 2^(d-1) and below 2^d, and
    [d] is the only such number. *)
Lemma digits_bounds (p : positive) :
  2 ^ (Zpos (SpecFloat.digits2_pos p) - 1) <= Zpos p < 2 ^ Zpos (SpecFloat.digits2_pos p).
Proof.
  induction p as [p IH|p IH|]; cbn [SpecFloat.digits2_pos].
  - rewrite Pos2Z.inj_succ.
    replace (Z.succ (Zpos (SpecFloat.digits2_pos p)) - 1)
      with (Z.succ (Zpos (SpecFloat.digits2_pos p) - 1)) by lia.
    rewrite !Z.pow_succ_r by lia. rewrite (Pos2Z.inj_xI p). lia.
  - rewrite Pos2Z.inj_succ.
    replace (Z.succ (Zpos (SpecFloat.digits2_pos p)) - 1)
      with (Z.succ (Zpos (SpecFloat.digits2_pos p) - 1)) by lia.
    rewrite !Z.pow_succ_r by lia. rewrite (Pos2Z.inj_xO p). lia.
  - simpl. lia.
Qed.

Lemma digits_unique (p : positive) (d : Z) :
  2 ^ (d - 1) <= Zpos p < 2 ^ d -> Zpos (SpecFloat.digits2_pos p) = d.
Proof.
  intros Hd. pose proof (digits_bounds p) as Hp.
  set (d0 := Zpos (SpecFloat.digits2_pos p)) in *.
  assert (0 < d).
  { destruct (Z_lt_le_dec 0 d) as [L|L]; [exact L|].
    assert (2 ^ d <= 1).
    { destruct (Z.eq_dec d 0) as [->|]; [simpl; lia|].
      rewrite Z.pow_neg_r by lia. lia. }
    lia. }
  destruct (Z_lt_le_dec d0 d) as [L|L].
  - pose proof (Z.pow_le_mono_r 2 d0 (d - 1)). lia.
  - destruct (Z_lt_le_dec d d0) as [L'|L']; [|lia].
    pose proof (Z.pow_le_mono_r 2 d (d0 - 1)). lia.
Qed.

(** [k] zeros appended to [p]: [p] times 2 to the [k], of [k] digits
    more. *)
Lemma iter_xO (p k : positive) : Zpos (Pos.iter xO p k) = Zpos p * 2 ^ Zpos k.
Proof.
  revert p. induction k as [|k IH] using Pos.peano_ind; intros p.
  - simpl. lia.
  - rewrite Pos.iter_succ, Pos2Z.inj_xO, IH, Pos2Z.inj_succ, Z.pow_succ_r by lia. lia.
Qed.

Lemma digits_shift (p k : positive) :
  Zpos (SpecFloat.digits2_pos (Pos.iter xO p k)) = Zpos (SpecFloat.digits2_pos p) + Zpos k.
Proof.
  apply digits_unique. rewrite iter_xO.
  pose proof (digits_bounds p) as [L U].
  replace (Zpos (SpecFloat.digits2_pos p) + Zpos k - 1)
    with ((Zpos (SpecFloat.digits2_pos p) - 1) + Zpos k) by lia.
  rewrite !Z.pow_add_r by lia.
  assert (0 < 2 ^ Zpos k) by (apply Z.pow_pos_nonneg; lia).
  split; nia.
Qed.

(** *** The format *)

(** The exponent that the format gives to a number of magnitude [x], and
    the mantissas and exponents of its numbers: 53 digits over -1074, or
    fewer at -1074, and no exponent above 971. *)
Lemma fexp_binary64 (x : Z) : SpecFloat.fexp prec emax x = Z.max (x - 53) (-1074).
Proof. reflexivity. Qed.

Lemma bounded_spec (m : positive) (e : Z) :
  SpecFloat.bounded prec emax m e = true
  <-> Z.max (Zpos (SpecFloat.digits2_pos m) + e - 53) (-1074) = e /\ e <= 971.
Proof.
  unfold SpecFloat.bounded, SpecFloat.canonical_mantissa.
  rewrite andb_true_iff, Z.eqb_eq, Z.leb_le, fexp_binary64. reflexivity.
Qed.

(** *** Shifting right what ends in zeros *)

Lemma shr_zeros (k m : positive) :
  SpecFloat.iter_pos SpecFloat.shr_1 k
    {| SpecFloat.shr_m := Zpos (Pos.iter xO m k); SpecFloat.shr_r := false;
       SpecFloat.shr_s := false |}
  = {| SpecFloat.shr_m := Zpos m; SpecFloat.shr_r := false; SpecFloat.shr_s := false |}.
Proof.
  revert m. induction k as [k IH|k IH|]; intros m.
  - cbn [SpecFloat.iter_pos Pos.iter SpecFloat.shr_1 orb]. rewrite IH, IH. reflexivity.
  - cbn [SpecFloat.iter_pos Pos.iter]. rewrite IH, IH. reflexivity.
  - reflexivity.
Qed.

(** *** Rounding what needs no rounding *)

(** Rounding leaves the mantissa and the exponent of a number of the format
    as they are; and it finds them when it is given the value of that
    number with another exponent, [M] times 2 to the [ez]. *)
Lemma binary_round_aux_canonical (s : bool) (m : positive) (e : Z) :
  SpecFloat.bounded prec emax m e = true ->
  SpecFloat.binary_round_aux prec emax s (Zpos m) e SpecFloat.loc_Exact = S754_finite s m e.
Proof.
  intros B. pose proof B as B'. apply bounded_spec in B'. destruct B' as [C L].
  unfold SpecFloat.binary_round_aux, SpecFloat.shr_fexp.
  cbn [SpecFloat.Zdigits2 SpecFloat.shr_record_of_loc].
  rewrite fexp_binary64, C, Z.sub_diag.
  cbn [SpecFloat.shr SpecFloat.shr_m SpecFloat.loc_of_shr_record SpecFloat.round_nearest_even
       SpecFloat.Zdigits2 SpecFloat.shr_record_of_loc].
  rewrite fexp_binary64, C, Z.sub_diag.
  cbn [SpecFloat.shr SpecFloat.shr_m].
  replace (e <=? emax - prec) with true; [reflexivity|].
  symmetry. apply Z.leb_le. exact L.
Qed.

Lemma binary_round_exact (s : bool) (M m : positive) (ez e : Z) :
  SpecFloat.bounded prec emax m e = true ->
  Zpos M * 2 ^ (ez + 1074) = Zpos m * 2 ^ (e + 1074) ->
  -1074 <= ez ->
  SpecFloat.binary_round prec emax s M ez = S754_finite s m e.
Proof.
  intros B V Hez. pose proof B as B'. apply bounded_spec in B'. destruct B' as [C L].
  assert (He : -1074 <= e) by lia.
  unfold SpecFloat.binary_round.
  destruct (Z.compare_spec e ez) as [Heq|Hlt|Hgt].
  - subst ez.
    assert (P : 0 < 2 ^ (e + 1074)) by (apply Z.pow_pos_nonneg; lia).
    assert (M = m) by nia. subst M.
    rewrite fexp_binary64, C.
    unfold SpecFloat.shl_align. rewrite Z.sub_diag.
    apply binary_round_aux_canonical, B.
  - assert (K : exists k, ez - e = Zpos k).
    { destruct (ez - e) as [|k|k] eqn:D; try lia. exists k. reflexivity. }
    destruct K as [k K].
    assert (Hm : m = Pos.iter xO M k).
    { apply Pos2Z.inj. rewrite iter_xO, <- K.
      assert (P : 0 < 2 ^ (e + 1074)) by (apply Z.pow_pos_nonneg; lia).
      replace (ez + 1074) with ((ez - e) + (e + 1074)) in V by lia.
      rewrite (Z.pow_add_r 2 (ez - e) (e + 1074)), Z.mul_assoc in V by lia.
      apply Z.mul_reg_r in V; [symmetry; exact V|lia]. }
    assert (D : Zpos (SpecFloat.digits2_pos M) + ez = Zpos (SpecFloat.digits2_pos m) + e).
    { rewrite Hm, digits_shift. lia. }
    rewrite D, fexp_binary64, C.
    unfold SpecFloat.shl_align.
    replace (e - ez) with (Zneg k) by lia.
    rewrite <- Hm. apply binary_round_aux_canonical, B.
  - assert (K : exists k, e - ez = Zpos k).
    { destruct (e - ez) as [|k|k] eqn:D; try lia. exists k. reflexivity. }
    destruct K as [k K].
    assert (HM : M = Pos.iter xO m k).
    { apply Pos2Z.inj. rewrite iter_xO, <- K.
      assert (P : 0 < 2 ^ (ez + 1074)) by (apply Z.pow_pos_nonneg; lia).
      replace (e + 1074) with ((e - ez) + (ez + 1074)) in V by lia.
      rewrite (Z.pow_add_r 2 (e - ez) (ez + 1074)), Z.mul_assoc in V by lia.
      apply Z.mul_reg_r in V; [exact V|lia]. }
    assert (D : Zpos (SpecFloat.digits2_pos M) + ez = Zpos (SpecFloat.digits2_pos m) + e).
    { rewrite HM, digits_shift. lia. }
    rewrite D, fexp_binary64, C.
    unfold SpecFloat.shl_align. rewrite K.
    unfold SpecFloat.binary_round_aux, SpecFloat.shr_fexp.
    cbn [SpecFloat.Zdigits2 SpecFloat.shr_record_of_loc].
    rewrite D, fexp_binary64, C, K.
    cbn [SpecFloat.shr]. rewrite HM, shr_zeros.
    cbn [SpecFloat.shr_m SpecFloat.loc_of_shr_record SpecFloat.round_nearest_even
         SpecFloat.Zdigits2 SpecFloat.shr_record_of_loc].
    replace (ez + Zpos k) with e by lia.
    rewrite fexp_binary64, C, Z.sub_diag.
    cbn [SpecFloat.shr SpecFloat.shr_m].
    replace (e <=? emax - prec) with true; [reflexivity|].
    symmetry. apply Z.leb_le. exact L.
Qed.

(** *** Values *)

(** An equation between options is taken apart without unfolding the
    products in it. *)
Lemma Some_inj {A : Type} (a b : A) : Some a = Some b -> a = b.
Proof. congruence. Qed.

Lemma valid_finite_exponent (s : bool) (m : positive) (e : Z) :
  valid_binary (S754_finite s m e) = true -> -1074 <= e.
Proof. cbn [SpecFloat.valid_binary]. intros B. apply bounded_spec in B. lia. Qed.

Lemma shl_align_value (m : positive) (e ez : Z) :
  ez <= e -> Zpos (fst (SpecFloat.shl_align m e ez)) = Zpos m * 2 ^ (e - ez).
Proof.
  intros L. unfold SpecFloat.shl_align.
  destruct (ez - e) as [|k|k] eqn:D; cbn [fst].
  - replace (e - ez) with 0 by lia. simpl. lia.
  - lia.
  - rewrite iter_xO. replace (e - ez) with (Zpos k) by lia. reflexivity.
Qed.

Lemma cond_Zopp_mul (s : bool) (a b : Z) :
  SpecFloat.cond_Zopp s a * b = SpecFloat.cond_Zopp s (a * b).
Proof. destruct s; simpl; lia. Qed.

(** The value of a finite number, [m] times 2 to the [e], at the exponent
    [ez] below [e]. *)
Lemma finite_value_at (s : bool) (m : positive) (e ez : Z) :
  -1074 <= ez -> ez <= e ->
  SpecFloat.cond_Zopp s (Zpos m) * 2 ^ (e + 1074)
  = SpecFloat.cond_Zopp s (Zpos (fst (SpecFloat.shl_align m e ez))) * 2 ^ (ez + 1074).
Proof.
  intros L1 L2. rewrite shl_align_value by exact L2.
  rewrite !cond_Zopp_mul. f_equal.
  replace (e + 1074) with ((e - ez) + (ez + 1074)) by lia.
  rewrite Z.pow_add_r by lia. lia.
Qed.

(** Normalizing a mantissa whose value some number of the format has. *)
Lemma binary_normalize_exact (M ez : Z) (z : spec_float) :
  valid_binary z = true -> -1074 <= ez ->
  SFulps z = Some (M * 2 ^ (ez + 1074)) ->
  SFulps (SpecFloat.binary_normalize prec emax M ez false) = Some (M * 2 ^ (ez + 1074))
  /\ SpecFloat.binary_normalize prec emax M ez false <> S754_zero true.
Proof.
  intros Vz Hez Hz.
  assert (P : 0 < 2 ^ (ez + 1074)) by (apply Z.pow_pos_nonneg; lia).
  destruct M as [|p|p]; cbn [SpecFloat.binary_normalize].
  - split; [reflexivity|discriminate].
  - destruct z as [sz|sz| |sz mz e]; cbn [SFulps] in Hz; try discriminate.
    + apply Some_inj in Hz. pose proof (Z.mul_pos_pos (Zpos p) _ (Pos2Z.is_pos p) P). lia.
    + pose proof (valid_finite_exponent _ _ _ Vz) as He.
      assert (Q : 0 < 2 ^ (e + 1074)) by (apply Z.pow_pos_nonneg; lia).
      apply Some_inj in Hz. destruct sz; cbn [SpecFloat.cond_Zopp] in Hz; [nia|].
      rewrite (binary_round_exact false p mz ez e Vz (eq_sym Hz) Hez).
      split; [cbn [SFulps SpecFloat.cond_Zopp]; rewrite Hz; reflexivity|discriminate].
  - destruct z as [sz|sz| |sz mz e]; cbn [SFulps] in Hz; try discriminate.
    + apply Some_inj in Hz. pose proof (Z.mul_pos_pos (Zpos p) _ (Pos2Z.is_pos p) P). lia.
    + pose proof (valid_finite_exponent _ _ _ Vz) as He.
      assert (Q : 0 < 2 ^ (e + 1074)) by (apply Z.pow_pos_nonneg; lia).
      apply Some_inj in Hz. destruct sz; cbn [SpecFloat.cond_Zopp] in Hz; [|nia].
      assert (Hz' : Zpos p * 2 ^ (ez + 1074) = Zpos mz * 2 ^ (e + 1074)) by lia.
      rewrite (binary_round_exact true p mz ez e Vz Hz' Hez).
      split; [cbn [SFulps SpecFloat.cond_Zopp]; rewrite Hz; reflexivity|discriminate].
Qed.

(** An addition whose exact result is a number of the format returns that
    number; and it returns -0 only from -0. *)
Lemma SFadd_exact (x y z : spec_float) (a b : Z) :
  valid_binary x = true -> valid_binary y = true -> valid_binary z = true ->
  SFulps x = Some a -> SFulps y = Some b -> SFulps z = Some (a + b) ->
  SFulps (SF64add x y) = Some (a + b)
  /\ (SF64add x y = S754_zero true -> x = S754_zero true).
Proof.
  intros Vx Vy Vz Hx Hy Hz.
  destruct x as [sx|sx| |sx mx ex], y as [sy|sy| |sy my ey];
    cbn [SFulps] in Hx, Hy; try discriminate;
    apply Some_inj in Hx; apply Some_inj in Hy; subst a b.
  - destruct sx, sy; split; try reflexivity; intros F; try discriminate F; reflexivity.
  - split; [reflexivity|discriminate].
  - split; [cbn [SF64add SpecFloat.SFadd SFulps]; f_equal; lia|discriminate].
  - pose proof (valid_finite_exponent _ _ _ Vx) as Hex.
    pose proof (valid_finite_exponent _ _ _ Vy) as Hey.
    unfold SF64add. cbn [SpecFloat.SFadd]. cbv zeta.
    set (ez := Z.min ex ey) in *.
    assert (Hez : -1074 <= ez) by (unfold ez; lia).
    rewrite (finite_value_at sx mx ex ez Hez) in * by (unfold ez; lia).
    rewrite (finite_value_at sy my ey ez Hez) in * by (unfold ez; lia).
    rewrite <- Z.mul_add_distr_r in *.
    destruct (binary_normalize_exact _ ez z Vz Hez Hz) as [U NZ].
    split; [exact U|]. intros F. contradiction (NZ F).
Qed.

(** A subtraction is the addition of the opposite. *)
Lemma SFsub_SFadd (x y : spec_float) :
  SF64sub x y = SF64add x (SpecFloat.SFopp y).
Proof.
  destruct x as [sx|sx| |sx mx ex], y as [sy|sy| |sy my ey]; try reflexivity;
    try (destruct sx, sy; reflexivity); destruct sy; reflexivity.
Qed.

Lemma SFopp_valid (y : spec_float) : valid_binary (SpecFloat.SFopp y) = valid_binary y.
Proof. destruct y; reflexivity. Qed.

Lemma SFopp_ulps (y : spec_float) (b : Z) :
  SFulps y = Some b -> SFulps (SpecFloat.SFopp y) = Some (- b).
Proof.
  destruct y as [s|s| |s m e]; cbn [SFulps SpecFloat.SFopp]; try discriminate.
  - intros E. apply Some_inj in E. subst b. reflexivity.
  - intros E. apply Some_inj in E. subst b. f_equal.
    destruct s; cbn [negb SpecFloat.cond_Zopp]; lia.
Qed.

Lemma SFsub_exact (x y z : spec_float) (a b : Z) :
  valid_binary x = true -> valid_binary y = true -> valid_binary z = true ->
  SFulps x = Some a -> SFulps y = Some b -> SFulps z = Some (a - b) ->
  SFulps (SF64sub x y) = Some (a - b)
  /\ (SF64sub x y = S754_zero true -> x = S754_zero true).
Proof.
  intros Vx Vy Vz Hx Hy Hz. rewrite SFsub_SFadd.
  apply (SFadd_exact x (SpecFloat.SFopp y) z a (- b)); try assumption.
  - rewrite SFopp_valid. exact Vy.
  - apply SFopp_ulps, Hy.
Qed.

(** Two numbers of the format with the same value, not 0, are the same. *)
Lemma SFulps_inj (x y : spec_float) (a : Z) :
  valid_binary x = true -> valid_binary y = true ->
  SFulps x = Some a -> SFulps y = Some a -> a <> 0 -> x = y.
Proof.
  intros Vx Vy Hx Hy Ha.
  destruct x as [sx|sx| |sx mx ex], y as [sy|sy| |sy my ey];
    cbn [SFulps] in Hx, Hy; try discriminate;
    apply Some_inj in Hx; apply Some_inj in Hy; try congruence.
  pose proof (valid_finite_exponent _ _ _ Vx) as Hex.
  pose proof (valid_finite_exponent _ _ _ Vy) as Hey.
  assert (Px : 0 < 2 ^ (ex + 1074)) by (apply Z.pow_pos_nonneg; lia).
  assert (Py : 0 < 2 ^ (ey + 1074)) by (apply Z.pow_pos_nonneg; lia).
  assert (sx = sy /\ Zpos mx * 2 ^ (ex + 1074) = Zpos my * 2 ^ (ey + 1074)) as [-> V].
  { subst a. destruct sx, sy; cbn [SpecFloat.cond_Zopp] in *; split; try reflexivity; nia. }
  pose proof (binary_round_exact sy mx mx ex ex Vx eq_refl Hex) as R1.
  pose proof (binary_round_exact sy mx my ex ey Vy V Hex) as R2.
  congruence.
Qed.

(** *** The numbers of the host *)

(** A number is known by its value, -0 apart. *)
Lemma ulps_zero (x : float) :
  ulps x = Some 0 -> Prim2SF x <> S754_zero true -> x = PrimFloat.zero.
Proof.
  unfold ulps. intros U NZ. apply FloatAxioms.Prim2SF_inj.
  pose proof (FloatAxioms.Prim2SF_valid x) as V.
  destruct (Prim2SF x) as [s|s| |s m e]; cbn [SFulps] in U; try discriminate.
  - destruct s; [contradiction NZ; reflexivity|reflexivity].
  - pose proof (valid_finite_exponent _ _ _ V) as He.
    assert (P : 0 < 2 ^ (e + 1074)) by (apply Z.pow_pos_nonneg; lia).
    apply Some_inj in U. destruct s; cbn [SpecFloat.cond_Zopp] in U; nia.
Qed.

Lemma ulps_inj (x y : float) (a : Z) :
  ulps x = Some a -> ulps y = Some a ->
  Prim2SF x <> S754_zero true -> Prim2SF y <> S754_zero true -> x = y.
Proof.
  intros Hx Hy Nx Ny.
  destruct (Z.eq_dec a 0) as [->|Ha].
  - rewrite (ulps_zero x Hx Nx), (ulps_zero y Hy Ny). reflexivity.
  - apply FloatAxioms.Prim2SF_inj.
    apply (SFulps_inj _ _ a (FloatAxioms.Prim2SF_valid x) (FloatAxioms.Prim2SF_valid y) Hx Hy Ha).
Qed.

(** [x + y] and [x - y] are the exact sum and the exact difference where
    these are numbers of the format, and are -0 only if [x] is. *)
Lemma add_exact (x y : float) (a b : Z) :
  ulps x = Some a -> ulps y = Some b -> representable (a + b) ->
  ulps (x + y) = Some (a + b)
  /\ (Prim2SF x <> S754_zero true -> Prim2SF (x + y) <> S754_zero true).
Proof.
  intros Hx Hy [z Hz]. unfold ulps. rewrite FloatAxioms.add_spec.
  destruct (SFadd_exact _ _ _ a b (FloatAxioms.Prim2SF_valid x) (FloatAxioms.Prim2SF_valid y) (FloatAxioms.Prim2SF_valid z)
              Hx Hy Hz) as [U NZ].
  split; [exact U|]. intros Nx F. apply Nx, NZ, F.
Qed.

Lemma sub_exact (x y : float) (a b : Z) :
  ulps x = Some a -> ulps y = Some b -> representable (a - b) ->
  ulps (x - y) = Some (a - b)
  /\ (Prim2SF x <> S754_zero true -> Prim2SF (x - y) <> S754_zero true).
Proof.
  intros Hx Hy [z Hz]. unfold ulps. rewrite FloatAxioms.sub_spec.
  destruct (SFsub_exact _ _ _ a b (FloatAxioms.Prim2SF_valid x) (FloatAxioms.Prim2SF_valid y) (FloatAxioms.Prim2SF_valid z)
              Hx Hy Hz) as [U NZ].
  split; [exact U|]. intros Nx F. apply Nx, NZ, F.
Qed.

(** *** Order *)

(** Among the numbers of the format the one of smaller exponent is the
    smaller. *)
Lemma smaller_exponent (m1 m2 : positive) (e1 e2 : Z) :
  SpecFloat.bounded prec emax m1 e1 = true -> SpecFloat.bounded prec emax m2 e2 = true ->
  e1 < e2 -> Zpos m1 * 2 ^ (e1 + 1074) < Zpos m2 * 2 ^ (e2 + 1074).
Proof.
  intros B1 B2 L. apply bounded_spec in B1, B2.
  pose proof (digits_bounds m1) as [_ U1]. pose proof (digits_bounds m2) as [L2 _].
  assert (D2 : Zpos (SpecFloat.digits2_pos m2) = 53) by lia.
  assert (D1 : Zpos (SpecFloat.digits2_pos m1) <= 53) by lia.
  rewrite D2 in L2. change (53 - 1) with 52 in L2.
  assert (U1' : Zpos m1 < 2 ^ 53).
  { eapply Z.lt_le_trans; [exact U1|]. apply Z.pow_le_mono_r; lia. }
  assert (P1 : 0 < 2 ^ (e1 + 1074)) by (apply Z.pow_pos_nonneg; lia).
  assert (S : 2 * 2 ^ (e1 + 1074) <= 2 ^ (e2 + 1074)).
  { rewrite <- Z.pow_succ_r by lia. apply Z.pow_le_mono_r; lia. }
  change (2 ^ 53) with (2 ^ 52 * 2) in U1'.
  assert (P52 : 0 < 2 ^ 52) by reflexivity.
  nia.
Qed.

Lemma Zcompare_scale (a b u : Z) : 0 < u -> (a * u ?= b * u) = (a ?= b).
Proof.
  intros Hu. destruct (Z.compare_spec a b) as [->|L|L].
  - apply Z.compare_refl.
  - apply Z.compare_lt_iff. nia.
  - apply Z.compare_gt_iff. nia.
Qed.

(** The finite numbers compare as their values do. *)
Lemma SFcompare_ulps (x y : spec_float) (a b : Z) :
  valid_binary x = true -> valid_binary y = true ->
  SFulps x = Some a -> SFulps y = Some b ->
  SpecFloat.SFcompare x y = Some (a ?= b).
Proof.
  intros Vx Vy Hx Hy.
  destruct x as [sx|sx| |sx mx ex], y as [sy|sy| |sy my ey];
    cbn [SFulps] in Hx, Hy; try discriminate;
    apply Some_inj in Hx; apply Some_inj in Hy; subst a b.
  - reflexivity.
  - pose proof (valid_finite_exponent _ _ _ Vy) as He.
    assert (P : 0 < 2 ^ (ey + 1074)) by (apply Z.pow_pos_nonneg; lia).
    cbn [SpecFloat.SFcompare]. f_equal. symmetry.
    destruct sy; cbn [SpecFloat.cond_Zopp];
      [apply Z.compare_gt_iff|apply Z.compare_lt_iff]; nia.
  - pose proof (valid_finite_exponent _ _ _ Vx) as He.
    assert (P : 0 < 2 ^ (ex + 1074)) by (apply Z.pow_pos_nonneg; lia).
    cbn [SpecFloat.SFcompare]. f_equal. symmetry.
    destruct sx; cbn [SpecFloat.cond_Zopp];
      [apply Z.compare_lt_iff|apply Z.compare_gt_iff]; nia.
  - pose proof (valid_finite_exponent _ _ _ Vx) as Hex.
    pose proof (valid_finite_exponent _ _ _ Vy) as Hey.
    assert (Px : 0 < 2 ^ (ex + 1074)) by (apply Z.pow_pos_nonneg; lia).
    assert (Py : 0 < 2 ^ (ey + 1074)) by (apply Z.pow_pos_nonneg; lia).
    cbn [SpecFloat.valid_binary] in Vx, Vy.
    cbn [SpecFloat.SFcompare]. f_equal. symmetry.
    destruct sx, sy; cbn [SpecFloat.cond_Zopp].
    + destruct (Z.compare_spec ex ey) as [->|L|L].
      * rewrite (Zcompare_scale _ _ _ Py). reflexivity.
      * pose proof (smaller_exponent _ _ _ _ Vx Vy L). apply Z.compare_gt_iff. lia.
      * pose proof (smaller_exponent _ _ _ _ Vy Vx L). apply Z.compare_lt_iff. lia.
    + apply Z.compare_lt_iff. nia.
    + apply Z.compare_gt_iff. nia.
    + destruct (Z.compare_spec ex ey) as [->|L|L].
      * rewrite (Zcompare_scale _ _ _ Py). reflexivity.
      * pose proof (smaller_exponent _ _ _ _ Vx Vy L). apply Z.compare_lt_iff. lia.
      * pose proof (smaller_exponent _ _ _ _ Vy Vx L). apply Z.compare_gt_iff. lia.
Qed.

Lemma ltb_ulps (x y : float) (a b : Z) :
  ulps x = Some a -> ulps y = Some b -> PrimFloat.ltb x y = (a <? b).
Proof.
  intros Hx Hy. rewrite FloatAxioms.ltb_spec. unfold SpecFloat.SFltb, Z.ltb.
  rewrite (SFcompare_ulps _ _ a b (FloatAxioms.Prim2SF_valid x) (FloatAxioms.Prim2SF_valid y) Hx Hy). reflexivity.
Qed.

Lemma leb_ulps (x y : float) (a b : Z) :
  ulps x = Some a -> ulps y = Some b -> PrimFloat.leb x y = (a <=? b).
Proof.
  intros Hx Hy. rewrite FloatAxioms.leb_spec. unfold SpecFloat.SFleb, Z.leb.
  rewrite (SFcompare_ulps _ _ a b (FloatAxioms.Prim2SF_valid x) (FloatAxioms.Prim2SF_valid y) Hx Hy).
  destruct (a ?= b); reflexivity.
Qed.

Lemma eqb_ulps (x y : float) (a b : Z) :
  ulps x = Some a -> ulps y = Some b -> PrimFloat.eqb x y = (a =? b).
Proof.
  intros Hx Hy. rewrite FloatAxioms.eqb_spec. unfold SpecFloat.SFeqb.
  rewrite (SFcompare_ulps _ _ a b (FloatAxioms.Prim2SF_valid x) (FloatAxioms.Prim2SF_valid y) Hx Hy).
  destruct (Z.compare_spec a b) as [->|L|L]; symmetry;
    [apply Z.eqb_refl|apply Z.eqb_neq; lia|apply Z.eqb_neq; lia].
Qed.

Lemma finite_not_nan (x : float) (a : Z) : ulps x = Some a -> PrimFloat.is_nan x = false.
Proof.
  intros Hx. unfold PrimFloat.is_nan. rewrite (eqb_ulps x x a a Hx Hx), Z.eqb_refl.
  reflexivity.
Qed.

(** *** Whole numbers *)

(** The whole numbers below 2^53 in absolute value are numbers of the
    format. *)
Lemma signed_whole_representable (s : bool) (p : positive) :
  Zpos p < 2 ^ 53 -> representable (SpecFloat.cond_Zopp s (Zpos p) * 2 ^ 1074).
Proof.
  intros Hp. pose proof (digits_bounds p) as [L U].
  set (d := Zpos (SpecFloat.digits2_pos p)) in *.
  assert (Hd : 0 < d <= 53).
  { split; [reflexivity|].
    destruct (Z_lt_le_dec 53 d) as [G|G]; [|exact G].
    pose proof (Z.pow_le_mono_r 2 53 (d - 1)). lia. }
  assert (Z : exists m e, SpecFloat.bounded prec emax m e = true
                          /\ Zpos m * 2 ^ (e + 1074) = Zpos p * 2 ^ 1074).
  { destruct (Z.eq_dec d 53) as [E|E].
    - exists p, 0. split; [|reflexivity].
      apply bounded_spec. fold d. lia.
    - assert (K : exists k, 53 - d = Zpos k).
      { destruct (53 - d) as [|k|k] eqn:D; try lia. exists k. reflexivity. }
      destruct K as [k K].
      exists (Pos.iter xO p k), (d - 53). split.
      + apply bounded_spec. rewrite digits_shift. fold d. lia.
      + rewrite iter_xO, <- K, <- Z.mul_assoc, <- Z.pow_add_r by lia.
        f_equal. f_equal. lia. }
  destruct Z as [m [e [B V]]].
  exists (SF2Prim (S754_finite s m e)). unfold ulps.
  rewrite FloatAxioms.Prim2SF_SF2Prim by exact B.
  cbn [SFulps]. rewrite !cond_Zopp_mul, V. reflexivity.
Qed.

Lemma whole_representable (k : Z) : Z.abs k < 2 ^ 53 -> representable (k * 2 ^ 1074).
Proof.
  intros Hk. destruct k as [|p|p].
  - exists PrimFloat.zero. reflexivity.
  - apply (signed_whole_representable false p). exact Hk.
  - apply (signed_whole_representable true p). exact Hk.
Qed.

(** *** The folds of the wallet *)

Lemma exact_amount_finite (t : Wallet.Transaction float) :
  ulps (Wallet.amount t) <> None -> ulps (Wallet.amount t) = Some (exact_amount t).
Proof. unfold exact_amount. destruct (ulps (Wallet.amount t)); congruence. Qed.

Lemma finite_filter (P : Wallet.Transaction float -> bool) (l : list (Wallet.Transaction float)) :
  finite_amounts l -> finite_amounts (filter P l).
Proof.
  unfold finite_amounts. rewrite !Forall_forall. intros F t Ht.
  apply F. apply filter_In in Ht. apply Ht.
Qed.

Lemma representable_zero : representable 0.
Proof. exists PrimFloat.zero. reflexivity. Qed.

Lemma running_sums_last (P : Z -> Prop) (l : list Z) (acc : Z) :
  P acc -> Forall P (running_sums acc l) -> P (acc + Zsum l).
Proof.
  revert acc. induction l as [|a l IH]; intros acc H0 HF; cbn [Zsum fold_right].
  - rewrite Z.add_0_r. exact H0.
  - cbn [running_sums] in HF. inversion HF as [|? ? Ha Hl]; subst.
    fold (Zsum l). rewrite Z.add_assoc. apply IH; assumption.
Qed.

(** The reduction of the totals, when no sum is rounded. *)
Lemma reduce_exact (l : list (Wallet.Transaction float)) (acc : float) (A : Z) :
  ulps acc = Some A -> Prim2SF acc <> S754_zero true ->
  finite_amounts l ->
  Forall representable (running_sums A (map exact_amount l)) ->
  ulps (fold_left (fun sum t => JS.nadd sum (Wallet.amount t)) l acc)
  = Some (A + Zsum (map exact_amount l))
  /\ Prim2SF (fold_left (fun sum t => JS.nadd sum (Wallet.amount t)) l acc) <> S754_zero true.
Proof.
  revert acc A. induction l as [|t l IH]; intros acc A Hacc Nacc Hf Hr.
  - cbn [fold_left map Zsum fold_right]. rewrite Z.add_0_r. split; assumption.
  - cbn [fold_left map Zsum fold_right]. fold (Zsum (map exact_amount l)).
    inversion Hf as [|? ? Ht Hl]; subst.
    cbn [map running_sums] in Hr. inversion Hr as [|? ? Hr1 Hr2]; subst.
    destruct (add_exact acc (Wallet.amount t) A (exact_amount t) Hacc
                (exact_amount_finite t Ht) Hr1) as [U NZ].
    rewrite Z.add_assoc. apply IH; try assumption.
    apply NZ, Nacc.
Qed.

Lemma balance_exact (l : list (Wallet.Transaction float)) (acc : float) (A : Z) :
  ulps acc = Some A -> Prim2SF acc <> S754_zero true ->
  finite_amounts l ->
  Forall representable (running_sums A (map signed_amount l)) ->
  ulps (fold_left (fun balance t =>
                     if Wallet.TransactionType_beq (Wallet.type t) Wallet.income
                     then JS.nadd balance (Wallet.amount t)
                     else JS.nsub balance (Wallet.amount t)) l acc)
  = Some (A + Zsum (map signed_amount l))
  /\ Prim2SF (fold_left (fun balance t =>
                     if Wallet.TransactionType_beq (Wallet.type t) Wallet.income
                     then JS.nadd balance (Wallet.amount t)
                     else JS.nsub balance (Wallet.amount t)) l acc) <> S754_zero true.
Proof.
  revert acc A. induction l as [|t l IH]; intros acc A Hacc Nacc Hf Hr.
  - cbn [fold_left map Zsum fold_right]. rewrite Z.add_0_r. split; assumption.
  - cbn [fold_left map Zsum fold_right]. fold (Zsum (map signed_amount l)).
    inversion Hf as [|? ? Ht Hl]; subst.
    cbn [map running_sums] in Hr. inversion Hr as [|? ? Hr1 Hr2]; subst.
    rewrite Z.add_assoc.
    assert (Hs : signed_amount t
                 = if Wallet.TransactionType_beq (Wallet.type t) Wallet.income
                   then exact_amount t else - exact_amount t) by reflexivity.
    destruct (Wallet.TransactionType_beq (Wallet.type t) Wallet.income);
      rewrite Hs in Hr1, Hr2 |- *.
    + destruct (add_exact acc (Wallet.amount t) A (exact_amount t) Hacc
                  (exact_amount_finite t Ht) Hr1) as [U NZ].
      apply IH; try assumption. apply NZ, Nacc.
    + destruct (sub_exact acc (Wallet.amount t) A (exact_amount t) Hacc
                  (exact_amount_finite t Ht) Hr1) as [U NZ].
      apply IH; try assumption. apply NZ, Nacc.
Qed.

Lemma signed_total (l : list (Wallet.Transaction float)) :
  Zsum (map signed_amount l)
  = Zsum (map exact_amount (filter is_income l)) - Zsum (map exact_amount (filter is_expense l)).
Proof.
  induction l as [|t l IH]; [reflexivity|].
  cbn [map filter Zsum fold_right]. fold (Zsum (map signed_amount l)). rewrite IH.
  unfold signed_amount, is_income, is_expense.
  destruct (Wallet.type t); simpl; unfold Zsum; lia.
Qed.

Lemma zero_is_not_negative_zero : Prim2SF PrimFloat.zero <> S754_zero true.
Proof. discriminate. Qed.

(** On the numbers of the host the balance is the net savings while no
    sum is rounded. *)
Lemma balance_equals_savings_unrounded (st : Wallet.State float) :
  balance_needs_no_rounding st ->
  Wallet.getCurrentBalance st = Wallet.netSavings (Wallet.getAnalyticsData st)
  /\ ulps (Wallet.getCurrentBalance st)
     = Some (Zsum (map signed_amount (Wallet.transactions st))).
Proof.
  intros [Hf [Hb [Hi He]]].
  destruct (balance_exact (Wallet.transactions st) PrimFloat.zero 0 eq_refl
              zero_is_not_negative_zero Hf Hb) as [UB NB].
  destruct (reduce_exact (filter is_income (Wallet.transactions st)) PrimFloat.zero 0 eq_refl
              zero_is_not_negative_zero (finite_filter _ _ Hf) Hi) as [UI NI].
  destruct (reduce_exact (filter is_expense (Wallet.transactions st)) PrimFloat.zero 0 eq_refl
              zero_is_not_negative_zero (finite_filter _ _ Hf) He) as [UE _].
  rewrite Z.add_0_l in UB, UI, UE.
  assert (R : representable
                (Zsum (map exact_amount (filter is_income (Wallet.transactions st)))
                 - Zsum (map exact_amount (filter is_expense (Wallet.transactions st))))).
  { rewrite <- signed_total.
    apply (running_sums_last representable _ 0 representable_zero Hb). }
  destruct (sub_exact _ _ _ _ UI UE R) as [UN NN].
  rewrite <- signed_total in UN.
  split; [|exact UB].
  apply (ulps_inj _ _ _ UB UN NB). apply NN, NI.
Qed.

(** *** Whole amounts *)

Lemma whole_sums (xs : list Z) (acc : Z) :
  (exists k, acc = k * 2 ^ 1074) ->
  Forall (fun x => exists k, x = k * 2 ^ 1074) xs ->
  Z.abs acc + Zsum (map Z.abs xs) < 2 ^ 53 * 2 ^ 1074 ->
  Forall representable (running_sums acc xs).
Proof.
  assert (U : 0 < 2 ^ 1074) by (apply Z.pow_pos_nonneg; lia).
  revert acc. induction xs as [|a xs IH]; intros acc [k Hk] Hw Hb; [constructor|].
  inversion Hw as [|? ? [n Hn] Hw']; subst.
  cbn [map Zsum fold_right] in Hb. fold (Zsum (map Z.abs xs)) in Hb.
  assert (Hpos : 0 <= Zsum (map Z.abs xs)).
  { clear. induction xs as [|x xs IH]; cbn [map Zsum fold_right]; [lia|].
    fold (Zsum (map Z.abs xs)). lia. }
  cbn [running_sums]. constructor.
  - rewrite <- Z.mul_add_distr_r. apply whole_representable.
    assert (Z.abs ((k + n) * 2 ^ 1074) < 2 ^ 53 * 2 ^ 1074) by lia.
    rewrite Z.abs_mul, (Z.abs_eq (2 ^ 1074)) in H by lia.
    apply Z.mul_lt_mono_pos_r in H; [exact H|exact U].
  - apply IH; [|exact Hw'|lia].
    exists (k + n). lia.
Qed.

Lemma whole_amounts_exact (l : list (Wallet.Transaction float)) :
  whole_amounts l ->
  Forall (fun t => exists n : Z, 0 < n /\ exact_amount t = n * 2 ^ 1074) l.
Proof.
  unfold whole_amounts. apply Forall_impl. intros t [n [Hn Ht]].
  exists n. split; [exact Hn|]. unfold exact_amount. rewrite Ht. reflexivity.
Qed.

Lemma whole_amounts_finite (l : list (Wallet.Transaction float)) :
  whole_amounts l -> finite_amounts l.
Proof.
  unfold whole_amounts, finite_amounts. apply Forall_impl. intros t [n [_ Ht]].
  rewrite Ht. discriminate.
Qed.

Lemma filtered_total (P : Wallet.Transaction float -> bool) (l : list (Wallet.Transaction float)) :
  Forall (fun t => exists n : Z, 0 < n /\ exact_amount t = n * 2 ^ 1074) l ->
  Forall (fun x => exists k, x = k * 2 ^ 1074) (map exact_amount (filter P l))
  /\ 0 <= Zsum (map Z.abs (map exact_amount (filter P l))) <= Zsum (map exact_amount l).
Proof.
  assert (U : 0 < 2 ^ 1074) by (apply Z.pow_pos_nonneg; lia).
  induction l as [|t l IH]; intros Hw.
  - split; [constructor|]. cbn. lia.
  - inversion Hw as [|? ? [n [Hn Ht]] Hw']; subst. destruct (IH Hw') as [IH1 IH2].
    cbn [filter map Zsum fold_right]. fold (Zsum (map exact_amount l)).
    assert (0 < exact_amount t) by (rewrite Ht; apply Z.mul_pos_pos; lia).
    destruct (P t); cbn [map].
    + split; [constructor; [exists n; exact Ht|exact IH1]|].
      unfold Zsum in *. cbn [fold_right]. lia.
    + split; [exact IH1|]. unfold Zsum in *. lia.
Qed.

Lemma signed_amounts_total (l : list (Wallet.Transaction float)) :
  Forall (fun t => exists n : Z, 0 < n /\ exact_amount t = n * 2 ^ 1074) l ->
  Forall (fun x => exists k, x = k * 2 ^ 1074) (map signed_amount l)
  /\ Zsum (map Z.abs (map signed_amount l)) = Zsum (map exact_amount l).
Proof.
  assert (U : 0 < 2 ^ 1074) by (apply Z.pow_pos_nonneg; lia).
  induction l as [|t l IH]; intros Hw.
  - split; [constructor|reflexivity].
  - inversion Hw as [|? ? [n [Hn Ht]] Hw']; subst. destruct (IH Hw') as [IH1 IH2].
    cbn [map Zsum fold_right].
    fold (Zsum (map Z.abs (map signed_amount l))). fold (Zsum (map exact_amount l)).
    assert (0 < exact_amount t) by (rewrite Ht; apply Z.mul_pos_pos; lia).
    split.
    + constructor; [|exact IH1]. unfold signed_amount.
      destruct (is_income t); [exists n; exact Ht|exists (- n); lia].
    + rewrite IH2. unfold signed_amount. destruct (is_income t); lia.
Qed.

(** Whole amounts whose total is below 2^53 are added and subtracted
    without rounding. *)
Lemma whole_amounts_need_no_rounding (st : Wallet.State float) :
  whole_amounts (Wallet.transactions st) ->
  Zsum (map exact_amount (Wallet.transactions st)) < 2 ^ 53 * 2 ^ 1074 ->
  balance_needs_no_rounding st.
Proof.
  intros Hw Hb. pose proof (whole_amounts_exact _ Hw) as He.
  split; [apply whole_amounts_finite, Hw|].
  split; [|split].
  - destruct (signed_amounts_total _ He) as [M T].
    apply whole_sums; [exists 0; reflexivity|exact M|]. rewrite T. simpl Z.abs. lia.
  - destruct (filtered_total is_income _ He) as [M T].
    apply whole_sums; [exists 0; reflexivity|exact M|]. simpl Z.abs. lia.
  - destruct (filtered_total is_expense _ He) as [M T].
    apply whole_sums; [exists 0; reflexivity|exact M|]. simpl Z.abs. lia.
Qed.

(** The sums are shown to need no rounding by the numbers they are. *)
Lemma sums_shown (l : list Z) (xs : list float) :
  map ulps xs = map Some (running_sums 0 l) -> sums_need_no_rounding l.
Proof.
  unfold sums_need_no_rounding. generalize (running_sums 0 l). clear l.
  intros l. revert xs. induction l as [|a l IH]; intros xs Hx; [constructor|].
  destruct xs as [|x xs]; [discriminate|]. cbn [map] in Hx.
  injection Hx as Hx Hxs. constructor; [exists x; exact Hx|exact (IH xs Hxs)].
Qed.

(* ================================================================== *)
(** * The balance and the net savings *)
(* ================================================================== *)

(** C9, as stated, fails on the numbers of the host: on [tenths] the
    header balance is 2^-55 and the net savings are 2^-54, each sum being
    rounded where it is taken. *)
Lemma balance_and_net_savings_differ :
  Wallet.getCurrentBalance (@tenths float JS.binary64) = 0x1p-55%float
  /\ Wallet.netSavings (Wallet.getAnalyticsData (@tenths float JS.binary64)) = 0x1p-54%float
  /\ PrimFloat.eqb (Wallet.getCurrentBalance (@tenths float JS.binary64))
                   (Wallet.netSavings (Wallet.getAnalyticsData (@tenths float JS.binary64)))
     = false
  /\ Wallet.getCurrentBalance (@tenths float JS.binary64)
     <> Wallet.netSavings (Wallet.getAnalyticsData (@tenths float JS.binary64)).
Proof.
  split; [vm_compute; reflexivity|]. split; [vm_compute; reflexivity|].
  split; [vm_compute; reflexivity|].
  intros E.
  assert (F : PrimFloat.eqb (Wallet.getCurrentBalance (@tenths float JS.binary64))
                (Wallet.netSavings (Wallet.getAnalyticsData (@tenths float JS.binary64)))
              = false) by (vm_compute; reflexivity).
  rewrite <- E in F. vm_compute in F. discriminate F.
Qed.

Section Balance.
Context {num : Type} {N : JS.Number num} {E : JS.ExactAdd num}.

Lemma nsub_then_nadd (a b c : num) : JS.nadd (JS.nsub a b) c = JS.nsub (JS.nadd a c) b.
Proof.
  rewrite <- (JS.nsub_add a b) at 2.
  rewrite <- (JS.nadd_assoc (JS.nsub a b) b c), (JS.nadd_comm b c), JS.nadd_assoc.
  symmetry. apply JS.nadd_sub.
Qed.

Lemma nsub_then_nsub (a b c : num) : JS.nsub (JS.nsub a b) c = JS.nsub a (JS.nadd b c).
Proof.
  rewrite <- (JS.nsub_add a b) at 2.
  rewrite <- (JS.nsub_add (JS.nsub a b) c) at 2.
  rewrite <- (JS.nadd_assoc (JS.nsub (JS.nsub a b) c) c b), (JS.nadd_comm c b).
  symmetry. apply JS.nadd_sub.
Qed.

Lemma nsub_same (a : num) : JS.nsub a a = JS.nzero.
Proof. rewrite <- (JS.nadd_0_l a) at 1. apply JS.nadd_sub. Qed.

Lemma balance_as_difference (l : list (Wallet.Transaction num)) (i e : num) :
  fold_left (fun balance t =>
               if Wallet.TransactionType_beq (Wallet.type t) Wallet.income
               then JS.nadd balance (Wallet.amount t)
               else JS.nsub balance (Wallet.amount t))
            l (JS.nsub i e)
  = JS.nsub
      (fold_left (fun sum t => JS.nadd sum (Wallet.amount t))
                 (filter (fun t => Wallet.TransactionType_beq (Wallet.type t) Wallet.income) l) i)
      (fold_left (fun sum t => JS.nadd sum (Wallet.amount t))
                 (filter (fun t => Wallet.TransactionType_beq (Wallet.type t) Wallet.expense) l) e).
Proof.
  revert i e. induction l as [|t l IH]; intros i e; simpl; [reflexivity|].
  destruct (Wallet.type t); simpl.
  - rewrite nsub_then_nadd. apply IH.
  - rewrite nsub_then_nsub. apply IH.
Qed.

End Balance.

(** In exact arithmetic the balance of the header, folded over the
    transactions, equals the net savings of the analytics. *)
Lemma balance_equals_savings_exact
  (num : Type) (N : JS.Number num) (E : JS.ExactAdd num) (st : Wallet.State num) :
  Wallet.getCurrentBalance st = Wallet.netSavings (Wallet.getAnalyticsData st).
Proof.
  unfold Wallet.getCurrentBalance, Wallet.getAnalyticsData. simpl.
  rewrite <- balance_as_difference. rewrite nsub_same. reflexivity.
Qed.

(** C9, amended.  The balance of the header, folded over the transactions,
    equals the net savings of the analytics, total income minus total
    expenses: in exact arithmetic, always; on the numbers of the host,
    while none of the sums that the two computations pass through needs
    rounding, the balance then being the exact sum of the signed amounts;
    in particular for whole amounts whose total is below 2^53. *)
Theorem balance_is_net_savings :
  (forall (num : Type) (N : JS.Number num) (E : JS.ExactAdd num) (st : Wallet.State num),
     Wallet.getCurrentBalance st = Wallet.netSavings (Wallet.getAnalyticsData st))
  /\ (forall st : Wallet.State float,
      balance_needs_no_rounding st ->
      Wallet.getCurrentBalance st = Wallet.netSavings (Wallet.getAnalyticsData st)
      /\ ulps (Wallet.getCurrentBalance st)
         = Some (Zsum (map signed_amount (Wallet.transactions st))))
  /\ (forall st : Wallet.State float,
      whole_amounts (Wallet.transactions st) ->
      Zsum (map exact_amount (Wallet.transactions st)) < 2 ^ 53 * 2 ^ 1074 ->
      Wallet.getCurrentBalance st = Wallet.netSavings (Wallet.getAnalyticsData st)).
Proof.
  split; [exact balance_equals_savings_exact|]. split.
  - exact balance_equals_savings_unrounded.
  - intros st Hw Hb.
    apply balance_equals_savings_unrounded, whole_amounts_need_no_rounding; assumption.
Qed.

Lemma balance_is_net_savings_witness :
  Wallet.getCurrentBalance (@tenths Qcanon.Qc JS.exact)
  = Wallet.netSavings (Wallet.getAnalyticsData (@tenths Qcanon.Qc JS.exact))
  /\ (Wallet.getCurrentBalance quarters = Wallet.netSavings (Wallet.getAnalyticsData quarters)
      /\ Wallet.getCurrentBalance quarters = 2%float)
  /\ (Wallet.getCurrentBalance (@salary_and_purchases float JS.binary64)
      = Wallet.netSavings (Wallet.getAnalyticsData (@salary_and_purchases float JS.binary64))
      /\ Wallet.getCurrentBalance (@salary_and_purchases float JS.binary64) = 750%float).
Proof.
  destruct balance_is_net_savings as [E [U W]].
  split; [exact (E Qcanon.Qc JS.exact exact_add tenths)|]. split.
  - split; [|vm_compute; reflexivity].
    apply U. split; [|split; [|split]].
    + repeat constructor; vm_compute; discriminate.
    + apply (sums_shown _ [1.5; 1.25; 2]%float). vm_compute. reflexivity.
    + apply (sums_shown _ [1.5; 2.25]%float). vm_compute. reflexivity.
    + apply (sums_shown _ [0.25]%float). vm_compute. reflexivity.
  - split; [|vm_compute; reflexivity].
    apply W.
    + repeat constructor.
      * exists 1000. split; [lia|vm_compute; reflexivity].
      * exists 200. split; [lia|vm_compute; reflexivity].
      * exists 50. split; [lia|vm_compute; reflexivity].
    + vm_compute. reflexivity.
Defined.

(* ================================================================== *)
(** * The budget *)
(* ================================================================== *)

(** C1 on the numbers of the host, budget 100 and expenses 120: the budget
    data are as the claim says, remaining 0 and percentage 100, but the
    notice is computed from that clamped percentage and reads 'exceeded by
    0', where the claim says 20. *)
Theorem overspent_notice_reads_zero :
  Wallet.getBudgetData (@overspent float JS.binary64)
  = {| Wallet.budgetSet := 100%float; Wallet.spent := 120%float;
       Wallet.remaining := 0%float; Wallet.percentageSpent := 100%float |}
  /\ JS.nmul (JS.ndiv (Wallet.spent (Wallet.getBudgetData (@overspent float JS.binary64)))
                      (Wallet.budget (@overspent float JS.binary64))) JS.nhundred
     = 120%float
  /\ Wallet.budgetNotice (@overspent float JS.binary64)
     = Some (Wallet.red, Wallet.ExceededBy 0%float).
Proof.
  split; [vm_compute; reflexivity|]. split; vm_compute; reflexivity.
Qed.

Section Budget.
Context {num : Type} {N : JS.Number num} {E : JS.ExactAdd num} {O : JS.ExactOrder num}.

(** What [getBudgetData] returns, field by field. *)
Lemma getBudgetData_fields (st : Wallet.State num) :
  Wallet.remaining (Wallet.getBudgetData st)
  = JS.nmax JS.nzero (JS.nsub (Wallet.budget st) (Wallet.spent (Wallet.getBudgetData st)))
  /\ Wallet.percentageSpent (Wallet.getBudgetData st)
     = JS.nmin JS.nhundred
         (if JS.nltb JS.nzero (Wallet.budget st)
          then JS.nmul (JS.ndiv (Wallet.spent (Wallet.getBudgetData st)) (Wallet.budget st))
                       JS.nhundred
          else JS.nzero)
  /\ JS.nleb (Wallet.percentageSpent (Wallet.getBudgetData st)) JS.nhundred = true.
Proof.
  split; [reflexivity|]. split; [reflexivity|].
  simpl. rewrite JS.nmin_def, JS.nltb_nleb.
  match goal with |- context [JS.nleb JS.nhundred ?x] =>
    destruct (JS.nleb JS.nhundred x) eqn:L; simpl end.
  - destruct (JS.nleb_total JS.nhundred JS.nhundred); assumption.
  - match type of L with JS.nleb _ ?x = _ =>
      destruct (JS.nleb_total JS.nhundred x) as [T|T]; [congruence|exact T] end.
Qed.

(** In exact arithmetic too, whenever the notice says the budget is
    exceeded, the figure it prints is 0. *)
Lemma exceeded_by_is_zero (st : Wallet.State num) (b : Wallet.Band) (p : num) :
  Wallet.budgetNotice st = Some (b, Wallet.ExceededBy p) -> p = JS.nzero.
Proof.
  unfold Wallet.budgetNotice.
  destruct (JS.nltb JS.nzero (Wallet.budget st)); [|discriminate].
  destruct (JS.nleb JS.nhundred (Wallet.percentageSpent (Wallet.getBudgetData st))) eqn:L;
    [|discriminate].
  intros Hn. injection Hn as _ Hp. subst p.
  assert (P : Wallet.percentageSpent (Wallet.getBudgetData st) = JS.nhundred).
  { revert L. simpl. rewrite JS.nmin_def, JS.nltb_nleb.
    match goal with |- context [negb (JS.nleb JS.nhundred ?x)] =>
      destruct (JS.nleb JS.nhundred x) eqn:L'; simpl end.
    - reflexivity.
    - congruence. }
  change (JS.nsub (Wallet.percentageSpent (Wallet.getBudgetData st)) JS.nhundred = JS.nzero).
  rewrite P. apply nsub_same.
Qed.

End Budget.

(* ================================================================== *)
(** * The analytics *)
(* ================================================================== *)

Section AnalyticsFacts.
Context {num : Type} {N : JS.Number num}.

Lemma total_where_filter (P Q : Wallet.Transaction num -> bool) (l : list (Wallet.Transaction num)) :
  total_where P (filter Q l) = total_where (fun t => Q t && P t) l.
Proof.
  induction l as [|t l IH]; simpl; [reflexivity|].
  destruct (Q t); simpl; rewrite IH; reflexivity.
Qed.

Lemma existsb_filter {A : Type} (P Q : A -> bool) (l : list A) :
  existsb P (filter Q l) = existsb (fun t => Q t && P t) l.
Proof.
  induction l as [|t l IH]; simpl; [reflexivity|].
  destruct (Q t); simpl; rewrite IH; reflexivity.
Qed.

Lemma getEntry_setEntry (c c' : Wallet.Category) (v : num) (acc : list (Wallet.Category * num)) :
  Wallet.getEntry c (Wallet.setEntry c' v acc)
  = if Wallet.Category_beq c c' then Some v else Wallet.getEntry c acc.
Proof.
  induction acc as [|[k w] acc IH]; simpl.
  - destruct (Wallet.Category_beq c c'); reflexivity.
  - destruct (Wallet.Category_beq c' k) eqn:E1; simpl.
    + destruct (Wallet.Category_beq c c') eqn:E2; [reflexivity|].
      destruct c, c', k; simpl in *; congruence.
    + rewrite IH. destruct (Wallet.Category_beq c k) eqn:E3; [|reflexivity].
      destruct c, c', k; simpl in *; congruence.
Qed.

Lemma keys_setEntry (c : Wallet.Category) (v : num) (acc : list (Wallet.Category * num)) :
  map fst (Wallet.setEntry c v acc)
  = if existsb (Wallet.Category_beq c) (map fst acc) then map fst acc else map fst acc ++ [c].
Proof.
  induction acc as [|[k w] acc IH]; simpl; [reflexivity|].
  destruct (Wallet.Category_beq c k) eqn:E; simpl.
  - destruct c, k; simpl in E; try discriminate; reflexivity.
  - rewrite IH. destruct (existsb (Wallet.Category_beq c) (map fst acc)); reflexivity.
Qed.

Lemma keys_setEntry_NoDup (c : Wallet.Category) (v : num) (acc : list (Wallet.Category * num)) :
  NoDup (map fst acc) -> NoDup (map fst (Wallet.setEntry c v acc)).
Proof.
  intros Hnd. rewrite keys_setEntry.
  destruct (existsb (Wallet.Category_beq c) (map fst acc)) eqn:Ex; [exact Hnd|].
  apply NoDup_rev in Hnd. rewrite <- (rev_involutive (map fst acc ++ [c])).
  apply NoDup_rev. rewrite rev_app_distr. simpl. constructor; [|exact Hnd].
  intros Hin. apply in_rev in Hin.
  assert (T : existsb (Wallet.Category_beq c) (map fst acc) = true).
  { apply existsb_exists. exists c. split; [exact Hin|]. destruct c; reflexivity. }
  congruence.
Qed.

(** The keys of the accumulator of [getCategoryDistribution] are the
    categories of the expenses it has met, whatever the numbers. *)
Lemma keys_of_reduce (c : Wallet.Category) (es : list (Wallet.Transaction num))
      (acc : list (Wallet.Category * num)) :
  In c (map fst
    (fold_left (fun acc transaction =>
                  let category := Wallet.category transaction in
                  Wallet.setEntry category
                    (JS.nadd (Wallet.orZero (Wallet.getEntry category acc))
                             (Wallet.amount transaction)) acc)
               es acc))
  <-> In c (map fst acc) \/ existsb (in_category c) es = true.
Proof.
  revert acc. induction es as [|t es IH]; intros acc.
  - cbn [fold_left existsb]. split; [intros Hin; left; exact Hin|].
    intros [Hin|F]; [exact Hin|discriminate F].
  - cbn [fold_left existsb]. cbv zeta. rewrite IH, keys_setEntry, orb_true_iff.
    assert (Hc : in_category c t = true <-> c = Wallet.category t).
    { unfold in_category. destruct (Wallet.category t), c; simpl; split;
        intros E; try reflexivity; discriminate E. }
    rewrite Hc.
    destruct (existsb (Wallet.Category_beq (Wallet.category t)) (map fst acc)) eqn:Ex.
    + apply existsb_exists in Ex. destruct Ex as [k [Hk Ek]].
      assert (k = Wallet.category t)
        by (destruct (Wallet.category t), k; simpl in Ek; congruence).
      subst k. split; [tauto|]. intros [Hin|[->|Hex]]; tauto.
    + rewrite in_app_iff. cbn [In]. split.
      * intros [[Hin|[Heq|[]]]|Hex];
          [left; exact Hin|right; left; symmetry; exact Heq|right; right; exact Hex].
      * intros [Hin|[Heq|Hex]];
          [left; left; exact Hin|left; right; left; symmetry; exact Heq|right; exact Hex].
Qed.

End AnalyticsFacts.

Section AnalyticsExact.
Context {num : Type} {N : JS.Number num} {E : JS.ExactAdd num}.

Lemma nadd_0_r (a : num) : JS.nadd a JS.nzero = a.
Proof. rewrite JS.nadd_comm. apply JS.nadd_0_l. Qed.

(** The reduction of the source, a left fold over the filtered array,
    computes the sum. *)
Lemma reduce_is_total (P : Wallet.Transaction num -> bool)
      (l : list (Wallet.Transaction num)) (i : num) :
  fold_left (fun sum t => JS.nadd sum (Wallet.amount t)) (filter P l) i
  = JS.nadd i (total_where P l).
Proof.
  revert i. induction l as [|t l IH]; intros i; simpl.
  - symmetry. apply nadd_0_r.
  - destruct (P t); simpl; rewrite IH; [|reflexivity].
    symmetry. apply JS.nadd_assoc.
Qed.

Lemma total_where_none (P : Wallet.Transaction num -> bool) (l : list (Wallet.Transaction num)) :
  existsb P l = false -> total_where P l = JS.nzero.
Proof.
  induction l as [|t l IH]; simpl; [reflexivity|].
  destruct (P t); simpl; [discriminate|exact IH].
Qed.

Lemma orZero_Some (v : num) : Wallet.orZero (Some v) = v.
Proof.
  simpl. destruct (JS.ntruthy v) eqn:T; [reflexivity|].
  symmetry. apply JS.ntruthy_zero, T.
Qed.

Lemma Category_beq_sym (c d : Wallet.Category) :
  Wallet.Category_beq c d = Wallet.Category_beq d c.
Proof. destruct c, d; reflexivity. Qed.

Lemma entry_after_reduce (c : Wallet.Category) (es : list (Wallet.Transaction num))
      (acc : list (Wallet.Category * num)) :
  Wallet.getEntry c
    (fold_left (fun acc transaction =>
                  let category := Wallet.category transaction in
                  Wallet.setEntry category
                    (JS.nadd (Wallet.orZero (Wallet.getEntry category acc))
                             (Wallet.amount transaction)) acc)
               es acc)
  = if existsb (in_category c) es
    then Some (JS.nadd (Wallet.orZero (Wallet.getEntry c acc)) (total_where (in_category c) es))
    else Wallet.getEntry c acc.
Proof.
  revert acc. induction es as [|t r IH]; intros acc; [reflexivity|].
  simpl fold_left. rewrite IH, getEntry_setEntry. clear IH.
  change (existsb (in_category c) (t :: r))
    with (in_category c t || existsb (in_category c) r).
  change (total_where (in_category c) (t :: r))
    with (if in_category c t
          then JS.nadd (Wallet.amount t) (total_where (in_category c) r)
          else total_where (in_category c) r).
  rewrite (Category_beq_sym c (Wallet.category t)).
  change (Wallet.Category_beq (Wallet.category t) c) with (in_category c t).
  destruct (in_category c t) eqn:Ec; simpl orb; [|reflexivity].
  assert (Hc : Wallet.category t = c)
    by (unfold in_category in Ec; destruct (Wallet.category t), c; simpl in Ec; congruence).
  rewrite Hc, orZero_Some.
  destruct (existsb (in_category c) r) eqn:Ex.
  - f_equal. symmetry. apply JS.nadd_assoc.
  - rewrite (total_where_none _ _ Ex), nadd_0_r. reflexivity.
Qed.

Lemma keys_after_reduce (es : list (Wallet.Transaction num))
      (acc : list (Wallet.Category * num)) :
  NoDup (map fst acc) ->
  NoDup (map fst
    (fold_left (fun acc transaction =>
                  let category := Wallet.category transaction in
                  Wallet.setEntry category
                    (JS.nadd (Wallet.orZero (Wallet.getEntry category acc))
                             (Wallet.amount transaction)) acc)
               es acc)).
Proof.
  revert acc. induction es as [|t r IH]; intros acc Hnd; [exact Hnd|].
  simpl. apply IH. apply keys_setEntry_NoDup, Hnd.
Qed.

Context {O : JS.ExactOrder num}.

Lemma nleb_refl (a : num) : JS.nleb a a = true.
Proof. destruct (JS.nleb_total a a); assumption. Qed.

Lemma nmax_bounds (a b : num) :
  (JS.nmax a b = a \/ JS.nmax a b = b)
  /\ JS.nleb a (JS.nmax a b) = true /\ JS.nleb b (JS.nmax a b) = true.
Proof.
  rewrite JS.nmax_def, JS.nltb_nleb.
  destruct (JS.nleb b a) eqn:L; simpl.
  - split; [left; reflexivity|]. split; [apply nleb_refl|exact L].
  - split; [right; reflexivity|]. split; [|apply nleb_refl].
    destruct (JS.nleb_total a b) as [T|T]; [exact T|congruence].
Qed.

Lemma Math_max_is_largest (a : num) (others : list num) :
  is_largest (Wallet.Math_max a others) (a :: others).
Proof.
  unfold Wallet.Math_max. revert a.
  induction others as [|b l IH]; intros a.
  - split; [left; reflexivity|]. intros x [<-|[]]. apply nleb_refl.
  - simpl fold_left. destruct (IH (JS.nmax a b)) as [Hin Hle].
    destruct (nmax_bounds a b) as [Hc [La Lb]].
    split.
    + destruct Hin as [Hin|Hin].
      * rewrite <- Hin. destruct Hc as [-> | ->]; [left|right; left]; reflexivity.
      * right; right; exact Hin.
    + intros x [<-|[<-|Hx]].
      * apply (JS.nleb_trans _ _ _ La). apply Hle. left; reflexivity.
      * apply (JS.nleb_trans _ _ _ Lb). apply Hle. left; reflexivity.
      * apply Hle. right; exact Hx.
Qed.

End AnalyticsExact.

(** In exact arithmetic [getAnalyticsData] returns, as total income and
    total expenses, the sums of the amounts of the income and of the
    expense transactions, as net savings their difference, and as largest
    expense the largest amount of an expense, 0 when there is none; and
    the distribution has, for each category with an expense, one slice,
    whose value is the sum of the amounts of the expenses of that category,
    and no slice for the other categories. *)
Lemma analytics_exact
  (num : Type) (N : JS.Number num) (E : JS.ExactAdd num) (O : JS.ExactOrder num)
  (st : Wallet.State num) :
  Wallet.totalIncome (Wallet.getAnalyticsData st)
  = total_where is_income (Wallet.transactions st)
  /\ Wallet.totalExpenses (Wallet.getAnalyticsData st)
     = total_where is_expense (Wallet.transactions st)
  /\ Wallet.netSavings (Wallet.getAnalyticsData st)
     = JS.nsub (total_where is_income (Wallet.transactions st))
               (total_where is_expense (Wallet.transactions st))
  /\ (filter is_expense (Wallet.transactions st) = [] ->
      Wallet.largestExpense (Wallet.getAnalyticsData st) = JS.nzero)
  /\ (filter is_expense (Wallet.transactions st) <> [] ->
      is_largest (Wallet.largestExpense (Wallet.getAnalyticsData st))
                 (map Wallet.amount (filter is_expense (Wallet.transactions st))))
  /\ (forall c,
      Wallet.getEntry c (Wallet.expensesByCategory st)
      = if existsb (is_expense_of c) (Wallet.transactions st)
        then Some (total_where (is_expense_of c) (Wallet.transactions st))
        else None)
  /\ NoDup (map fst (Wallet.expensesByCategory st))
  /\ Wallet.getCategoryDistribution st
     = map (fun cv => slice (fst cv) (snd cv)) (Wallet.expensesByCategory st).
Proof.
  assert (TI : Wallet.totalIncome (Wallet.getAnalyticsData st)
               = total_where is_income (Wallet.transactions st)).
  { simpl. fold (@is_income num). rewrite reduce_is_total. apply JS.nadd_0_l. }
  assert (TE : Wallet.totalExpenses (Wallet.getAnalyticsData st)
               = total_where is_expense (Wallet.transactions st)).
  { simpl. fold (@is_expense num). rewrite reduce_is_total. apply JS.nadd_0_l. }
  split; [exact TI|]. split; [exact TE|].
  split; [change (Wallet.netSavings (Wallet.getAnalyticsData st))
            with (JS.nsub (Wallet.totalIncome (Wallet.getAnalyticsData st))
                          (Wallet.totalExpenses (Wallet.getAnalyticsData st)));
          rewrite TI, TE; reflexivity|].
  split; [|split].
  - intros Hnone. simpl. fold (@is_expense num). rewrite Hnone. reflexivity.
  - intros Hsome. simpl. fold (@is_expense num).
    destruct (filter is_expense (Wallet.transactions st)) as [|t r]; [congruence|].
    simpl map. apply Math_max_is_largest.
  - split; [|split].
    + intros c. unfold Wallet.expensesByCategory. rewrite entry_after_reduce.
      fold (@is_expense num). simpl Wallet.getEntry. simpl Wallet.orZero.
      rewrite total_where_filter, JS.nadd_0_l.
      rewrite existsb_filter. reflexivity.
    + unfold Wallet.expensesByCategory. apply keys_after_reduce. constructor.
    + unfold Wallet.getCategoryDistribution. apply map_ext. intros [c v]. reflexivity.
Qed.


(** *** On the numbers of the host *)

Lemma float_max_finite (a b : float) (A B : Z) :
  ulps a = Some A -> ulps b = Some B ->
  (JS.float_max a b = a \/ JS.float_max a b = b)
  /\ ulps (JS.float_max a b) = Some (Z.max A B).
Proof.
  intros Ha Hb. unfold JS.float_max.
  rewrite (finite_not_nan a A Ha), (finite_not_nan b B Hb). cbn [orb].
  rewrite (ltb_ulps a b A B Ha Hb), (ltb_ulps b a B A Hb Ha).
  destruct (Z.ltb_spec A B) as [L|L].
  - split; [right; reflexivity|]. rewrite Hb. f_equal. lia.
  - destruct (Z.ltb_spec B A) as [L'|L'].
    + split; [left; reflexivity|]. rewrite Ha. f_equal. lia.
    + assert (A = B) by lia. subst B.
      destruct (PrimFloat.classify a);
        (split; [(left; reflexivity) || (right; reflexivity)|]);
        rewrite ?Ha, ?Hb; f_equal; lia.
Qed.

Lemma Math_max_finite (others : list float) (a : float) :
  Forall (fun x => ulps x <> None) (a :: others) ->
  is_largest (Wallet.Math_max a others) (a :: others)
  /\ ulps (Wallet.Math_max a others) <> None.
Proof.
  unfold Wallet.Math_max, is_largest. revert a.
  induction others as [|b l IH]; intros a Hf.
  - inversion Hf as [|? ? Ha _]; subst. cbn [fold_left].
    split; [|exact Ha]. split; [left; reflexivity|].
    intros x [<-|[]]. destruct (ulps a) as [A|] eqn:EA; [|congruence].
    change (PrimFloat.leb a a = true). rewrite (leb_ulps a a A A EA EA). apply Z.leb_refl.
  - inversion Hf as [|? ? Ha Hf']; subst. inversion Hf' as [|? ? Hb Hl]; subst.
    destruct (ulps a) as [A|] eqn:EA; [|congruence].
    destruct (ulps b) as [B|] eqn:EB; [|congruence].
    destruct (float_max_finite a b A B EA EB) as [Hc HM].
    cbn [fold_left]. change (JS.nmax a b) with (JS.float_max a b).
    destruct (IH (JS.float_max a b)) as [[Hin Hle] Hfin].
    { constructor; [rewrite HM; discriminate|exact Hl]. }
    split; [|exact Hfin]. split.
    + destruct Hin as [Hin|Hin].
      * rewrite <- Hin. destruct Hc as [-> | ->]; [left|right; left]; reflexivity.
      * right; right; exact Hin.
    + destruct (ulps (fold_left JS.nmax l (JS.float_max a b))) as [R|] eqn:ER; [|congruence].
      assert (HR : Z.max A B <= R).
      { specialize (Hle (JS.float_max a b) (or_introl eq_refl)).
        change (PrimFloat.leb (JS.float_max a b) (fold_left JS.nmax l (JS.float_max a b)) = true)
          in Hle.
        rewrite (leb_ulps _ _ _ _ HM ER) in Hle. apply Z.leb_le, Hle. }
      intros x [<-|[<-|Hx]].
      * change (PrimFloat.leb a (fold_left JS.nmax l (JS.float_max a b)) = true).
        rewrite (leb_ulps _ _ _ _ EA ER). apply Z.leb_le. lia.
      * change (PrimFloat.leb b (fold_left JS.nmax l (JS.float_max a b)) = true).
        rewrite (leb_ulps _ _ _ _ EB ER). apply Z.leb_le. lia.
      * apply Hle. right; exact Hx.
Qed.

Lemma orZero_exact (o : option float) (A : Z) :
  match o with Some v => ulps v = Some A | None => A = 0 end ->
  ulps (Wallet.orZero o) = Some A.
Proof.
  destruct o as [v|]; cbn [Wallet.orZero]; [|intros ->; reflexivity].
  intros Hv. change (JS.ntruthy v) with (negb (PrimFloat.eqb v PrimFloat.zero || PrimFloat.is_nan v)).
  rewrite (finite_not_nan v A Hv), orb_false_r.
  rewrite (eqb_ulps v PrimFloat.zero A 0 Hv eq_refl).
  destruct (Z.eqb_spec A 0) as [->|]; cbn [negb]; [reflexivity|exact Hv].
Qed.

Lemma no_such_category (c : Wallet.Category) (es : list (Wallet.Transaction float)) :
  existsb (in_category c) es = false -> filter (in_category c) es = [].
Proof.
  induction es as [|t es IH]; [reflexivity|]. cbn [existsb filter].
  destruct (in_category c t); [discriminate|exact IH].
Qed.

Lemma entry_exact (c : Wallet.Category) (es : list (Wallet.Transaction float))
      (acc : list (Wallet.Category * float)) (A : Z) :
  finite_amounts es ->
  match Wallet.getEntry c acc with Some v => ulps v = Some A | None => A = 0 end ->
  Forall representable (running_sums A (map exact_amount (filter (in_category c) es))) ->
  option_map ulps
    (Wallet.getEntry c
       (fold_left (fun acc transaction =>
                     let category := Wallet.category transaction in
                     Wallet.setEntry category
                       (JS.nadd (Wallet.orZero (Wallet.getEntry category acc))
                                (Wallet.amount transaction)) acc)
                  es acc))
  = if existsb (in_category c) es
    then Some (Some (A + Zsum (map exact_amount (filter (in_category c) es))))
    else option_map ulps (Wallet.getEntry c acc).
Proof.
  revert acc A. induction es as [|t es IH]; intros acc A Hf Hacc Hr; [reflexivity|].
  inversion Hf as [|? ? Ht Hes]; subst.
  cbn [fold_left existsb filter] in *. cbv zeta.
  destruct (in_category c t) eqn:Ec.
  - cbn [map running_sums] in Hr. inversion Hr as [|? ? Hr1 Hr2]; subst.
    assert (Hc : Wallet.category t = c)
      by (unfold in_category in Ec; destruct (Wallet.category t), c; simpl in Ec; congruence).
    subst c.
    destruct (add_exact _ _ _ _ (orZero_exact _ A Hacc) (exact_amount_finite t Ht) Hr1)
      as [U _].
    assert (G : Wallet.getEntry (Wallet.category t)
                  (Wallet.setEntry (Wallet.category t)
                     (JS.nadd (Wallet.orZero (Wallet.getEntry (Wallet.category t) acc))
                              (Wallet.amount t)) acc)
                = Some (JS.nadd (Wallet.orZero (Wallet.getEntry (Wallet.category t) acc))
                                (Wallet.amount t))).
    { rewrite getEntry_setEntry.
      destruct (Wallet.category t); reflexivity. }
    rewrite (IH _ (A + exact_amount t) Hes); [|rewrite G; exact U|exact Hr2].
    cbn [orb map Zsum fold_right].
    fold (Zsum (map exact_amount (filter (in_category (Wallet.category t)) es))).
    destruct (existsb (in_category (Wallet.category t)) es) eqn:Ex.
    + f_equal. f_equal. lia.
    + rewrite (no_such_category _ _ Ex), G.
      cbn [option_map map Zsum fold_right].
      change (ulps (JS.nadd (Wallet.orZero (Wallet.getEntry (Wallet.category t) acc))
                            (Wallet.amount t)))
        with (ulps (Wallet.orZero (Wallet.getEntry (Wallet.category t) acc)
                    + Wallet.amount t)%float).
      rewrite U. f_equal. f_equal. lia.
  - cbn [orb].
    assert (G : Wallet.getEntry c
                  (Wallet.setEntry (Wallet.category t)
                     (JS.nadd (Wallet.orZero (Wallet.getEntry (Wallet.category t) acc))
                              (Wallet.amount t)) acc)
                = Wallet.getEntry c acc).
    { rewrite getEntry_setEntry, Category_beq_sym.
      change (Wallet.Category_beq (Wallet.category t) c) with (in_category c t).
      rewrite Ec. reflexivity. }
    rewrite (IH _ A Hes); [|rewrite G; exact Hacc|exact Hr].
    rewrite G. reflexivity.
Qed.

Lemma expense_of_filter (c : Wallet.Category) (l : list (Wallet.Transaction float)) :
  filter (in_category c) (filter is_expense l) = filter (is_expense_of c) l.
Proof.
  induction l as [|t l IH]; [reflexivity|]. cbn [filter]. unfold is_expense_of.
  destruct (is_expense t); cbn [filter andb]; rewrite IH; reflexivity.
Qed.

(** On the numbers of the host the largest expense is the largest amount
    of an expense, no amount being NaN or an infinity. *)
Lemma largest_expense_finite (st : Wallet.State float) :
  finite_amounts (Wallet.transactions st) ->
  filter is_expense (Wallet.transactions st) <> [] ->
  is_largest (Wallet.largestExpense (Wallet.getAnalyticsData st))
             (map Wallet.amount (filter is_expense (Wallet.transactions st))).
Proof.
  intros Hf Hsome. cbn [Wallet.getAnalyticsData Wallet.largestExpense].
  fold (@is_expense float).
  pose proof (finite_filter is_expense _ Hf) as Hfe.
  destruct (filter is_expense (Wallet.transactions st)) as [|t r]; [congruence|].
  cbn [map]. apply Math_max_finite.
  unfold finite_amounts in Hfe. rewrite Forall_forall in Hfe.
  apply Forall_forall. intros x Hx.
  change (In x (map Wallet.amount (t :: r))) in Hx.
  apply in_map_iff in Hx. destruct Hx as [u [<- Hu]]. apply Hfe, Hu.
Qed.

(** On the numbers of the host, while no sum is rounded, the figures of
    the analytics are the exact sums. *)
Lemma analytics_unrounded (st : Wallet.State float) :
  analytics_need_no_rounding st ->
  ulps (Wallet.totalIncome (Wallet.getAnalyticsData st))
  = Some (exact_total is_income (Wallet.transactions st))
  /\ ulps (Wallet.totalExpenses (Wallet.getAnalyticsData st))
     = Some (exact_total is_expense (Wallet.transactions st))
  /\ ulps (Wallet.netSavings (Wallet.getAnalyticsData st))
     = Some (exact_total is_income (Wallet.transactions st)
             - exact_total is_expense (Wallet.transactions st))
  /\ (forall c,
      option_map ulps (Wallet.getEntry c (Wallet.expensesByCategory st))
      = if existsb (is_expense_of c) (Wallet.transactions st)
        then Some (Some (exact_total (is_expense_of c) (Wallet.transactions st)))
        else None).
Proof.
  intros [Hf [Hi [He [R Hc]]]].
  destruct (reduce_exact (filter is_income (Wallet.transactions st)) PrimFloat.zero 0 eq_refl
              zero_is_not_negative_zero (finite_filter _ _ Hf) Hi) as [UI _].
  destruct (reduce_exact (filter is_expense (Wallet.transactions st)) PrimFloat.zero 0 eq_refl
              zero_is_not_negative_zero (finite_filter _ _ Hf) He) as [UE _].
  rewrite Z.add_0_l in UI, UE.
  split; [exact UI|]. split; [exact UE|]. split.
  - apply (sub_exact _ _ _ _ UI UE R).
  - intros c. unfold Wallet.expensesByCategory. fold (@is_expense float).
    rewrite (entry_exact c _ [] 0 (finite_filter _ _ Hf) eq_refl).
    + rewrite existsb_filter, expense_of_filter. reflexivity.
    + rewrite expense_of_filter. apply Hc.
Qed.

Lemma whole_amounts_analytics (st : Wallet.State float) :
  whole_amounts (Wallet.transactions st) ->
  Zsum (map exact_amount (Wallet.transactions st)) < 2 ^ 53 * 2 ^ 1074 ->
  analytics_need_no_rounding st.
Proof.
  intros Hw Hb. destruct (whole_amounts_need_no_rounding st Hw Hb) as [Hf [Hs [Hi He]]].
  pose proof (whole_amounts_exact _ Hw) as Hx.
  split; [exact Hf|]. split; [exact Hi|]. split; [exact He|]. split.
  - unfold exact_total. rewrite <- signed_total.
    apply (running_sums_last representable _ 0 representable_zero Hs).
  - intros c. destruct (filtered_total (is_expense_of c) _ Hx) as [M T].
    apply whole_sums; [exists 0; reflexivity|exact M|]. simpl Z.abs. lia.
Qed.

(** C7, as stated, fails on the numbers of the host: the total income of
    three incomes of 0.1, 0.2 and 0.3 depends on their order, which the
    sum of three amounts does not, and is not the sum that the three
    amounts have. *)
Lemma totals_depend_on_order :
  Wallet.totalIncome (Wallet.getAnalyticsData (@three_incomes float JS.binary64 1 2 3))
  = 0x1.3333333333334p-1%float
  /\ Wallet.totalIncome (Wallet.getAnalyticsData (@three_incomes float JS.binary64 3 2 1))
     = 0x1.3333333333333p-1%float
  /\ PrimFloat.eqb
       (Wallet.totalIncome (Wallet.getAnalyticsData (@three_incomes float JS.binary64 1 2 3)))
       (Wallet.totalIncome (Wallet.getAnalyticsData (@three_incomes float JS.binary64 3 2 1)))
     = false
  /\ exact_total is_income (Wallet.transactions (@three_incomes float JS.binary64 1 2 3))
     = exact_total is_income (Wallet.transactions (@three_incomes float JS.binary64 3 2 1))
  /\ ulps (Wallet.totalIncome (Wallet.getAnalyticsData (@three_incomes float JS.binary64 1 2 3)))
     <> Some (exact_total is_income
                (Wallet.transactions (@three_incomes float JS.binary64 1 2 3))).
Proof.
  split; [vm_compute; reflexivity|]. split; [vm_compute; reflexivity|].
  split; [vm_compute; reflexivity|]. split; [vm_compute; reflexivity|].
  vm_compute. intros F. discriminate F.
Qed.

(** C7, amended.  In exact arithmetic the figures are as the claim says:
    the totals and the value of each slice are the sums of the amounts, the
    net savings their difference, the largest expense the largest amount
    of an expense.  On the numbers of the host, while none of the sums
    that the folds pass through needs rounding, the totals, the net
    savings and the value of each slice are the exact sums as well; whole
    amounts whose total is below 2^53 are such a case.  While no amount is
    NaN or an infinity, the largest expense is the largest amount of an
    expense.  Whatever the numbers, the net savings are total income minus
    total expenses as the host subtracts them, the largest expense is 0
    when there is no expense, and the distribution has one slice for each
    category with an expense and none for the others. *)
Theorem analytics_are_sums :
  (forall (num : Type) (N : JS.Number num) (E : JS.ExactAdd num) (O : JS.ExactOrder num)
          (st : Wallet.State num),
     Wallet.totalIncome (Wallet.getAnalyticsData st)
     = total_where is_income (Wallet.transactions st)
     /\ Wallet.totalExpenses (Wallet.getAnalyticsData st)
        = total_where is_expense (Wallet.transactions st)
     /\ Wallet.netSavings (Wallet.getAnalyticsData st)
        = JS.nsub (total_where is_income (Wallet.transactions st))
                  (total_where is_expense (Wallet.transactions st))
     /\ (filter is_expense (Wallet.transactions st) <> [] ->
         is_largest (Wallet.largestExpense (Wallet.getAnalyticsData st))
                    (map Wallet.amount (filter is_expense (Wallet.transactions st))))
     /\ (forall c,
         Wallet.getEntry c (Wallet.expensesByCategory st)
         = if existsb (is_expense_of c) (Wallet.transactions st)
           then Some (total_where (is_expense_of c) (Wallet.transactions st))
           else None))
  /\ (forall st : Wallet.State float,
      analytics_need_no_rounding st ->
      ulps (Wallet.totalIncome (Wallet.getAnalyticsData st))
      = Some (exact_total is_income (Wallet.transactions st))
      /\ ulps (Wallet.totalExpenses (Wallet.getAnalyticsData st))
         = Some (exact_total is_expense (Wallet.transactions st))
      /\ ulps (Wallet.netSavings (Wallet.getAnalyticsData st))
         = Some (exact_total is_income (Wallet.transactions st)
                 - exact_total is_expense (Wallet.transactions st))
      /\ (forall c,
          option_map ulps (Wallet.getEntry c (Wallet.expensesByCategory st))
          = if existsb (is_expense_of c) (Wallet.transactions st)
            then Some (Some (exact_total (is_expense_of c) (Wallet.transactions st)))
            else None))
  /\ (forall st : Wallet.State float,
      whole_amounts (Wallet.transactions st) ->
      Zsum (map exact_amount (Wallet.transactions st)) < 2 ^ 53 * 2 ^ 1074 ->
      analytics_need_no_rounding st)
  /\ (forall st : Wallet.State float,
      finite_amounts (Wallet.transactions st) ->
      filter is_expense (Wallet.transactions st) <> [] ->
      is_largest (Wallet.largestExpense (Wallet.getAnalyticsData st))
                 (map Wallet.amount (filter is_expense (Wallet.transactions st))))
  /\ (forall (num : Type) (N : JS.Number num) (st : Wallet.State num),
      Wallet.netSavings (Wallet.getAnalyticsData st)
      = JS.nsub (Wallet.totalIncome (Wallet.getAnalyticsData st))
                (Wallet.totalExpenses (Wallet.getAnalyticsData st))
      /\ (filter is_expense (Wallet.transactions st) = [] ->
          Wallet.largestExpense (Wallet.getAnalyticsData st) = JS.nzero)
      /\ NoDup (map fst (Wallet.expensesByCategory st))
      /\ (forall c,
          In c (map fst (Wallet.expensesByCategory st))
          <-> existsb (is_expense_of c) (Wallet.transactions st) = true)
      /\ Wallet.getCategoryDistribution st
         = map (fun cv => slice (fst cv) (snd cv)) (Wallet.expensesByCategory st)).
Proof.
  split; [|split; [|split; [|split]]].
  - intros num N E O st.
    destruct (analytics_exact num N E O st) as [TI [TE [NS [_ [LE [DI _]]]]]].
    split; [exact TI|]. split; [exact TE|]. split; [exact NS|]. split; [exact LE|exact DI].
  - exact analytics_unrounded.
  - exact whole_amounts_analytics.
  - exact largest_expense_finite.
  - intros num N st. split; [reflexivity|]. split; [|split; [|split]].
    + intros Hnone. simpl. fold (@is_expense num). rewrite Hnone. reflexivity.
    + unfold Wallet.expensesByCategory. apply keys_after_reduce. constructor.
    + intros c. unfold Wallet.expensesByCategory. rewrite keys_of_reduce.
      fold (@is_expense num). rewrite existsb_filter. cbn [map In].
      split; [intros [[]|Hex]; exact Hex|intros Hex; right; exact Hex].
    + unfold Wallet.getCategoryDistribution. apply map_ext. intros [c v]. reflexivity.
Qed.

(** The example of C7 on the numbers of the host. *)
Lemma analytics_of_salary_and_purchases :
  Wallet.netSavings (Wallet.getAnalyticsData (@salary_and_purchases float JS.binary64))
  = 750%float
  /\ Wallet.largestExpense (Wallet.getAnalyticsData (@salary_and_purchases float JS.binary64))
     = 200%float
  /\ map (fun s => (Wallet.name s, Wallet.value s))
         (Wallet.getCategoryDistribution (@salary_and_purchases float JS.binary64))
     = [(Wallet.Shopping, 200%float); (Wallet.Work, 50%float)].
Proof. repeat split; vm_compute; reflexivity. Qed.

Lemma analytics_are_sums_witness :
  (ulps (Wallet.netSavings (Wallet.getAnalyticsData (@salary_and_purchases float JS.binary64)))
   = Some (750 * 2 ^ 1074)
   /\ option_map ulps
        (Wallet.getEntry Wallet.Shopping
           (Wallet.expensesByCategory (@salary_and_purchases float JS.binary64)))
      = Some (Some (200 * 2 ^ 1074))
   /\ is_largest
        (Wallet.largestExpense (Wallet.getAnalyticsData (@salary_and_purchases float JS.binary64)))
        [200%float; 50%float])
  /\ Wallet.getEntry Wallet.Shopping
       (Wallet.expensesByCategory (@salary_and_purchases Qcanon.Qc JS.exact))
     = Some (total_where (is_expense_of Wallet.Shopping)
               (Wallet.transactions (@salary_and_purchases Qcanon.Qc JS.exact))).
Proof.
  destruct analytics_are_sums as [E [U [W [L _]]]].
  split.
  - assert (R : analytics_need_no_rounding (@salary_and_purchases float JS.binary64)).
    { apply W.
      - repeat constructor.
        + exists 1000. split; [lia|vm_compute; reflexivity].
        + exists 200. split; [lia|vm_compute; reflexivity].
        + exists 50. split; [lia|vm_compute; reflexivity].
      - vm_compute. reflexivity. }
    destruct (U _ R) as [_ [_ [NS DI]]].
    split; [rewrite NS; vm_compute; reflexivity|].
    split; [rewrite (DI Wallet.Shopping); vm_compute; reflexivity|].
    apply (L _ (proj1 R)). discriminate.
  - destruct (E Qcanon.Qc JS.exact exact_add exact_order salary_and_purchases)
      as [_ [_ [_ [_ Hd]]]].
    exact (Hd Wallet.Shopping).
Defined.

(* ================================================================== *)
(** * Import and export *)
(* ================================================================== *)

Section ImportFacts.
Context {num : Type}.

Lemma hasTaskKeys_object (m : list (JS.jsstring * JS.json num)) :
  Todo.hasTaskKeys (JS.JObject m)
  = if JS.hasKey (JS.lit "hasOwnProperty") m then JS.Throw
    else JS.Ok (hasRequiredKeys (JS.JObject m)).
Proof.
  unfold Todo.hasTaskKeys, hasRequiredKeys, requiredKeys. simpl JS.hasOwnProperty.
  destruct (JS.hasKey (JS.lit "hasOwnProperty") m); [reflexivity|].
  simpl forallb. unfold owns.
  destruct (JS.hasKey (JS.lit "id") m), (JS.hasKey (JS.lit "text") m),
    (JS.hasKey (JS.lit "completed") m), (JS.hasKey (JS.lit "category") m),
    (JS.hasKey (JS.lit "priority") m); reflexivity.
Qed.

(** What the callback of [every] answers for each kind of element. *)
Lemma hasTaskKeys_cases (v : JS.json num) :
  Todo.hasTaskKeys v
  = if hasRequiredKeys v
    then (if unshadowed v then JS.Ok true else JS.Throw)
    else match v with
         | JS.JNull => JS.Throw
         | JS.JObject _ => if unshadowed v then JS.Ok false else JS.Throw
         | _ => JS.Ok false
         end.
Proof.
  destruct v as [| b | n | s | l | m]; try reflexivity.
  rewrite hasTaskKeys_object. unfold unshadowed, owns.
  destruct (JS.hasKey (JS.lit "hasOwnProperty") m); simpl;
    destruct (hasRequiredKeys (JS.JObject m)); reflexivity.
Qed.

Lemma every_hasTaskKeys (l : list (JS.json num)) :
  (forallb hasRequiredKeys l = true ->
   JS.every Todo.hasTaskKeys l = if forallb unshadowed l then JS.Ok true else JS.Throw)
  /\ (forallb hasRequiredKeys l = false -> JS.every Todo.hasTaskKeys l <> JS.Ok true).
Proof.
  induction l as [|v l [IH1 IH2]]; simpl.
  - split; [reflexivity|discriminate].
  - rewrite hasTaskKeys_cases. split.
    + intros Hk. apply andb_true_iff in Hk. destruct Hk as [Hv Hl].
      rewrite Hv. destruct (unshadowed v); simpl; [exact (IH1 Hl)|reflexivity].
    + intros Hk. destruct (hasRequiredKeys v) eqn:Hv.
      * simpl in Hk. destruct (unshadowed v); simpl; [exact (IH2 Hk)|discriminate].
      * destruct v; simpl; try discriminate.
        destruct (unshadowed _); simpl; discriminate.
Qed.

End ImportFacts.

(** What the import does with a file, by the defect the file has, if any.
    A file that is not JSON, has no [tasks] array, or has a task without
    one of the five keys is rejected: an alert other than the one of
    success is shown and the page state, the collection with it, is left as
    it was.  A file with none of these defects replaces the collection by
    its [tasks] array and clears the selection, unless one of its tasks has
    an own property named [hasOwnProperty]: then the check itself throws,
    and the file is rejected like one that cannot be read. *)
Lemma import_rejects_or_replaces
  (num : Type) (H : JS.Host num) (fileText : JS.jsstring) (st : Todo.State (JS.json num)) :
  match verdict fileText with
  | NotJson => Todo.reader_onload fileText st = (st, Todo.ErrorReadingFile)
  | NoTasksArray =>
      fst (Todo.reader_onload fileText st) = st
      /\ (snd (Todo.reader_onload fileText st) = Todo.ExpectedTasksArray
          \/ snd (Todo.reader_onload fileText st) = Todo.ErrorReadingFile)
  | TaskWithoutKey =>
      fst (Todo.reader_onload fileText st) = st
      /\ (snd (Todo.reader_onload fileText st) = Todo.InvalidTaskData
          \/ snd (Todo.reader_onload fileText st) = Todo.ErrorReadingFile)
  | WellFormed l =>
      Todo.reader_onload fileText st
      = if forallb unshadowed l
        then (Todo.setSelectedTaskId None (Todo.setTasks l st), Todo.ImportedSuccessfully)
        else (st, Todo.ErrorReadingFile)
  end.
Proof.
  unfold verdict, Todo.reader_onload, Todo.onload_try.
  destruct (JS.JSON_parse fileText) as [data|]; simpl; [|reflexivity].
  destruct data as [| b | n | s | l | m]; simpl; auto.
  destruct (JS.lookup (JS.lit "tasks") m) as [[| b | n | s | l | m']|]; simpl; auto.
  destruct (every_hasTaskKeys l) as [Hall Hsome].
  destruct (forallb hasRequiredKeys l).
  - rewrite (Hall eq_refl). destruct (forallb unshadowed l); reflexivity.
  - specialize (Hsome eq_refl).
    destruct (JS.every Todo.hasTaskKeys l) as [[|]|]; simpl; auto. congruence.
Qed.

(** C4.  The check of the import rejects files that have every key the
    claim asks for.  [shadowing_file] is JSON, has a [tasks] array, and its
    task has the five keys, yet the import is rejected, the collection
    left as it was, under the alert of a file that cannot be read: the
    task has an own property named [hasOwnProperty], which the check calls
    as if it were the inherited method, and the call throws inside [try].
    So it is for every file without defect one task of which has such a
    property, on every host. *)
Theorem shadowing_file_rejected :
  ((exists t, verdict (doubleQuoted shadowing_file) = WellFormed [t])
   /\ Todo.reader_onload (doubleQuoted shadowing_file) (Todo.asObjects pair_of_tasks)
      = (Todo.asObjects pair_of_tasks, Todo.ErrorReadingFile))
  /\ (forall (num : Type) (H : JS.Host num) (fileText : JS.jsstring)
             (st : Todo.State (JS.json num)) (l : list (JS.json num)),
      verdict fileText = WellFormed l ->
      forallb unshadowed l = false ->
      Todo.reader_onload fileText st = (st, Todo.ErrorReadingFile)).
Proof.
  split.
  - split.
    + eexists. vm_compute. reflexivity.
    + vm_compute. reflexivity.
  - intros num H fileText st l Hv Hs.
    pose proof (import_rejects_or_replaces num H fileText st) as R.
    rewrite Hv, Hs in R. exact R.
Qed.

Lemma taskObject_accepted {num : Type} {N : JS.Number num} (l : list Todo.Task) :
  forallb hasRequiredKeys (map (@Todo.taskObject num N) l) = true
  /\ forallb unshadowed (map (@Todo.taskObject num N) l) = true.
Proof.
  induction l as [|t l [IH1 IH2]]; simpl; [split; reflexivity|].
  rewrite IH1, IH2. split; reflexivity.
Qed.

Lemma saveTasksToFile_content {num : Type} {H : JS.Host num}
      (iso1 iso2 : JS.jsstring) (st : Todo.State (JS.json num)) :
  Todo.content (Todo.saveTasksToFile iso1 iso2 st)
  = JS.JSON_stringify (exportDocument iso1 (Todo.tasks st)).
Proof. reflexivity. Qed.

(** C5.  On a host whose JSON reader gives back the document its writer
    was given, importing the file that [saveTasksToFile] produces from the
    tasks [S] makes the collection [S] again, the same objects in the same
    order, whatever the collection was before; the selection is cleared.
    The export wraps the tasks as [{tasks, exportDate, version: '1.0'}]
    and the import takes the [tasks] array of it. *)
Theorem import_of_export
  (num : Type) (N : JS.Number num) (H : JS.Host num)
  (S : Todo.State Todo.Task) (iso1 iso2 : JS.jsstring) (prior : Todo.State (JS.json num)) :
  JS.JSON_parse (JS.JSON_stringify (exportDocument iso1 (map Todo.taskObject (Todo.tasks S))))
  = JS.Ok (exportDocument iso1 (map Todo.taskObject (Todo.tasks S))) ->
  Todo.content (Todo.saveTasksToFile iso1 iso2 (Todo.asObjects S))
  = JS.JSON_stringify (exportDocument iso1 (Todo.tasks (Todo.asObjects S)))
  /\ Todo.handleFileImport
       (Some (Todo.content (Todo.saveTasksToFile iso1 iso2 (Todo.asObjects S)))) prior
     = (Todo.setSelectedTaskId None (Todo.setTasks (Todo.tasks (Todo.asObjects S)) prior),
        Some Todo.ImportedSuccessfully)
  /\ Todo.tasks (fst (Todo.handleFileImport
       (Some (Todo.content (Todo.saveTasksToFile iso1 iso2 (Todo.asObjects S)))) prior))
     = Todo.tasks (Todo.asObjects S).
Proof.
  intros Hhost. split; [reflexivity|].
  assert (R : Todo.reader_onload
                (Todo.content (Todo.saveTasksToFile iso1 iso2 (Todo.asObjects S))) prior
              = (Todo.setSelectedTaskId None
                   (Todo.setTasks (Todo.tasks (Todo.asObjects S)) prior),
                 Todo.ImportedSuccessfully)).
  { unfold Todo.reader_onload, Todo.onload_try.
    rewrite saveTasksToFile_content.
    change (Todo.tasks (Todo.asObjects S)) with (map Todo.taskObject (Todo.tasks S)).
    rewrite Hhost. simpl JS.bind.
    destruct (taskObject_accepted (num:=num) (Todo.tasks S)) as [K U].
    rewrite (proj1 (every_hasTaskKeys _) K), U. reflexivity. }
  unfold Todo.handleFileImport. rewrite R. split; reflexivity.
Qed.

Lemma import_of_export_witness :
  Todo.tasks (fst (Todo.handleFileImport
    (Some (Todo.content
       (Todo.saveTasksToFile (JS.lit "2025-01-01T10:00:02.000Z") (JS.lit "2025-01-01T10:00:02.001Z")
          (Todo.asObjects pair_of_tasks))))
    (Todo.asObjects twins)))
  = Todo.tasks (Todo.asObjects pair_of_tasks).
Proof.
  refine (proj2 (proj2 (import_of_export Qcanon.Qc JS.exact Reference.host pair_of_tasks
                          (JS.lit "2025-01-01T10:00:02.000Z") (JS.lit "2025-01-01T10:00:02.001Z")
                          (Todo.asObjects twins) _))).
  vm_compute. reflexivity.
Defined.

Lemma additions_counted_witness :
  (length (Todo.tasks (enter_tasks three_entries Todo.initial)) = 0 + 2)%nat
  /\ NoDup (map Todo.id (Todo.tasks (enter_tasks three_entries Todo.initial))).
Proof.
  destruct additions_counted_ids_from_clock as [HT _].
  destruct (HT three_entries Todo.initial) as [_ [HL [_ HN]]].
  split; [exact HL|].
  apply HN. simpl.
  constructor; [simpl; intros [F|[]]; discriminate F|].
  constructor; [simpl; tauto|constructor].
Defined.

(** The example of the spec: Buy milk (High) then Pay rent (Critical),
    sorted by priority, is Pay rent then Buy milk. *)
Lemma sort_of_three_entries :
  map Todo.text
      (Todo.tasks (Todo.sortTasksByPriority (enter_tasks three_entries Todo.initial)))
  = [JS.lit "Pay rent"; JS.lit "Buy milk"].
Proof. reflexivity. Qed.

(* ================================================================== *)
(** * The statistics of the todo page *)
(* ================================================================== *)

Lemma count_by_category (l : list Todo.Task) :
  Z.of_nat (length l)
  = Todo.countWhere (fun t => Todo.Category_beq (Todo.category t) Todo.Work) l
    + (Todo.countWhere (fun t => Todo.Category_beq (Todo.category t) Todo.Personal) l
    + (Todo.countWhere (fun t => Todo.Category_beq (Todo.category t) Todo.Shopping) l
    + (Todo.countWhere (fun t => Todo.Category_beq (Todo.category t) Todo.Others) l
    + (Todo.countWhere (fun t => Todo.Category_beq (Todo.category t) Todo.Home) l + 0)))).
Proof.
  unfold Todo.countWhere. induction l as [|t l IH]; [reflexivity|].
  cbn [filter length]. destruct (Todo.category t); cbn [Todo.Category_beq length]; lia.
Qed.

Lemma count_by_priority (l : list Todo.Task) :
  Z.of_nat (length l)
  = Todo.countWhere (fun t => Todo.Priority_beq (Todo.priority t) Todo.Critical) l
    + (Todo.countWhere (fun t => Todo.Priority_beq (Todo.priority t) Todo.High) l
    + (Todo.countWhere (fun t => Todo.Priority_beq (Todo.priority t) Todo.Medium) l
    + (Todo.countWhere (fun t => Todo.Priority_beq (Todo.priority t) Todo.Low) l + 0))).
Proof.
  unfold Todo.countWhere. induction l as [|t l IH]; [reflexivity|].
  cbn [filter length]. destruct (Todo.priority t); cbn [Todo.Priority_beq length]; lia.
Qed.

(** X1.  The counts of [getStats] add up: over the categories to the total,
    over the priorities to the total, and pending plus completed is the
    total, with neither negative. *)
Theorem stats_add_up (st : Todo.State Todo.Task) :
  Todo.totalTasks (Todo.getStats st) = Z.of_nat (length (Todo.tasks st))
  /\ sumCounts (Todo.categoryStats (Todo.getStats st)) = Todo.totalTasks (Todo.getStats st)
  /\ sumCounts (Todo.priorityStats (Todo.getStats st)) = Todo.totalTasks (Todo.getStats st)
  /\ Todo.pendingTasks (Todo.getStats st) + Todo.completedTasks (Todo.getStats st)
     = Todo.totalTasks (Todo.getStats st)
  /\ 0 <= Todo.completedTasks (Todo.getStats st)
  /\ 0 <= Todo.pendingTasks (Todo.getStats st).
Proof.
  split; [reflexivity|].
  split; [symmetry; apply count_by_category|].
  split; [symmetry; apply count_by_priority|].
  cbn [Todo.getStats Todo.pendingTasks Todo.completedTasks Todo.totalTasks].
  unfold Todo.countWhere.
  pose proof (filter_length_le (fun t => Todo.completed t) (Todo.tasks st)). lia.
Qed.

(* ================================================================== *)
(** * The selection stays in the store *)
(* ================================================================== *)

Lemma Subsequence_In {A : Type} (l' l : list A) (x : A) :
  Subsequence l' l -> In x l' -> In x l.
Proof.
  induction 1; simpl; intros Hin; auto.
  destruct Hin as [->|Hin]; auto.
Qed.

Lemma ids_after_toggle (sel : Z) (l : list Todo.Task) :
  map Todo.id (map (fun t => if Todo.id t =? sel then Todo.toggle t else t) l)
  = map Todo.id l.
Proof.
  rewrite map_map. apply map_ext. intros t. destruct (Todo.id t =? sel); reflexivity.
Qed.

Lemma handle_keeps_selection_in_store {num : Type} {H : JS.Host num}
      (st : Todo.State Todo.Task) (e : Event) :
  selection_in_store st -> possible st e -> selection_in_store (handle st e).
Proof.
  unfold selection_in_store. intros Inv Hp.
  destruct e; simpl in *; try exact Inv; try exact I.
  - unfold Todo.add_task.
    destruct (negb (JS.str_eqb (JS.trim (Todo.newTask st)) [])); simpl; [|exact Inv].
    destruct (Todo.selectedTaskId st); [|exact I].
    rewrite map_app. apply in_or_app. left. exact Inv.
  - apply in_map_iff in Hp. destruct Hp as [t [<- Ht]].
    apply in_map. eapply Subsequence_In; [apply filter_Subsequence|exact Ht].
  - unfold Todo.delete_task. destruct (Todo.selectedTaskId st) eqn:Hs; simpl; [exact I|].
    rewrite Hs. exact I.
  - unfold Todo.mark_done. destruct (Todo.selectedTaskId st) as [sel|] eqn:Hs; simpl.
    + rewrite Hs, ids_after_toggle. exact Inv.
    + rewrite Hs. exact I.
  - destruct (Todo.selectedTaskId st); [|exact I].
    eapply Permutation_in; [|exact Inv].
    apply Permutation_map. apply (Array_sort_perm rank).
Qed.

(** X2.  In every state the page can reach, the selected id, if there is one,
    is the id of a task of the collection. *)
Theorem selection_always_in_store
  (num : Type) (H : JS.Host num) (st : Todo.State Todo.Task) :
  Reachable st -> selection_in_store st.
Proof.
  induction 1 as [|st e _ IH Hp].
  - exact I.
  - apply handle_keeps_selection_in_store; assumption.
Qed.

Lemma selection_always_in_store_witness :
  selection_in_store
    (handle
       (handle (handle Todo.initial (TypeTask (JS.lit "Buy milk")))
          (ClickAdd 1735725600000 (JS.lit "1/1/2025, 10:00:00 AM")))
       (ClickRow 1735725600000)).
Proof.
  apply (selection_always_in_store Qcanon.Qc Reference.host).
  apply reach_event; [apply reach_event; [apply reach_event; [apply reach_initial|]|]|].
  - exact I.
  - exact I.
  - simpl. left. reflexivity.
Defined.

(** [Import l] is what [handleFileImport] does with a file that reads as
    the export of [l]. *)
Lemma import_event_is_handleFileImport {num : Type} {N : JS.Number num} {H : JS.Host num}
      (st : Todo.State Todo.Task) (l : list Todo.Task) (iso fileText : JS.jsstring) :
  JS.JSON_parse fileText = JS.Ok (exportDocument iso (map Todo.taskObject l)) ->
  Todo.handleFileImport (Some fileText) (Todo.asObjects st)
  = (Todo.asObjects (handle st (Import l)), Some Todo.ImportedSuccessfully).
Proof.
  intros Hp. unfold Todo.handleFileImport, Todo.reader_onload, Todo.onload_try.
  rewrite Hp. simpl JS.bind.
  destruct (taskObject_accepted (num:=num) l) as [K U].
  rewrite (proj1 (every_hasTaskKeys _) K), U. reflexivity.
Qed.

(* ================================================================== *)
(** * The reference host reads what it writes *)
(* ================================================================== *)

Section ReferenceHost.
Import JS Reference.

(** *** Spaces *)

Lemma skipSpace_spaces (k : nat) (s : jsstring) : skipSpace (repeat 32%N k ++ s) = skipSpace s.
Proof. induction k; simpl; auto. Qed.

Lemma skipSpace_newline (k : nat) (s : jsstring) : skipSpace (newline k ++ s) = skipSpace s.
Proof. unfold newline. simpl. apply skipSpace_spaces. Qed.

(** *** Escapes *)

Lemma hexValue_hexDigit (n : N) : (n < 16)%N -> hexValue (hexDigit n) = Some n.
Proof.
  intros Hn.
  assert (In n (map N.of_nat (seq 0 16))) as Hin.
  { replace n with (N.of_nat (N.to_nat n)) by apply N2Nat.id.
    apply in_map, in_seq. lia. }
  simpl in Hin. repeat (destruct Hin as [<-|Hin]; [reflexivity|]). destruct Hin.
Qed.

Lemma hex4_unicodeEscape (c : N) : (c < 65536)%N ->
  hex4 (hexDigit (c / 4096 mod 16)) (hexDigit (c / 256 mod 16))
       (hexDigit (c / 16 mod 16)) (hexDigit (c mod 16)) = Some c.
Proof.
  intros Hc. unfold hex4.
  rewrite !hexValue_hexDigit by (apply N.mod_lt; discriminate).
  f_equal. zify. Z.to_euclidean_division_equations. lia.
Qed.

Lemma readUnits_plain (c : N) (r acc : jsstring) :
  (c =? 34)%N = false -> (c =? 92)%N = false -> (c <? 32)%N = false ->
  readUnits (c :: r) acc = readUnits r (c :: acc).
Proof. intros H1 H2 H3. simpl. rewrite H1, H2, H3. reflexivity. Qed.

Lemma readUnits_escape (c : N) (r acc : jsstring) :
  (c < 65536)%N ->
  readUnits (unicodeEscape c ++ r) acc = readUnits r (c :: acc).
Proof.
  intros Hc. unfold unicodeEscape. cbn [app readUnits N.eqb Pos.eqb].
  rewrite (hex4_unicodeEscape c Hc). reflexivity.
Qed.

Lemma readUnits_writeUnits (n : nat) :
  forall (s acc rest : jsstring), (length s <= n)%nat ->
  readUnits (writeUnits s ++ 34%N :: rest) acc = Some (rev acc ++ s, rest).
Proof.
  induction n as [|n IH]; intros s acc rest Hlen.
  - destruct s; [|simpl in Hlen; lia]. simpl. rewrite app_nil_r. reflexivity.
  - destruct s as [|c r]; [simpl; rewrite app_nil_r; reflexivity|].
    simpl in Hlen. assert (Hr : (length r <= n)%nat) by lia.
    assert (Step : forall x, rev (x :: acc) ++ r = rev acc ++ x :: r)
      by (intros x; simpl; rewrite <- app_assoc; reflexivity).
    cbn [writeUnits].
    destruct (c =? 34)%N eqn:E34.
    { apply N.eqb_eq in E34. subst c. cbn. rewrite (IH r _ rest Hr). rewrite Step. reflexivity. }
    destruct (c =? 92)%N eqn:E92.
    { apply N.eqb_eq in E92. subst c. cbn. rewrite (IH r _ rest Hr). rewrite Step. reflexivity. }
    destruct (c =? 8)%N eqn:E8.
    { apply N.eqb_eq in E8. subst c. cbn. rewrite (IH r _ rest Hr). rewrite Step. reflexivity. }
    destruct (c =? 12)%N eqn:E12.
    { apply N.eqb_eq in E12. subst c. cbn. rewrite (IH r _ rest Hr). rewrite Step. reflexivity. }
    destruct (c =? 10)%N eqn:E10.
    { apply N.eqb_eq in E10. subst c. cbn. rewrite (IH r _ rest Hr). rewrite Step. reflexivity. }
    destruct (c =? 13)%N eqn:E13.
    { apply N.eqb_eq in E13. subst c. cbn. rewrite (IH r _ rest Hr). rewrite Step. reflexivity. }
    destruct (c =? 9)%N eqn:E9.
    { apply N.eqb_eq in E9. subst c. cbn. rewrite (IH r _ rest Hr). rewrite Step. reflexivity. }
    destruct (c <? 32)%N eqn:E32.
    { apply N.ltb_lt in E32. rewrite <- app_assoc, readUnits_escape by lia.
      rewrite (IH r _ rest Hr). rewrite Step. reflexivity. }
    destruct ((55296 <=? c) && (c <=? 56319))%N eqn:Ehi.
    { apply andb_true_iff in Ehi. destruct Ehi as [Hlo Hhi].
      apply N.leb_le in Hlo, Hhi.
      destruct r as [|d r'].
      - rewrite readUnits_escape by lia. reflexivity.
      - destruct ((56320 <=? d) && (d <=? 57343))%N eqn:Elo.
        + apply andb_true_iff in Elo. destruct Elo as [Dlo Dhi].
          apply N.leb_le in Dlo, Dhi.
          cbn [app]. rewrite readUnits_plain by assumption.
          rewrite readUnits_plain
            by (try apply N.eqb_neq; try apply N.ltb_ge; lia).
          simpl in Hr. rewrite (IH r' _ rest) by lia.
          simpl. rewrite <- !app_assoc. reflexivity.
        + rewrite <- app_assoc, readUnits_escape by lia.
          rewrite (IH (d :: r') _ rest Hr). rewrite Step. reflexivity. }
    destruct ((56320 <=? c) && (c <=? 57343))%N eqn:Elo.
    { apply andb_true_iff in Elo. destruct Elo as [Hlo Hhi].
      apply N.leb_le in Hlo, Hhi.
      rewrite <- app_assoc, readUnits_escape by lia.
      rewrite (IH r _ rest Hr). rewrite Step. reflexivity. }
    cbn [app]. rewrite readUnits_plain by assumption.
    rewrite (IH r _ rest Hr). rewrite Step. reflexivity.
Qed.

Lemma readUnits_quote (s rest : jsstring) :
  readUnits (writeUnits s ++ 34%N :: rest) [] = Some (s, rest).
Proof. apply (readUnits_writeUnits (length s)). lia. Qed.

(** *** Numbers *)

Lemma digit_cases (c : N) : isDigit c = true ->
  In c [48; 49; 50; 51; 52; 53; 54; 55; 56; 57]%N.
Proof.
  unfold isDigit. intros Hd. apply andb_true_iff in Hd. destruct Hd as [H1 H2].
  apply N.leb_le in H1, H2.
  replace c with (N.of_nat (N.to_nat c)) by apply N2Nat.id.
  change [48; 49; 50; 51; 52; 53; 54; 55; 56; 57]%N with (map N.of_nat (seq 48 10)).
  apply in_map, in_seq. lia.
Qed.

Lemma isDigit_digit (n : N) : isDigit (48 + n mod 10) = true.
Proof.
  unfold isDigit. apply andb_true_iff. split; apply N.leb_le.
  - apply N.le_add_r.
  - assert (n mod 10 < 10)%N by (apply N.mod_lt; discriminate). lia.
Qed.

Lemma scanDigits_digit (n : N) (r : jsstring) (a : N) (k : nat) :
  scanDigits ((48 + n mod 10)%N :: r) a k = scanDigits r (10 * a + n mod 10)%N (S k).
Proof.
  cbn [scanDigits]. rewrite isDigit_digit.
  rewrite (N.add_comm 48), N.add_sub. reflexivity.
Qed.

(** Scanning the digits of [n]. *)
Lemma scanDigits_digitsOf (fuel : nat) :
  forall (n : N) (acc : jsstring), (n < 10 ^ N.of_nat fuel)%N -> (0 < fuel)%nat ->
  exists d : nat, (1 <= d)%nat /\
    forall a k, scanDigits (digitsOf fuel n acc) a k
                = scanDigits acc (a * 10 ^ N.of_nat d + n)%N (k + d)%nat.
Proof.
  induction fuel as [|f IH]; intros n acc Hn Hf; [lia|].
  cbn [digitsOf].
  destruct (n / 10 =? 0)%N eqn:E.
  - apply N.eqb_eq in E. exists 1%nat. split; [lia|]. intros a k.
    rewrite scanDigits_digit. f_equal; [|lia].
    assert (n mod 10 = n)%N
      by (zify; Z.to_euclidean_division_equations; lia).
    change (10 ^ N.of_nat 1)%N with 10%N. lia.
  - apply N.eqb_neq in E.
    assert (Hf' : (0 < f)%nat).
    { destruct f; [|lia]. change (10 ^ N.of_nat 1)%N with 10%N in Hn.
      exfalso. apply E. zify; Z.to_euclidean_division_equations; lia. }
    assert (Hn' : (n / 10 < 10 ^ N.of_nat f)%N).
    { rewrite Nat2N.inj_succ, N.pow_succ_r' in Hn.
      apply N.Div0.div_lt_upper_bound. lia. }
    destruct (IH (n / 10)%N ((48 + n mod 10)%N :: acc) Hn' Hf') as [d [Hd Hs]].
    exists (S d). split; [lia|]. intros a k.
    rewrite Hs, scanDigits_digit. f_equal; [|lia].
    rewrite Nat2N.inj_succ, N.pow_succ_r'.
    pose proof (N.div_mod n 10). lia.
Qed.

Lemma digitsOf_head (fuel : nat) :
  forall (n : N) (acc : jsstring), (n < 10 ^ N.of_nat fuel)%N -> (0 < n)%N ->
  exists c tail, digitsOf fuel n acc = c :: tail /\ isDigit c = true /\ (c =? 48)%N = false.
Proof.
  induction fuel as [|f IH]; intros n acc Hn Hpos.
  - change (10 ^ N.of_nat 0)%N with 1%N in Hn. lia.
  - cbn [digitsOf]. destruct (n / 10 =? 0)%N eqn:E.
    + apply N.eqb_eq in E. exists (48 + n mod 10)%N, acc.
      split; [reflexivity|]. split; [apply isDigit_digit|].
      apply N.eqb_neq. zify; Z.to_euclidean_division_equations; lia.
    + apply N.eqb_neq in E.
      assert (Hn' : (n / 10 < 10 ^ N.of_nat f)%N).
      { rewrite Nat2N.inj_succ, N.pow_succ_r' in Hn.
        apply N.Div0.div_lt_upper_bound. lia. }
      apply IH; [exact Hn'|apply N.neq_0_lt_0; exact E].
Qed.

Lemma pos_below_power (p : positive) : (Npos p < 2 ^ N.of_nat (Pos.size_nat p))%N.
Proof.
  induction p as [p IH|p IH|]; cbn [Pos.size_nat].
  - rewrite Nat2N.inj_succ, N.pow_succ_r'.
    remember (2 ^ N.of_nat (Pos.size_nat p))%N as x. lia.
  - rewrite Nat2N.inj_succ, N.pow_succ_r'.
    remember (2 ^ N.of_nat (Pos.size_nat p))%N as x. lia.
  - reflexivity.
Qed.

Lemma size_bound (n : N) : (n < 10 ^ N.of_nat (S (N.size_nat n)))%N.
Proof.
  destruct n as [|p]; [reflexivity|]. cbn [N.size_nat].
  apply N.lt_le_trans with (2 ^ N.of_nat (Pos.size_nat p))%N; [apply pos_below_power|].
  apply N.le_trans with (10 ^ N.of_nat (Pos.size_nat p))%N.
  - apply N.pow_le_mono_l. lia.
  - apply N.pow_le_mono_r; lia.
Qed.

Lemma scanDigits_stop (c : N) (r : jsstring) (a : N) (k : nat) :
  isDigit c = false -> scanDigits (c :: r) a k = (a, k, c :: r).
Proof. intros Hc. cbn [scanDigits]. rewrite Hc. reflexivity. Qed.

Lemma Qc_ofZ_this (z : Z) : Qcanon.this (Qc_ofZ z) = QArith_base.inject_Z z.
Proof.
  unfold Qc_ofZ, Qcanon.Q2Qc. cbn [Qcanon.this].
  apply Qcanon.Qred_identity. simpl. apply Z.gcd_1_r.
Qed.

Lemma digitsOf_app (fuel : nat) :
  forall (n : N) (acc x : jsstring), digitsOf fuel n acc ++ x = digitsOf fuel n (acc ++ x).
Proof.
  induction fuel as [|f IH]; intros n acc x; [reflexivity|].
  cbn [digitsOf]. destruct (n / 10 =? 0)%N; [reflexivity|]. apply IH.
Qed.

Lemma digit_not_minus (c : N) : isDigit c = true -> (c =? 45)%N = false.
Proof.
  unfold isDigit. intros Hd. apply andb_true_iff in Hd. destruct Hd as [H1 _].
  apply N.leb_le in H1. apply N.eqb_neq. lia.
Qed.

(** The digits of a positive number, with or without a sign, followed by
    a comma, read as that number. *)
Lemma scanJsonNumber_digits (p : positive) (neg : bool) (rest : jsstring) :
  scanJsonNumber ((if neg then [45%N] else []) ++ decimal (Npos p) ++ 44%N :: rest)
  = Some (Qc_ofZ (if neg then Zneg p else Zpos p), 44%N :: rest).
Proof.
  unfold decimal. rewrite digitsOf_app. cbn [app].
  destruct (digitsOf_head (S (N.size_nat (Npos p))) (Npos p) (44%N :: rest)
              (size_bound _) eq_refl) as [c [tail [Hd [Hc H48]]]].
  destruct (scanDigits_digitsOf (S (N.size_nat (Npos p))) (Npos p) (44%N :: rest)
              (size_bound _) ltac:(lia)) as [d [Hd1 Hscan]].
  specialize (Hscan 0%N 0%nat). cbn [N.mul Nat.add N.add] in Hscan.
  rewrite scanDigits_stop in Hscan by reflexivity.
  rewrite Hd in *. clear Hd.
  destruct d as [|d']; [lia|].
  unfold scanJsonNumber.
  destruct neg; cbn [app tl].
  - cbn [N.eqb Pos.eqb]. rewrite Hscan, H48. cbn.
    rewrite Pos.mul_1_r. reflexivity.
  - rewrite (digit_not_minus c Hc). rewrite Hscan, H48. cbn.
    rewrite Pos.mul_1_r. reflexivity.
Qed.

(** A number that is an integer, followed by a comma, reads as itself. *)
Lemma scanJsonNumber_written (z : Z) (rest : jsstring) :
  scanJsonNumber (writeNumber (Qc_ofZ z) ++ 44%N :: rest) = Some (Qc_ofZ z, 44%N :: rest).
Proof.
  unfold writeNumber. rewrite Qc_ofZ_this.
  cbn [QArith_base.inject_Z QArith_base.Qden QArith_base.Qnum].
  destruct z as [|p|p].
  - reflexivity.
  - apply (scanJsonNumber_digits p false).
  - apply (scanJsonNumber_digits p true).
Qed.

Lemma readValue_digit (f : nat) (c : N) (r : jsstring) :
  isDigit c = true ->
  readValue (S f) (c :: r)
  = match scanJsonNumber (c :: r) with
    | Some (q, r') => Some (JNumber q, r')
    | None => None
    end.
Proof.
  intros Hc. apply digit_cases in Hc. simpl in Hc.
  repeat (destruct Hc as [<-|Hc]; [reflexivity|]). destruct Hc.
Qed.

(** The value of a property that is an integer, followed by a comma. *)
Lemma readValue_number (f : nat) (z : Z) (rest : jsstring) :
  readValue (S f) (writeNumber (Qc_ofZ z) ++ 44%N :: rest)
  = Some (JNumber (Qc_ofZ z), 44%N :: rest).
Proof.
  pose proof (scanJsonNumber_written z rest) as Hn. revert Hn.
  unfold writeNumber. rewrite Qc_ofZ_this.
  cbn [QArith_base.inject_Z QArith_base.Qden QArith_base.Qnum].
  destruct z as [|p|p]; intros Hn.
  - reflexivity.
  - unfold decimal in *. rewrite digitsOf_app in *. cbn [app] in *.
    destruct (digitsOf_head (S (N.size_nat (Npos p))) (Npos p) (44%N :: rest)
                (size_bound _) eq_refl) as [c [tail [Hd [Hc _]]]].
    rewrite Hd in *. rewrite (readValue_digit f c tail Hc), Hn. reflexivity.
  - cbn [app] in *. cbn [readValue skipSpace N.eqb Pos.eqb orb].
    rewrite Hn. reflexivity.
Qed.

(** *** Values and members *)

Lemma readValue_newline (f i : nat) (s : jsstring) :
  readValue f (newline i ++ s) = readValue f s.
Proof. destruct f; [reflexivity|]. cbn [readValue]. rewrite skipSpace_newline. reflexivity. Qed.

Lemma readValue_space (f : nat) (s : jsstring) : readValue f (32%N :: s) = readValue f s.
Proof. destruct f; reflexivity. Qed.

Lemma readValue_string (f : nat) (s rest : jsstring) :
  readValue (S f) (quote s ++ rest) = Some (JString s, rest).
Proof.
  unfold quote. cbn [app readValue skipSpace N.eqb Pos.eqb orb].
  rewrite <- app_assoc. cbn [app]. rewrite readUnits_quote. reflexivity.
Qed.

Lemma readValue_bool (f : nat) (b : bool) (rest : jsstring) :
  readValue (S f) (write 6 (JBool b) ++ rest) = Some (JBool b, rest).
Proof. destruct b; reflexivity. Qed.

(** One member of an object: its key, a colon, then its value. *)
Lemma readMembers_member (f i : nat) (k rest : jsstring)
      (acc : list (jsstring * json Qcanon.Qc)) :
  readMembers (S f) (newline i ++ quote k ++ lit ": " ++ rest) acc
  = match readValue f rest with
    | Some (v, r3) =>
        match skipSpace r3 with
        | 44%N :: r4 => readMembers f r4 (define k v acc)
        | 125%N :: r4 => Some (JObject (define k v acc), r4)
        | _ => None
        end
    | None => None
    end.
Proof.
  cbn [readMembers]. rewrite skipSpace_newline.
  unfold quote. cbn [app skipSpace N.eqb Pos.eqb orb].
  rewrite <- app_assoc. cbn [app]. rewrite readUnits_quote.
  cbn [lit list_ascii_of_string map app skipSpace N_of_ascii N_of_digits N.eqb Pos.eqb orb
       N.add N.mul Pos.add Pos.mul Pos.succ].
  rewrite readValue_space. reflexivity.
Qed.

Lemma readValue_object (f i : nat) (k r : jsstring) :
  readValue (S f) (123%N :: newline i ++ quote k ++ r)
  = readMembers f (newline i ++ quote k ++ r) [].
Proof.
  cbn [readValue skipSpace N.eqb Pos.eqb orb]. rewrite skipSpace_newline.
  unfold quote. cbn [app skipSpace N.eqb Pos.eqb orb]. reflexivity.
Qed.

Lemma skipSpace_comma (r : jsstring) : skipSpace (44%N :: r) = 44%N :: r.
Proof. reflexivity. Qed.

Lemma skipSpace_closing (i : nat) (c : N) (r : jsstring) :
  isSpace c = false -> skipSpace (newline i ++ c :: r) = c :: r.
Proof.
  intros Hc. rewrite skipSpace_newline. cbn [skipSpace].
  unfold isSpace in Hc. rewrite Hc. reflexivity.
Qed.

Lemma readValue_task (f : nat) (t : Todo.Task) (rest : jsstring) :
  readValue (8 + f) (write 4 (Todo.taskObject (N:=exact) t) ++ rest)
  = Some (Todo.taskObject t, rest).
Proof.
  unfold Todo.taskObject.
  cbn [write flat_map nofZ exact Nat.add].
  repeat rewrite <- app_assoc.
  change (lit "{" ++ ?x) with (123%N :: x).
  change (lit "}" ++ ?x) with (125%N :: x).
  repeat change (lit "," ++ ?x) with (44%N :: x). cbn [app].
  rewrite readValue_object.
  rewrite readMembers_member, readValue_number, skipSpace_comma.
  rewrite readMembers_member, readValue_string, skipSpace_comma.
  rewrite readMembers_member.
  replace (readValue (S (S (S (S f))))
             ((if Todo.completed t then lit "true" else lit "false") ++ _))
    with (Some (@JBool Qcanon.Qc (Todo.completed t),
                44%N :: newline 6 ++ quote (lit "createdAt") ++ lit ": " ++
                quote (Todo.createdAt t) ++ 44%N :: newline 6 ++ quote (lit "category") ++
                lit ": " ++ quote (Todo.categoryName (Todo.category t)) ++ 44%N ::
                newline 6 ++ quote (lit "priority") ++ lit ": " ++
                quote (Todo.priorityName (Todo.priority t)) ++ newline 4 ++ 125%N :: rest))
    by (destruct (Todo.completed t); reflexivity).
  rewrite skipSpace_comma.
  rewrite readMembers_member, readValue_string, skipSpace_comma.
  rewrite readMembers_member, readValue_string, skipSpace_comma.
  rewrite readMembers_member, readValue_string.
  rewrite skipSpace_closing by reflexivity.
  reflexivity.
Qed.

(** *** The array of tasks and the document *)

Lemma readValue_task_fuel (g : nat) (t : Todo.Task) (rest : jsstring) :
  (8 <= g)%nat ->
  readValue g (write 4 (Todo.taskObject (N:=exact) t) ++ rest) = Some (Todo.taskObject t, rest).
Proof.
  intros Hg. replace g with (8 + (g - 8))%nat by lia. apply readValue_task.
Qed.

Lemma readElements_S (g : nat) (s : jsstring) (acc : list (json Qcanon.Qc)) :
  readElements (S g) s acc
  = match readValue g s with
    | Some (v, r) =>
        match skipSpace r with
        | 44%N :: r' => readElements g r' (v :: acc)
        | 93%N :: r' => Some (JArray (rev (v :: acc)), r')
        | _ => None
        end
    | None => None
    end.
Proof. reflexivity. Qed.

Lemma moreTasks_cons (t : Todo.Task) (l : list Todo.Task) (x : jsstring) :
  moreTasks (t :: l) ++ x
  = 44%N :: newline 4 ++ write 4 (Todo.taskObject (N:=exact) t) ++ moreTasks l ++ x.
Proof.
  unfold moreTasks. cbn [map flat_map]. repeat rewrite <- app_assoc. reflexivity.
Qed.

Lemma readElements_tasks (l : list Todo.Task) :
  forall (t : Todo.Task) (acc : list (json Qcanon.Qc)) (f : nat) (rest : jsstring),
  readElements (S (length l + 8 + f))
    (newline 4 ++ write 4 (Todo.taskObject (N:=exact) t) ++ moreTasks l
     ++ newline 2 ++ 93%N :: rest) acc
  = Some (JArray (rev acc ++ map Todo.taskObject (t :: l)), rest).
Proof.
  induction l as [|t' l IH]; intros t acc f rest.
  - rewrite readElements_S, readValue_newline, readValue_task_fuel by (simpl; lia).
    unfold moreTasks at 1. cbn [map flat_map app].
    rewrite skipSpace_closing by reflexivity. reflexivity.
  - rewrite readElements_S, readValue_newline, readValue_task_fuel by (simpl; lia).
    rewrite moreTasks_cons, skipSpace_comma.
    replace (length (t' :: l) + 8 + f)%nat with (S (length l + 8 + f)) by reflexivity.
    rewrite IH.
    cbn [rev map]. rewrite <- app_assoc. reflexivity.
Qed.

Lemma write_tasks_array (t : Todo.Task) (l : list Todo.Task) (x : jsstring) :
  write 2 (JArray (map (Todo.taskObject (N:=exact)) (t :: l))) ++ x
  = 91%N :: newline 4 ++ write 4 (Todo.taskObject (N:=exact) t) ++ moreTasks l
    ++ newline 2 ++ 93%N :: x.
Proof.
  cbn [map write Nat.add]. fold (moreTasks l). repeat rewrite <- app_assoc. reflexivity.
Qed.

Lemma readValue_array (f : nat) (t : Todo.Task) (x : jsstring) :
  readValue (S f) (91%N :: newline 4 ++ write 4 (Todo.taskObject (N:=exact) t) ++ x)
  = readElements f (newline 4 ++ write 4 (Todo.taskObject (N:=exact) t) ++ x) [].
Proof.
  cbn [readValue skipSpace N.eqb Pos.eqb orb]. rewrite skipSpace_newline. reflexivity.
Qed.

Lemma readValue_tasks (l : list Todo.Task) (f : nat) (rest : jsstring) :
  readValue (S (S (length l + 8 + f)))
    (write 2 (JArray (map (Todo.taskObject (N:=exact)) l)) ++ rest)
  = Some (JArray (map Todo.taskObject l), rest).
Proof.
  destruct l as [|t l]; [reflexivity|].
  rewrite write_tasks_array, readValue_array.
  replace (S (length (t :: l) + 8 + f)) with (S (length l + 8 + S f)) by (simpl; lia).
  rewrite readElements_tasks. reflexivity.
Qed.

Lemma write_document (iso : jsstring) (l : list Todo.Task) :
  write 0 (exportDocument iso (map (Todo.taskObject (N:=exact)) l))
  = 123%N :: newline 2 ++ quote (lit "tasks") ++ lit ": "
    ++ write 2 (JArray (map (Todo.taskObject (N:=exact)) l))
    ++ 44%N :: newline 2 ++ quote (lit "exportDate") ++ lit ": " ++ quote iso
    ++ 44%N :: newline 2 ++ quote (lit "version") ++ lit ": " ++ quote (lit "1.0")
    ++ newline 0 ++ 125%N :: [].
Proof.
  unfold exportDocument.
  remember (JArray (map (Todo.taskObject (N:=exact)) l)) as a.
  cbn [write flat_map Nat.add]. subst a.
  repeat rewrite <- app_assoc. reflexivity.
Qed.

Lemma readValue_document (iso : jsstring) (l : list Todo.Task) (f : nat) :
  readValue (S (S (S (S (length l + 8 + f)))))
    (write 0 (exportDocument iso (map (Todo.taskObject (N:=exact)) l)))
  = Some (exportDocument iso (map Todo.taskObject l), []).
Proof.
  rewrite write_document, readValue_object.
  rewrite readMembers_member, readValue_tasks, skipSpace_comma.
  rewrite readMembers_member, readValue_string, skipSpace_comma.
  replace (length l + 8 + f)%nat with (S (length l + 7 + f)) by lia.
  rewrite readMembers_member, readValue_string.
  rewrite skipSpace_closing by reflexivity.
  reflexivity.
Qed.

Lemma length_moreTasks (l : list Todo.Task) : (length l <= length (moreTasks l))%nat.
Proof.
  induction l as [|t l IH]; [apply le_n|].
  rewrite <- (app_nil_r (moreTasks (t :: l))), moreTasks_cons.
  cbn [length]. rewrite !length_app. cbn [length]. lia.
Qed.

Lemma length_tasks_array (l : list Todo.Task) :
  (length l <= length (write 2 (JArray (map (Todo.taskObject (N:=exact)) l))))%nat.
Proof.
  destruct l as [|t l]; [cbn; lia|].
  rewrite <- (app_nil_r (write 2 _)), write_tasks_array.
  cbn [length]. rewrite !length_app. cbn [length].
  pose proof (length_moreTasks l). lia.
Qed.

Lemma length_document (iso : jsstring) (l : list Todo.Task) :
  (length l + 11
   <= length (write 0 (exportDocument iso (map (Todo.taskObject (N:=exact)) l))))%nat.
Proof.
  rewrite write_document.
  pose proof (length_tasks_array l) as Ha.
  remember (write 2 (JArray (map (Todo.taskObject (N:=exact)) l))) as a.
  cbn [length]. rewrite !length_app.
  change (length (newline 2)) with 3%nat.
  change (length (quote (lit "tasks"))) with 7%nat.
  change (length (lit ": ")) with 2%nat.
  lia.
Qed.

(** The reference host reads every exported file back as the document
    that was written. *)
Theorem reference_host_reads_exports (iso : jsstring) (l : list Todo.Task) :
  JSON_parse (JSON_stringify (exportDocument iso (map (Todo.taskObject (N:=exact)) l)))
  = Ok (exportDocument iso (map Todo.taskObject l)).
Proof.
  cbn [JSON_parse JSON_stringify host]. unfold read.
  pose proof (length_document iso l) as Hlen.
  remember (write 0 (exportDocument iso (map (Todo.taskObject (N:=exact)) l))) as text.
  replace (S (length text))
    with (S (S (S (S (length l + 8 + (length text - length l - 11)))))) by lia.
  subst text. rewrite readValue_document. reflexivity.
Qed.

(** X3.  On the reference host the round trip needs no assumption: importing
    the file that [saveTasksToFile] produces from any collection [S]
    succeeds and makes the collection [S] again, whatever it was before. *)
Theorem reference_import_of_export
  (S : Todo.State Todo.Task) (iso1 iso2 : jsstring) (prior : Todo.State (json Qcanon.Qc)) :
  Todo.handleFileImport
    (Some (Todo.content (Todo.saveTasksToFile iso1 iso2 (Todo.asObjects S)))) prior
  = (Todo.setSelectedTaskId None (Todo.setTasks (Todo.tasks (Todo.asObjects S)) prior),
     Some Todo.ImportedSuccessfully).
Proof.
  unfold Todo.handleFileImport, Todo.reader_onload, Todo.onload_try.
  rewrite saveTasksToFile_content.
  change (Todo.tasks (Todo.asObjects S)) with (map (Todo.taskObject (N:=exact)) (Todo.tasks S)).
  rewrite reference_host_reads_exports. simpl bind.
  destruct (taskObject_accepted (num:=Qcanon.Qc) (Todo.tasks S)) as [K U].
  rewrite (proj1 (every_hasTaskKeys _) K), U. reflexivity.
Qed.

End ReferenceHost.

(* ================================================================== *)
(** * The rows of the tables *)
(* ================================================================== *)

Lemma startsWith_prefix (s p : JS.jsstring) :
  JS.startsWith s p = true <-> exists b, s = p ++ b.
Proof.
  revert s. induction p as [|a p IH]; intros s.
  - split; [intros _; exists s; reflexivity|intros _; destruct s; reflexivity].
  - destruct s as [|c s]; cbn [JS.startsWith].
    + split; [discriminate|intros [b Hb]; discriminate Hb].
    + rewrite andb_true_iff, N.eqb_eq, IH. split.
      * intros [-> [b ->]]. exists b. reflexivity.
      * intros [b Hb]. injection Hb as -> ->. split; [reflexivity|exists b; reflexivity].
Qed.

Lemma includes_Substring (s p : JS.jsstring) :
  JS.includes s p = true <-> Substring p s.
Proof.
  unfold Substring. induction s as [|c s IH].
  - cbn [JS.includes]. rewrite orb_false_r, startsWith_prefix. split.
    + intros [b Hb]. exists [], b. exact Hb.
    + intros [a [b Hb]]. destruct a; [exists b; exact Hb|discriminate Hb].
  - cbn [JS.includes]. rewrite orb_true_iff, startsWith_prefix, IH. split.
    + intros [[b Hb]|[a [b Hb]]].
      * exists [], b. exact Hb.
      * exists (c :: a), b. rewrite Hb. reflexivity.
    + intros [a [b Hb]]. destruct a as [|x a].
      * left. exists b. exact Hb.
      * right. injection Hb as _ Hb. exists a, b. exact Hb.
Qed.

Lemma matchesFilter_todo {A : Type} (eqb : A -> A -> bool) (f : Todo.OrAll A) (a : A) :
  (forall x y, eqb x y = true <-> x = y) ->
  Todo.matchesFilter eqb f a = true <-> f = Todo.All \/ f = Todo.Only a.
Proof.
  intros Heq. destruct f as [|x]; simpl.
  - split; [left; reflexivity|reflexivity].
  - rewrite Heq. split.
    + intros ->. right; reflexivity.
    + intros [F|F]; [discriminate F|injection F as ->; reflexivity].
Qed.

Lemma matchesFilter_wallet {A : Type} (eqb : A -> A -> bool) (f : Wallet.OrAll A) (a : A) :
  (forall x y, eqb x y = true <-> x = y) ->
  Wallet.matchesFilter eqb f a = true <-> f = Wallet.All \/ f = Wallet.Only a.
Proof.
  intros Heq. destruct f as [|x]; simpl.
  - split; [left; reflexivity|reflexivity].
  - rewrite Heq. split.
    + intros ->. right; reflexivity.
    + intros [F|F]; [discriminate F|injection F as ->; reflexivity].
Qed.

Lemma Category_beq_iff (x y : Todo.Category) : Todo.Category_beq x y = true <-> x = y.
Proof. destruct x, y; simpl; split; intros; congruence. Qed.

Lemma Priority_beq_iff (x y : Todo.Priority) : Todo.Priority_beq x y = true <-> x = y.
Proof. destruct x, y; simpl; split; intros; congruence. Qed.

Lemma wallet_Category_beq_iff (x y : Wallet.Category) : Wallet.Category_beq x y = true <-> x = y.
Proof. destruct x, y; simpl; split; intros; congruence. Qed.

Lemma TransactionType_beq_iff (x y : Wallet.TransactionType) :
  Wallet.TransactionType_beq x y = true <-> x = y.
Proof. destruct x, y; simpl; split; intros; congruence. Qed.

(** X4.  A task is a row of the table exactly when it is in the collection, the
    lower-cased search term occurs in its lower-cased text, and each of the
    two filters is All or names its category, its priority; likewise for the
    transactions, by description, category and type. *)
Theorem rows_are_the_matching_records (num : Type) (N : JS.Number num) (H : JS.Host num) :
  (forall (st : Todo.State Todo.Task) (t : Todo.Task),
     In t (Todo.getFilteredTasks st)
     <-> In t (Todo.tasks st)
         /\ Substring (JS.toLowerCase (Todo.searchTerm st)) (JS.toLowerCase (Todo.text t))
         /\ (Todo.filterCategory st = Todo.All
             \/ Todo.filterCategory st = Todo.Only (Todo.category t))
         /\ (Todo.filterPriority st = Todo.All
             \/ Todo.filterPriority st = Todo.Only (Todo.priority t)))
  /\ (forall (st : Wallet.State num) (t : Wallet.Transaction num),
     In t (Wallet.getFilteredTransactions st)
     <-> In t (Wallet.transactions st)
         /\ Substring (JS.toLowerCase (Wallet.searchTerm st))
                      (JS.toLowerCase (Wallet.description t))
         /\ (Wallet.filterCategory st = Wallet.All
             \/ Wallet.filterCategory st = Wallet.Only (Wallet.category t))
         /\ (Wallet.filterType st = Wallet.All
             \/ Wallet.filterType st = Wallet.Only (Wallet.type t))).
Proof.
  split; intros st t.
  - unfold Todo.getFilteredTasks. rewrite filter_In, !andb_true_iff, includes_Substring.
    rewrite (matchesFilter_todo _ _ _ Category_beq_iff).
    rewrite (matchesFilter_todo _ _ _ Priority_beq_iff). tauto.
  - unfold Wallet.getFilteredTransactions. rewrite filter_In, !andb_true_iff, includes_Substring.
    rewrite (matchesFilter_wallet _ _ _ wallet_Category_beq_iff).
    rewrite (matchesFilter_wallet _ _ _ TransactionType_beq_iff). tauto.
Qed.

Lemma filter_all {A : Type} (f : A -> bool) (l : list A) :
  (forall x, In x l -> f x = true) -> filter f l = l.
Proof.
  induction l as [|x l IH]; intros Hall; simpl; [reflexivity|].
  rewrite (Hall x (or_introl eq_refl)), IH; [reflexivity|].
  intros y Hy. apply Hall. right; exact Hy.
Qed.

Lemma includes_empty (s : JS.jsstring) : JS.includes s [] = true.
Proof. destruct s; reflexivity. Qed.

(** X5.  Clear Filters shows every record: on a host whose [toLowerCase] maps
    the empty string to itself, after the click the rows are the whole
    collection, in its order, and the heading counts it twice. *)
Theorem clear_filters_shows_all (num : Type) (N : JS.Number num) (H : JS.Host num) :
  JS.toLowerCase [] = [] ->
  (forall st : Todo.State Todo.Task,
     Todo.getFilteredTasks (Todo.clearFilters st) = Todo.tasks st
     /\ Todo.heading (Todo.clearFilters st)
        = (length (Todo.tasks st), length (Todo.tasks st))
     /\ Todo.emptyMessage (Todo.clearFilters st) <> Some Todo.NoTasksMatch)
  /\ (forall st : Wallet.State num,
     Wallet.getFilteredTransactions (Wallet.clearFilters st) = Wallet.transactions st).
Proof.
  intros Hlow.
  assert (T : forall st : Todo.State Todo.Task,
            Todo.getFilteredTasks (Todo.clearFilters st) = Todo.tasks st).
  { intros st. unfold Todo.getFilteredTasks. simpl.
    apply filter_all. intros t _. rewrite Hlow, includes_empty. reflexivity. }
  split.
  - intros st. split; [apply T|]. split.
    + unfold Todo.heading. rewrite T. reflexivity.
    + unfold Todo.emptyMessage. rewrite T. simpl.
      destruct (length (Todo.tasks st) =? 0)%nat; discriminate.
  - intros st. unfold Wallet.getFilteredTransactions. simpl.
    apply filter_all. intros t _. rewrite Hlow, includes_empty. reflexivity.
Qed.

Lemma clear_filters_shows_all_witness :
  Todo.getFilteredTasks (H:=Reference.host)
    (Todo.clearFilters (Todo.setFilterPriority (Todo.Only Todo.Low) pair_of_tasks))
  = Todo.tasks pair_of_tasks.
Proof.
  exact (proj1 (proj1 (clear_filters_shows_all Qcanon.Qc JS.exact Reference.host eq_refl)
                  (Todo.setFilterPriority (Todo.Only Todo.Low) pair_of_tasks))).
Defined.

(* ================================================================== *)
(** * Sorting, filtering and the statistics *)
(* ================================================================== *)

Section SortAndFilter.
Context {A : Type} (key : A -> Z) (f : A -> bool).

Lemma sort_insert_first (x : A) (l : list A) :
  Forall (fun y => key x <= key y) l -> JS.sort_insert (by_key key) x l = x :: l.
Proof.
  intros Hall. destruct l as [|y l]; [reflexivity|].
  simpl. unfold by_key. inversion Hall as [|? ? Hy _]; subst.
  destruct (key x - key y <=? 0) eqn:E; [reflexivity|].
  apply Z.leb_gt in E. lia.
Qed.

Lemma filter_sort_insert (x : A) (l : list A) :
  StronglySorted (key_le key) l ->
  filter f (JS.sort_insert (by_key key) x l)
  = if f x then JS.sort_insert (by_key key) x (filter f l) else filter f l.
Proof.
  induction l as [|y l IH]; intros Hs.
  - simpl. destruct (f x); reflexivity.
  - apply StronglySorted_inv in Hs. destruct Hs as [Hs Hy].
    cbn [JS.sort_insert]. unfold by_key at 1.
    destruct (key x - key y <=? 0) eqn:E.
    + apply Z.leb_le in E. cbn [filter]. destruct (f x); [|reflexivity].
      symmetry. apply sort_insert_first.
      destruct (f y).
      * constructor; [lia|]. apply Forall_forall. intros z Hz.
        apply filter_In in Hz. destruct Hz as [Hz _].
        rewrite Forall_forall in Hy. specialize (Hy z Hz). unfold key_le in Hy. lia.
      * apply Forall_forall. intros z Hz.
        apply filter_In in Hz. destruct Hz as [Hz _].
        rewrite Forall_forall in Hy. specialize (Hy z Hz). unfold key_le in Hy. lia.
    + cbn [filter]. rewrite (IH Hs). destruct (f x), (f y); try reflexivity.
      cbn [JS.sort_insert]. unfold by_key at 2. rewrite E. reflexivity.
Qed.

Lemma filter_Array_sort (l : list A) :
  filter f (JS.Array_sort (by_key key) l) = JS.Array_sort (by_key key) (filter f l).
Proof.
  induction l as [|x l IH]; [reflexivity|].
  cbn [JS.Array_sort filter].
  rewrite filter_sort_insert by apply Array_sort_sorted.
  rewrite IH. destruct (f x); reflexivity.
Qed.

End SortAndFilter.

(** X6.  Sorting and filtering commute: after Sort by Priority the rows are the
    rows of before, sorted by priority, rows of equal priority in the order
    they had. *)
Theorem rows_after_sort (num : Type) (H : JS.Host num) (st : Todo.State Todo.Task) :
  Todo.getFilteredTasks (Todo.sortTasksByPriority st)
  = JS.Array_sort (fun a b => Todo.getPriorityOrder (Todo.priority a)
                              - Todo.getPriorityOrder (Todo.priority b))
                  (Todo.getFilteredTasks st).
Proof.
  unfold Todo.getFilteredTasks, Todo.sortTasksByPriority. simpl.
  apply (filter_Array_sort rank).
Qed.

Lemma countWhere_perm (f : Todo.Task -> bool) (l l' : list Todo.Task) :
  Permutation l l' -> Todo.countWhere f l = Todo.countWhere f l'.
Proof.
  intros P. unfold Todo.countWhere. f_equal.
  induction P; simpl.
  - reflexivity.
  - destruct (f x); simpl; congruence.
  - destruct (f x), (f y); reflexivity.
  - congruence.
Qed.

(** X7.  Sort by Priority changes no figure of the statistics. *)
Theorem sort_keeps_statistics (st : Todo.State Todo.Task) :
  Todo.getStats (Todo.sortTasksByPriority st) = Todo.getStats st.
Proof.
  unfold Todo.getStats, Todo.sortTasksByPriority. cbn [Todo.tasks Todo.setTasks].
  pose proof (Array_sort_perm rank (Todo.tasks st)) as P.
  change (JS.Array_sort (by_key rank) (Todo.tasks st))
    with (JS.Array_sort (fun a b => Todo.getPriorityOrder (Todo.priority a)
                                    - Todo.getPriorityOrder (Todo.priority b))
                        (Todo.tasks st)) in P.
  rewrite <- (Permutation_length P).
  rewrite <- !(fun f => countWhere_perm f _ _ P). reflexivity.
Qed.

Lemma countWhere_snoc (f : Todo.Task -> bool) (l : list Todo.Task) (t : Todo.Task) :
  Todo.countWhere f (l ++ [t]) = Todo.countWhere f l + (if f t then 1 else 0).
Proof.
  unfold Todo.countWhere. rewrite filter_app, length_app. simpl.
  destruct (f t); simpl; lia.
Qed.

(** X8.  The statistics follow an addition: when the text passes the validation
    of [add_task], the total and the pending count grow by one, the
    completed count stays, and of the counts by category and by priority
    exactly the one of the category, the priority, picked in the form grows
    by one. *)
Theorem statistics_follow_additions
  (st : Todo.State Todo.Task) (now : Z) (nowText : JS.jsstring) :
  JS.trim (Todo.newTask st) <> [] ->
  Todo.totalTasks (Todo.getStats (Todo.add_task now nowText st))
  = Todo.totalTasks (Todo.getStats st) + 1
  /\ Todo.completedTasks (Todo.getStats (Todo.add_task now nowText st))
     = Todo.completedTasks (Todo.getStats st)
  /\ Todo.pendingTasks (Todo.getStats (Todo.add_task now nowText st))
     = Todo.pendingTasks (Todo.getStats st) + 1
  /\ Todo.categoryStats (Todo.getStats (Todo.add_task now nowText st))
     = map (fun kv => (fst kv, if Todo.Category_beq (fst kv) (Todo.formCategory st)
                               then snd kv + 1 else snd kv))
           (Todo.categoryStats (Todo.getStats st))
  /\ Todo.priorityStats (Todo.getStats (Todo.add_task now nowText st))
     = map (fun kv => (fst kv, if Todo.Priority_beq (fst kv) (Todo.formPriority st)
                               then snd kv + 1 else snd kv))
           (Todo.priorityStats (Todo.getStats st)).
Proof.
  intros Htext. unfold Todo.add_task.
  destruct (JS.str_eqb (JS.trim (Todo.newTask st)) []) eqn:E.
  { apply str_eqb_eq in E. contradiction. }
  cbn [negb]. unfold Todo.getStats.
  cbn [Todo.tasks Todo.setTasks Todo.setNewTask Todo.totalTasks Todo.completedTasks
       Todo.pendingTasks Todo.categoryStats Todo.priorityStats map fst snd].
  rewrite !countWhere_snoc, length_app.
  cbn [Todo.completed Todo.category Todo.priority length].
  split; [lia|]. split; [lia|]. split; [lia|]. split.
  - destruct (Todo.formCategory st); cbn [Todo.Category_beq];
      rewrite ?Z.add_0_r; reflexivity.
  - destruct (Todo.formPriority st); cbn [Todo.Priority_beq];
      rewrite ?Z.add_0_r; reflexivity.
Qed.

Lemma statistics_follow_additions_witness :
  Todo.totalTasks (Todo.getStats
    (Todo.add_task 9 (JS.lit "1/1/2025, 10:00:02 AM")
       (Todo.setNewTask (JS.lit "Call home") pair_of_tasks)))
  = Todo.totalTasks (Todo.getStats (Todo.setNewTask (JS.lit "Call home") pair_of_tasks)) + 1.
Proof.
  refine (proj1 (statistics_follow_additions
                   (Todo.setNewTask (JS.lit "Call home") pair_of_tasks) 9
                   (JS.lit "1/1/2025, 10:00:02 AM") _)).
  vm_compute. discriminate.
Defined.

(* ================================================================== *)
(** * Toggling twice; adding, then deleting *)
(* ================================================================== *)

Lemma toggle_toggle (t : Todo.Task) : Todo.toggle (Todo.toggle t) = t.
Proof. destruct t. unfold Todo.toggle. simpl. rewrite negb_involutive. reflexivity. Qed.

Lemma toggle_toggle_v1 (t : TodoV1.Task) : TodoV1.toggle (TodoV1.toggle t) = t.
Proof. destruct t. unfold TodoV1.toggle. simpl. rewrite negb_involutive. reflexivity. Qed.

(** X9.  Toggle Complete clicked twice leaves the page as it was, in both
    versions of the todo list, also when several tasks carry the selected
    id. *)
Theorem mark_done_twice :
  (forall st : Todo.State Todo.Task, Todo.mark_done (Todo.mark_done st) = st)
  /\ (forall st : TodoV1.State, TodoV1.mark_done (TodoV1.mark_done st) = st).
Proof.
  split; intros st.
  - unfold Todo.mark_done. destruct (Todo.selectedTaskId st) as [sel|] eqn:Hs; simpl.
    + rewrite Hs. rewrite map_map.
      rewrite (map_ext_in _ (fun t => t)), map_id; [destruct st; reflexivity|].
      intros t _. destruct (Todo.id t =? sel) eqn:E; simpl; rewrite E; [|reflexivity].
      apply toggle_toggle.
    + rewrite Hs. reflexivity.
  - unfold TodoV1.mark_done. destruct (TodoV1.selectedTaskId st) as [sel|] eqn:Hs; simpl.
    + rewrite Hs. rewrite map_map.
      rewrite (map_ext_in _ (fun t => t)), map_id; [destruct st; reflexivity|].
      intros t _. destruct (TodoV1.id t =? sel) eqn:E; simpl; rewrite E; [|reflexivity].
      apply toggle_toggle_v1.
    + rewrite Hs. reflexivity.
Qed.

Lemma filter_out_fresh {A : Type} (key : A -> Z) (k : Z) (l : list A) (x : A) :
  ~ In k (map key l) -> key x = k ->
  filter (fun a => negb (key a =? k)) (l ++ [x]) = l.
Proof.
  intros Hfresh Hx. rewrite filter_app. simpl. rewrite Hx, Z.eqb_refl. simpl.
  rewrite app_nil_r. apply filter_all. intros a Ha.
  apply negb_true_iff, Z.eqb_neq. intros E. apply Hfresh. rewrite <- E. apply in_map, Ha.
Qed.

(** X10.  A record that was added, selected and deleted leaves the collection as
    it was before the addition, provided the clock gave it an id that no
    record of the collection had; the selection is then empty. *)
Theorem add_select_delete_restores (num : Type) (N : JS.Number num) (H : JS.Host num) :
  (forall (st : Todo.State Todo.Task) (now : Z) (nowText : JS.jsstring),
     JS.trim (Todo.newTask st) <> [] ->
     ~ In now (map Todo.id (Todo.tasks st)) ->
     Todo.tasks (Todo.delete_task
                   (Todo.setSelectedTaskId (Some now) (Todo.add_task now nowText st)))
     = Todo.tasks st
     /\ Todo.selectedTaskId (Todo.delete_task
                   (Todo.setSelectedTaskId (Some now) (Todo.add_task now nowText st)))
        = None)
  /\ (forall (st : Wallet.State num) (now : Z) (nowText : JS.jsstring),
     JS.trim (Wallet.formAmount st) <> [] ->
     JS.nisNaN (JS.parseFloat (Wallet.formAmount st)) = false ->
     JS.nltb JS.nzero (JS.parseFloat (Wallet.formAmount st)) = true ->
     JS.trim (Wallet.formDescription st) <> [] ->
     ~ In now (map Wallet.id (Wallet.transactions st)) ->
     Wallet.transactions (Wallet.deleteTransaction
        (Wallet.setSelectedTransactionId (Some now) (Wallet.addTransaction now nowText st)))
     = Wallet.transactions st
     /\ Wallet.selectedTransactionId (Wallet.deleteTransaction
        (Wallet.setSelectedTransactionId (Some now) (Wallet.addTransaction now nowText st)))
        = None).
Proof.
  split.
  - intros st now nowText Htext Hfresh.
    unfold Todo.add_task.
    destruct (JS.str_eqb (JS.trim (Todo.newTask st)) []) eqn:E.
    { apply str_eqb_eq in E. contradiction. }
    simpl. split; [|reflexivity].
    apply (filter_out_fresh Todo.id); [exact Hfresh|reflexivity].
  - intros st now nowText Ha Hn Hp Hd Hfresh.
    unfold Wallet.addTransaction. rewrite Hn, Hp.
    destruct (JS.str_eqb (JS.trim (Wallet.formAmount st)) []) eqn:Ea.
    { apply str_eqb_eq in Ea. contradiction. }
    destruct (JS.str_eqb (JS.trim (Wallet.formDescription st)) []) eqn:Ed.
    { apply str_eqb_eq in Ed. contradiction. }
    simpl. split; [|reflexivity].
    apply (filter_out_fresh Wallet.id); [exact Hfresh|reflexivity].
Qed.

Lemma add_select_delete_restores_witness :
  Todo.tasks (Todo.delete_task
                (Todo.setSelectedTaskId (Some 9)
                   (Todo.add_task 9 (JS.lit "1/1/2025, 10:00:02 AM")
                      (Todo.setNewTask (JS.lit "Call home") pair_of_tasks))))
  = Todo.tasks pair_of_tasks.
Proof.
  refine (proj1 (proj1 (add_select_delete_restores Qcanon.Qc JS.exact Reference.host)
                   (Todo.setNewTask (JS.lit "Call home") pair_of_tasks) 9
                   (JS.lit "1/1/2025, 10:00:02 AM") _ _)).
  - vm_compute. discriminate.
  - simpl. intros [F|[F|[]]]; discriminate F.
Defined.

(* ================================================================== *)
(** * The names of the downloads *)
(* ================================================================== *)

Lemma beforeT_date (date time : JS.jsstring) :
  ~ In 84%N date -> Todo.beforeT (date ++ 84%N :: time) = date.
Proof.
  induction date as [|c date IH]; intros Hno; simpl.
  - reflexivity.
  - destruct (N.eqb c 84) eqn:E.
    + apply N.eqb_eq in E. exfalso. apply Hno. left. exact E.
    + rewrite IH; [reflexivity|]. intros Hin. apply Hno. right. exact Hin.
Qed.

(** X11.  The download is named by the date: when the clock's ISO text is a date
    without the letter T, the letter T and a time, the file of the todo
    list is todo-tasks-<date>.json and the file of the wallet is
    wallet-transactions-<date>.csv, whatever the collection. *)
Theorem download_named_by_date
  (num : Type) (N : JS.Number num) (H : JS.Host num) (P : JS.NumberText num)
  (date time : JS.jsstring) :
  ~ In 84%N date ->
  (forall (iso1 : JS.jsstring) (st : Todo.State (JS.json num)),
     Todo.download (Todo.saveTasksToFile iso1 (date ++ 84%N :: time) st)
     = JS.lit "todo-tasks-" ++ date ++ JS.lit ".json")
  /\ (forall st : Wallet.State num,
     Wallet.download (Wallet.exportToCSV (date ++ 84%N :: time) st)
     = JS.lit "wallet-transactions-" ++ date ++ JS.lit ".csv").
Proof.
  intros Hno. split; intros; simpl; rewrite (beforeT_date _ _ Hno); reflexivity.
Qed.

Lemma download_named_by_date_witness :
  Wallet.download
    (Wallet.exportToCSV (P:=integerText) (JS.lit "2025-01-01T10:00:02.000Z") two_purchases)
  = JS.lit "wallet-transactions-2025-01-01.csv".
Proof.
  refine (proj2 (download_named_by_date Qcanon.Qc JS.exact Reference.host integerText
                   (JS.lit "2025-01-01") (JS.lit "10:00:02.000Z") _) two_purchases).
  vm_compute. intuition discriminate.
Defined.

(* ================================================================== *)
(** * The two versions of the todo list *)
(* ================================================================== *)

Lemma forget_filter (sel : Z) (l : list Todo.Task) :
  map forgetTask (filter (fun t => negb (Todo.id t =? sel)) l)
  = filter (fun t => negb (TodoV1.id t =? sel)) (map forgetTask l).
Proof.
  induction l as [|t l IH]; simpl; [reflexivity|].
  destruct (Todo.id t =? sel); simpl; rewrite IH; reflexivity.
Qed.

(** X12.  The second version of the todo list extends the first: forgetting the
    priorities, the filters and the dialog, each handler of the second
    version does what the handler of the first does. *)
Theorem second_version_extends_first :
  forget Todo.initial = TodoV1.initial
  /\ (forall st s, forget (Todo.setNewTask s st) = TodoV1.setNewTask s (forget st))
  /\ (forall st c, forget (Todo.setCategory c st)
                   = TodoV1.setCategory (forgetCategory c) (forget st))
  /\ (forall st i, forget (Todo.setSelectedTaskId i st) = TodoV1.setSelectedTaskId i (forget st))
  /\ (forall st now nowText,
        forget (Todo.add_task now nowText st) = TodoV1.add_task now nowText (forget st))
  /\ (forall st, forget (Todo.delete_task st) = TodoV1.delete_task (forget st))
  /\ (forall st, forget (Todo.clear_task st) = TodoV1.clear_task (forget st))
  /\ (forall st, forget (Todo.mark_done st) = TodoV1.mark_done (forget st)).
Proof.
  repeat split; try reflexivity.
  - intros st now nowText. unfold Todo.add_task, TodoV1.add_task. simpl.
    destruct (JS.str_eqb (JS.trim (Todo.newTask st)) []); simpl; [reflexivity|].
    unfold forget. simpl. rewrite map_app. reflexivity.
  - intros st. unfold Todo.delete_task, TodoV1.delete_task. simpl.
    destruct (Todo.selectedTaskId st) as [sel|]; [|reflexivity].
    unfold forget. simpl. rewrite forget_filter. reflexivity.
  - intros st. unfold Todo.mark_done, TodoV1.mark_done. simpl.
    destruct (Todo.selectedTaskId st) as [sel|]; [|reflexivity].
    unfold forget, TodoV1.setTasks. simpl. rewrite !map_map.
    rewrite (map_ext (fun x => forgetTask (if Todo.id x =? sel then Todo.toggle x else x))
                     (fun x => if TodoV1.id (forgetTask x) =? sel
                               then TodoV1.toggle (forgetTask x) else forgetTask x));
      [reflexivity|].
    intros t. simpl. destruct (Todo.id t =? sel); reflexivity.
Qed.

(* ================================================================== *)
(** * The invariants of the wallet *)
(* ================================================================== *)

(** *** [trim] *)

Lemma trimStart_fixed (s : JS.jsstring) :
  match s with [] => True | c :: _ => JS.isWhiteSpace c = false end ->
  JS.trimStart s = s.
Proof. destruct s as [|c r]; [reflexivity|]. intros Hc. simpl. rewrite Hc. reflexivity. Qed.

Lemma trimStart_head (s : JS.jsstring) :
  match JS.trimStart s with [] => True | c :: _ => JS.isWhiteSpace c = false end.
Proof.
  induction s as [|c r IH]; [exact I|].
  cbn [JS.trimStart]. destruct (JS.isWhiteSpace c) eqn:E; [exact IH|exact E].
Qed.

Lemma trimStart_trimStart (s : JS.jsstring) : JS.trimStart (JS.trimStart s) = JS.trimStart s.
Proof. apply trimStart_fixed, trimStart_head. Qed.

Lemma trimStart_snoc (w : JS.jsstring) (c : N) :
  JS.isWhiteSpace c = false -> JS.trimStart (w ++ [c]) = JS.trimStart w ++ [c].
Proof.
  intros Hc. induction w as [|x w IH].
  - simpl. rewrite Hc. reflexivity.
  - cbn [app JS.trimStart]. destruct (JS.isWhiteSpace x); [exact IH|reflexivity].
Qed.

Lemma trimEnd_head (u : JS.jsstring) :
  match u with [] => True | c :: _ => JS.isWhiteSpace c = false end ->
  match JS.trimEnd u with [] => True | c :: _ => JS.isWhiteSpace c = false end.
Proof.
  destruct u as [|c r]; [intros _; exact I|]. intros Hc.
  unfold JS.trimEnd. cbn [rev]. rewrite (trimStart_snoc _ _ Hc).
  rewrite rev_app_distr. simpl. exact Hc.
Qed.

Lemma trim_trim (s : JS.jsstring) : JS.trim (JS.trim s) = JS.trim s.
Proof.
  unfold JS.trim.
  rewrite (trimStart_fixed (JS.trimEnd (JS.trimStart s)))
    by apply trimEnd_head, trimStart_head.
  unfold JS.trimEnd. rewrite rev_involutive, trimStart_trimStart. reflexivity.
Qed.

(** *** The invariants of the wallet *)

Section WalletInvariants.
Context {num : Type} {N : JS.Number num} {H : JS.Host num}.

Lemma wallet_handle_keeps_selection (st : Wallet.State num) (e : WalletPage.Event) :
  WalletPage.selection_in_store st -> WalletPage.possible st e ->
  WalletPage.selection_in_store (WalletPage.handle st e).
Proof.
  unfold WalletPage.selection_in_store. intros Inv Hp.
  destruct e; simpl in *; try exact Inv; try exact I.
  - unfold Wallet.addTransaction.
    match goal with |- context [if ?c then _ else _] => destruct c end; simpl; [|exact Inv].
    destruct (Wallet.selectedTransactionId st); [|exact I].
    rewrite map_app. apply in_or_app. left. exact Inv.
  - apply in_map_iff in Hp. destruct Hp as [t [<- Ht]].
    apply in_map. unfold Wallet.getFilteredTransactions in Ht.
    apply filter_In in Ht. apply Ht.
  - unfold Wallet.deleteTransaction.
    destruct (Wallet.selectedTransactionId st) eqn:Hs; simpl; [exact I|].
    rewrite Hs. exact I.
  - unfold Wallet.setBudgetAmount.
    match goal with |- context [if ?c then _ else _] => destruct c end; simpl; exact Inv.
Qed.

Lemma wallet_handle_keeps_valid (st : Wallet.State num) (e : WalletPage.Event) :
  Forall WalletPage.valid (Wallet.transactions st) ->
  Forall WalletPage.valid (Wallet.transactions (WalletPage.handle st e)).
Proof.
  intros Inv. destruct e; simpl; try exact Inv.
  - unfold Wallet.addTransaction.
    destruct (JS.str_eqb (JS.trim (Wallet.formAmount st)) []); simpl; [exact Inv|].
    destruct (JS.nisNaN (JS.parseFloat (Wallet.formAmount st))) eqn:En; simpl; [exact Inv|].
    destruct (JS.nltb JS.nzero (JS.parseFloat (Wallet.formAmount st))) eqn:Ep; simpl;
      [|exact Inv].
    destruct (JS.str_eqb (JS.trim (Wallet.formDescription st)) []) eqn:Ed; simpl; [exact Inv|].
    apply Forall_app. split; [exact Inv|]. constructor; [|constructor].
    unfold WalletPage.valid. simpl. repeat split; try assumption.
    + intros Hd. rewrite Hd in Ed. discriminate Ed.
    + apply trim_trim.
  - unfold Wallet.deleteTransaction.
    destruct (Wallet.selectedTransactionId st); simpl; [|exact Inv].
    rewrite Forall_forall in *. intros t Ht. apply Inv.
    apply filter_In in Ht. apply Ht.
  - constructor.
  - unfold Wallet.setBudgetAmount.
    match goal with |- context [if ?c then _ else _] => destruct c end; simpl; exact Inv.
Qed.

Lemma wallet_handle_keeps_budget (st : Wallet.State num) (e : WalletPage.Event) :
  WalletPage.budget_unset_or_positive st ->
  WalletPage.budget_unset_or_positive (WalletPage.handle st e).
Proof.
  unfold WalletPage.budget_unset_or_positive.
  intros Inv. destruct e; simpl; try exact Inv.
  - unfold Wallet.addTransaction.
    match goal with |- context [if ?c then _ else _] => destruct c end; simpl; exact Inv.
  - unfold Wallet.deleteTransaction.
    destruct (Wallet.selectedTransactionId st); simpl; exact Inv.
  - unfold Wallet.setBudgetAmount.
    destruct (JS.nisNaN (JS.parseFloat (Wallet.budgetInput st))) eqn:En; simpl; [exact Inv|].
    destruct (JS.nltb JS.nzero (JS.parseFloat (Wallet.budgetInput st))) eqn:Ep; simpl;
      [|exact Inv].
    right. split; assumption.
Qed.

End WalletInvariants.

(** X13.  In every state the wallet can reach, the selected id, if there is one,
    is the id of a transaction of the collection. *)
Theorem wallet_selection_always_in_store
  (num : Type) (N : JS.Number num) (H : JS.Host num) (st : Wallet.State num) :
  WalletPage.Reachable st -> WalletPage.selection_in_store st.
Proof.
  induction 1 as [|st e _ IH Hp]; [exact I|].
  apply wallet_handle_keeps_selection; assumption.
Qed.

Lemma wallet_selection_always_in_store_witness :
  WalletPage.selection_in_store
    (WalletPage.handle
       (WalletPage.handle (H:=Reference.host) purchase_typed
          (WalletPage.ClickAdd 1735725600000 (JS.lit "1/1/2025, 10:00:00 AM")))
       (WalletPage.ClickRow 1735725600000)).
Proof.
  apply (wallet_selection_always_in_store Qcanon.Qc JS.exact Reference.host).
  apply WalletPage.reach_event; [apply WalletPage.reach_event|].
  - apply (WalletPage.reach_event (WalletPage.handle Wallet.initial
                                     (WalletPage.TypeAmount (JS.lit "12.50")))
                                  (WalletPage.TypeDescription (JS.lit " Train ")));
      [apply WalletPage.reach_event; [apply WalletPage.reach_initial|exact I]|exact I].
  - exact I.
  - vm_compute. left. reflexivity.
Defined.

(** X14.  In every state the wallet can reach, every stored transaction has an
    amount that is a number greater than 0 and a description that is not
    empty and has no white space at its ends; and the budget is the 0 of
    the start or a number greater than 0. *)
Theorem wallet_records_always_valid
  (num : Type) (N : JS.Number num) (H : JS.Host num) (st : Wallet.State num) :
  WalletPage.Reachable st ->
  Forall WalletPage.valid (Wallet.transactions st)
  /\ WalletPage.budget_unset_or_positive st.
Proof.
  induction 1 as [|st e _ [IH1 IH2] Hp].
  - split; [constructor|left; reflexivity].
  - split; [apply wallet_handle_keeps_valid, IH1|apply wallet_handle_keeps_budget, IH2].
Qed.

Lemma wallet_records_always_valid_witness :
  Forall WalletPage.valid
    (Wallet.transactions
       (WalletPage.handle (H:=Reference.host) purchase_typed
          (WalletPage.ClickAdd 1735725600000 (JS.lit "1/1/2025, 10:00:00 AM")))).
Proof.
  apply (wallet_records_always_valid Qcanon.Qc JS.exact Reference.host).
  apply WalletPage.reach_event; [|exact I].
  apply (WalletPage.reach_event (WalletPage.handle Wallet.initial
                                   (WalletPage.TypeAmount (JS.lit "12.50")))
                                (WalletPage.TypeDescription (JS.lit " Train ")));
    [apply WalletPage.reach_event; [apply WalletPage.reach_initial|exact I]|exact I].
Defined.

(* ================================================================== *)
(** * Disabled buttons *)
(* ================================================================== *)

Lemma reachable_selection_in_store {num : Type} {H : JS.Host num} (st : Todo.State Todo.Task) :
  Reachable st -> selection_in_store st.
Proof.
  induction 1 as [|st e _ IH Hp]; [exact I|].
  apply handle_keeps_selection_in_store; assumption.
Qed.

Lemma wallet_reachable_selection_in_store {num : Type} {N : JS.Number num} {H : JS.Host num}
      (st : Wallet.State num) :
  WalletPage.Reachable st -> WalletPage.selection_in_store st.
Proof.
  induction 1 as [|st e _ IH Hp]; [exact I|].
  apply wallet_handle_keeps_selection; assumption.
Qed.

Lemma no_tasks {A : Type} (l : list A) : (length l =? 0)%nat = true -> l = [].
Proof. destruct l; [reflexivity|discriminate]. Qed.

(** X15.  In every state the pages can reach, a button of the footer that
    is disabled has a handler that would leave every cell of the page as
    it is, but for one: the handler of Stats would open the statistics
    dialog, as on the first render, where no task is there to count.  No
    handler but those of Save and Export CSV hands a file to the browser;
    these two, disabled, would hand over the file of an empty
    collection. *)
Theorem disabled_buttons_and_their_handlers
  (num : Type) (N : JS.Number num) (H : JS.Host num) (P : JS.NumberText num) :
  (forall (st : Todo.State Todo.Task) (b : Todo.Button) (iso1 iso2 : JS.jsstring),
     Reachable st -> Todo.disabled b st = true ->
     fst (Todo.onClick iso1 iso2 b st)
     = match b with
       | Todo.ShowStats => Todo.setShowStatsDialog true st
       | _ => st
       end
     /\ snd (Todo.onClick iso1 iso2 b st)
        = match b with
          | Todo.Save =>
              Some {| Todo.download :=
                        JS.lit "todo-tasks-" ++ Todo.beforeT iso2 ++ JS.lit ".json";
                      Todo.content := JS.JSON_stringify (exportDocument iso1 []) |}
          | _ => None
          end)
  /\ (forall iso1 iso2 : JS.jsstring,
     Reachable (@Todo.initial Todo.Task)
     /\ Todo.disabled Todo.ShowStats (@Todo.initial Todo.Task) = true
     /\ fst (Todo.onClick iso1 iso2 Todo.ShowStats Todo.initial) <> Todo.initial)
  /\ (forall (st : Wallet.State num) (b : Wallet.Button) (iso : JS.jsstring),
     WalletPage.Reachable st -> Wallet.disabled b st = true ->
     fst (Wallet.onClick iso b st) = st
     /\ snd (Wallet.onClick iso b st)
        = match b with
          | Wallet.ExportCSV =>
              Some {| Wallet.download :=
                        JS.lit "wallet-transactions-" ++ Todo.beforeT iso ++ JS.lit ".csv";
                      Wallet.content := JS.lit "Date,Type,Amount,Category,Description" |}
          | _ => None
          end).
Proof.
  split; [|split].
  - intros st b iso1 iso2 Hr Hd.
    apply reachable_selection_in_store in Hr. unfold selection_in_store in Hr.
    destruct b; cbn [Todo.disabled] in Hd; cbn [Todo.onClick fst snd].
    + split; [|reflexivity].
      unfold Todo.delete_task. destruct (Todo.selectedTaskId st); [discriminate|reflexivity].
    + split; [|reflexivity].
      unfold Todo.mark_done. destruct (Todo.selectedTaskId st); [discriminate|reflexivity].
    + split; [|reflexivity].
      apply no_tasks in Hd. unfold Todo.clear_task.
      destruct st as [l n s c p q fc fp d]. simpl in *. subst l.
      destruct s as [i|]; [destruct Hr|reflexivity].
    + split; [|reflexivity].
      apply no_tasks in Hd. unfold Todo.sortTasksByPriority. rewrite Hd. simpl.
      destruct st as [l n s c p q fc fp d]. simpl in *. subst l. reflexivity.
    + split; reflexivity.
    + split; [reflexivity|].
      apply no_tasks in Hd. unfold Todo.saveTasksToFile, Todo.asObjects, exportDocument.
      cbn [Todo.setTasks Todo.tasks]. rewrite Hd. reflexivity.
  - intros iso1 iso2. split; [apply reach_initial|]. split; [reflexivity|].
    cbn [Todo.onClick fst]. intros F.
    apply (f_equal Todo.showStatsDialog) in F. discriminate F.
  - intros st b iso Hr Hd.
    apply wallet_reachable_selection_in_store in Hr.
    unfold WalletPage.selection_in_store in Hr.
    destruct b; cbn [Wallet.disabled] in Hd; cbn [Wallet.onClick fst snd].
    + split; [|reflexivity].
      unfold Wallet.deleteTransaction.
      destruct (Wallet.selectedTransactionId st); [discriminate|reflexivity].
    + split; [|reflexivity].
      apply no_tasks in Hd. unfold Wallet.clearAllTransactions.
      destruct st as [l a d s c k q fc ft tab b bi]. simpl in *. subst l.
      destruct s as [i|]; [destruct Hr|reflexivity].
    + split; [reflexivity|].
      apply no_tasks in Hd. unfold Wallet.exportToCSV. rewrite Hd. reflexivity.
Qed.

Lemma disabled_buttons_and_their_handlers_witness :
  fst (Todo.onClick (N:=JS.exact) (H:=Reference.host)
         (JS.lit "2025-01-01T10:00:02.000Z") (JS.lit "2025-01-01T10:00:02.001Z")
         Todo.ClearAll (handle Todo.initial (TypeTask (JS.lit "Buy milk"))))
  = handle Todo.initial (TypeTask (JS.lit "Buy milk"))
  /\ Todo.showStatsDialog
       (fst (Todo.onClick (N:=JS.exact) (H:=Reference.host)
               (JS.lit "2025-01-01T10:00:02.000Z") (JS.lit "2025-01-01T10:00:02.001Z")
               Todo.ShowStats (handle Todo.initial (TypeTask (JS.lit "Buy milk")))))
     = true
  /\ option_map Todo.download
       (snd (Todo.onClick (N:=JS.exact) (H:=Reference.host)
               (JS.lit "2025-01-01T10:00:02.000Z") (JS.lit "2025-01-01T10:00:02.001Z")
               Todo.Save (handle Todo.initial (TypeTask (JS.lit "Buy milk")))))
     = Some (JS.lit "todo-tasks-2025-01-01.json").
Proof.
  assert (R : Reachable (H:=Reference.host) (handle Todo.initial (TypeTask (JS.lit "Buy milk"))))
    by (apply reach_event; [apply reach_initial|exact I]).
  destruct (disabled_buttons_and_their_handlers Qcanon.Qc JS.exact Reference.host integerText)
    as [D _].
  split; [|split].
  - exact (proj1 (D _ Todo.ClearAll _ _ R eq_refl)).
  - rewrite (proj1 (D _ Todo.ShowStats _ _ R eq_refl)). reflexivity.
  - rewrite (proj2 (D _ Todo.Save _ _ R eq_refl)). vm_compute. reflexivity.
Defined.

(* ================================================================== *)
(** * Distinct ids *)
(* ================================================================== *)

Lemma NoDup_map_filter {A : Type} (key : A -> Z) (p : A -> bool) (l : list A) :
  NoDup (map key l) -> NoDup (map key (filter p l)).
Proof.
  induction l as [|x l IH]; simpl; intros Hnd; [constructor|].
  inversion Hnd as [|? ? Hx Hl]; subst. destruct (p x); simpl; [|apply IH, Hl].
  constructor; [|apply IH, Hl].
  intros Hin. apply Hx. apply in_map_iff in Hin. destruct Hin as [y [Hy Hin]].
  apply filter_In in Hin. rewrite <- Hy. apply in_map, Hin.
Qed.

Lemma NoDup_snoc (l : list Z) (x : Z) : NoDup l -> ~ In x l -> NoDup (l ++ [x]).
Proof.
  intros Hl Hx. apply NoDup_rev in Hl. rewrite <- (rev_involutive (l ++ [x])).
  apply NoDup_rev. rewrite rev_app_distr. simpl. constructor; [|exact Hl].
  intros Hin. apply Hx. apply in_rev, Hin.
Qed.

Section DistinctIds.
Context {num : Type} {N : JS.Number num} {H : JS.Host num}.

Lemma handle_keeps_ids_distinct (st : Todo.State Todo.Task) (e : Event) :
  NoDup (map Todo.id (Todo.tasks st)) -> fresh st e ->
  NoDup (map Todo.id (Todo.tasks (handle st e))).
Proof.
  intros Inv Hf. destruct e; simpl in *; try exact Inv.
  - unfold Todo.add_task.
    destruct (negb (JS.str_eqb (JS.trim (Todo.newTask st)) [])); simpl; [|exact Inv].
    rewrite map_app. apply NoDup_snoc; assumption.
  - unfold Todo.delete_task. destruct (Todo.selectedTaskId st); simpl; [|exact Inv].
    apply NoDup_map_filter, Inv.
  - unfold Todo.mark_done. destruct (Todo.selectedTaskId st); simpl; [|exact Inv].
    rewrite ids_after_toggle. exact Inv.
  - constructor.
  - eapply Permutation_NoDup; [|exact Inv].
    apply Permutation_map. apply (Array_sort_perm rank).
  - exact (proj1 Hf).
Qed.

Lemma wallet_handle_keeps_ids_distinct (st : Wallet.State num) (e : WalletPage.Event) :
  NoDup (map Wallet.id (Wallet.transactions st)) -> wallet_fresh st e ->
  NoDup (map Wallet.id (Wallet.transactions (WalletPage.handle st e))).
Proof.
  intros Inv Hf. destruct e; simpl in *; try exact Inv.
  - unfold Wallet.addTransaction.
    match goal with |- context [if ?c then _ else _] => destruct c end; simpl; [|exact Inv].
    rewrite map_app. apply NoDup_snoc; assumption.
  - unfold Wallet.deleteTransaction.
    destruct (Wallet.selectedTransactionId st); simpl; [|exact Inv].
    apply NoDup_map_filter, Inv.
  - constructor.
  - unfold Wallet.setBudgetAmount.
    match goal with |- context [if ?c then _ else _] => destruct c end; simpl; exact Inv.
Qed.

End DistinctIds.

(** Beyond the safe integers two integers can be one number: a file
    with the ids 2^53 + 1 and 2^53 gives two tasks with the same id. *)
Lemma unsafe_ids_merge : JS.float_of_Z (2 ^ 53 + 1) = JS.float_of_Z (2 ^ 53).
Proof. vm_compute. reflexivity. Qed.

(** X16.  While every addition happens at a reading of the clock that is not
    already an id of the collection, and every imported file has tasks
    whose ids are distinct safe integers, the ids of the collection are
    distinct in every state the pages reach, and Delete Selected, with a
    record selected, removes exactly one record. *)
Theorem ids_distinct_while_clock_is_fresh (num : Type) (N : JS.Number num) (H : JS.Host num) :
  (forall st : Todo.State Todo.Task,
     ReachableFresh st ->
     NoDup (map Todo.id (Todo.tasks st))
     /\ (Todo.selectedTaskId st <> None ->
         (length (Todo.tasks (Todo.delete_task st)) + 1 = length (Todo.tasks st))%nat))
  /\ (forall st : Wallet.State num,
     WalletReachableFresh st ->
     NoDup (map Wallet.id (Wallet.transactions st))
     /\ (Wallet.selectedTransactionId st <> None ->
         (length (Wallet.transactions (Wallet.deleteTransaction st)) + 1
          = length (Wallet.transactions st))%nat)).
Proof.
  split.
  - intros st Hr.
    assert (Inv : NoDup (map Todo.id (Todo.tasks st)) /\ selection_in_store st).
    { induction Hr as [|st e _ [IH1 IH2] Hp Hf].
      - split; [constructor|exact I].
      - split; [apply handle_keeps_ids_distinct; assumption|].
        apply handle_keeps_selection_in_store; assumption. }
    destruct Inv as [Hnd Hsel]. split; [exact Hnd|].
    unfold selection_in_store in Hsel. unfold Todo.delete_task.
    destruct (Todo.selectedTaskId st) as [sel|]; [|intros F; contradiction F; reflexivity].
    intros _. simpl.
    pose proof (length_filter_out_key Todo.id sel (Todo.tasks st)) as L.
    rewrite (count_occ_once _ _ Hnd Hsel) in L. exact L.
  - intros st Hr.
    assert (Inv : NoDup (map Wallet.id (Wallet.transactions st))
                  /\ WalletPage.selection_in_store st).
    { induction Hr as [|st e _ [IH1 IH2] Hp Hf].
      - split; [constructor|exact I].
      - split; [apply wallet_handle_keeps_ids_distinct; assumption|].
        apply wallet_handle_keeps_selection; assumption. }
    destruct Inv as [Hnd Hsel]. split; [exact Hnd|].
    unfold WalletPage.selection_in_store in Hsel. unfold Wallet.deleteTransaction.
    destruct (Wallet.selectedTransactionId st) as [sel|];
      [|intros F; contradiction F; reflexivity].
    intros _. simpl.
    pose proof (length_filter_out_key Wallet.id sel (Wallet.transactions st)) as L.
    rewrite (count_occ_once _ _ Hnd Hsel) in L. exact L.
Qed.

Lemma ids_distinct_while_clock_is_fresh_witness :
  (map Todo.id (Todo.tasks imported_then_added) = [7; 8; 1735725600000]
   /\ NoDup (map Todo.id (Todo.tasks imported_then_added))
   /\ map Todo.id (Todo.tasks (Todo.delete_task imported_then_added)) = [7; 1735725600000]
   /\ (length (Todo.tasks (Todo.delete_task imported_then_added)) + 1
       = length (Todo.tasks imported_then_added))%nat)
  /\ (map Wallet.id (Wallet.transactions two_purchases_entered)
      = [1735725600000; 1735725601000]
     /\ NoDup (map Wallet.id (Wallet.transactions two_purchases_entered))
     /\ (length (Wallet.transactions (Wallet.deleteTransaction two_purchases_entered)) + 1
         = length (Wallet.transactions two_purchases_entered))%nat).
Proof.
  destruct (ids_distinct_while_clock_is_fresh Qcanon.Qc JS.exact Reference.host) as [T W].
  split.
  - assert (R : ReachableFresh (H:=Reference.host) imported_then_added).
    { unfold imported_then_added.
      apply fresh_event; [apply fresh_event; [apply fresh_event; [apply fresh_event|..]|..]|..].
      - apply fresh_initial.
      - exact I.
      - split; [|repeat constructor].
        constructor; [intros [F|[]]; discriminate F|].
        constructor; [intros []|constructor].
      - exact I.
      - exact I.
      - exact I.
      - intros [F|[F|[]]]; discriminate F.
      - vm_compute. right. left. reflexivity.
      - exact I. }
    destruct (T _ R) as [Hnd Hdel].
    split; [reflexivity|]. split; [exact Hnd|]. split; [reflexivity|].
    apply Hdel. discriminate.
  - assert (R : WalletReachableFresh (H:=Reference.host) two_purchases_entered).
    { unfold two_purchases_entered.
      apply wallet_fresh_event;
        [apply wallet_fresh_event;
           [apply wallet_fresh_event;
              [apply wallet_fresh_event; [apply wallet_fresh_event|..]|..]|..]|..].
      - change purchase_typed
          with (WalletPage.handle (H:=Reference.host)
                  (WalletPage.handle (H:=Reference.host) Wallet.initial
                     (WalletPage.TypeAmount (JS.lit "12.50")))
                  (WalletPage.TypeDescription (JS.lit " Train "))).
        apply wallet_fresh_event; [apply wallet_fresh_event|..];
          [apply wallet_fresh_initial|exact I..].
      - exact I.
      - intros [].
      - exact I.
      - exact I.
      - exact I.
      - exact I.
      - exact I.
      - vm_compute. intros [F|[]]. discriminate F.
      - vm_compute. left. reflexivity.
      - exact I. }
    destruct (W _ R) as [Hnd Hdel].
    split; [vm_compute; reflexivity|]. split; [exact Hnd|].
    apply Hdel. vm_compute. discriminate.
Defined.

(* ================================================================== *)
(** * The figures and the charts of the wallet *)
(* ================================================================== *)

Section RunningTotals.
Context {num : Type} {N : JS.Number num} {H : JS.Host num}.

Lemma addTransaction_passes (now : Z) (nowText : JS.jsstring) (st : Wallet.State num) :
  form_passes st ->
  Wallet.transactions (Wallet.addTransaction now nowText st)
  = Wallet.transactions st
    ++ [ {| Wallet.id := now;
            Wallet.amount := JS.parseFloat (Wallet.formAmount st);
            Wallet.type := Wallet.transactionType st;
            Wallet.description := JS.trim (Wallet.formDescription st);
            Wallet.category := Wallet.formCategory st;
            Wallet.createdAt := nowText |} ]
  /\ Wallet.budget (Wallet.addTransaction now nowText st) = Wallet.budget st.
Proof.
  intros [Ha [Hn [Hp Hd]]]. unfold Wallet.addTransaction. rewrite Hn, Hp.
  destruct (JS.str_eqb (JS.trim (Wallet.formAmount st)) []) eqn:Ea.
  { apply str_eqb_eq in Ea. contradiction. }
  destruct (JS.str_eqb (JS.trim (Wallet.formDescription st)) []) eqn:Ed.
  { apply str_eqb_eq in Ed. contradiction. }
  split; reflexivity.
Qed.

End RunningTotals.

Lemma largest_after_expense {num : Type} {N : JS.Number num} (m : list num) (a : num) :
  match m ++ [a] with
  | [] => JS.nzero
  | x :: others => Wallet.Math_max x others
  end
  = match m with
    | [] => a
    | x :: others => JS.nmax (Wallet.Math_max x others) a
    end.
Proof.
  destruct m as [|x r]; [reflexivity|].
  cbn [app]. unfold Wallet.Math_max. rewrite fold_left_app. reflexivity.
Qed.

(** X17.  Every figure follows an addition by one operation on the figure of
    before, on the numbers of the host as on any others: the balance gains
    the amount of an income and loses the amount of an expense; the total
    of its type gains the amount and the other total stays; the largest
    expense becomes the larger of itself and a new expense (the new expense
    when it is the first); the sum of the new expense's category gains the
    amount, as a new last entry when the category had none; and the count
    of transactions grows by one. *)
Theorem figures_follow_additions
  (num : Type) (N : JS.Number num) (H : JS.Host num)
  (st : Wallet.State num) (now : Z) (nowText : JS.jsstring) :
  form_passes st ->
  Wallet.getCurrentBalance (Wallet.addTransaction now nowText st)
  = match Wallet.transactionType st with
    | Wallet.income =>
        JS.nadd (Wallet.getCurrentBalance st) (JS.parseFloat (Wallet.formAmount st))
    | Wallet.expense =>
        JS.nsub (Wallet.getCurrentBalance st) (JS.parseFloat (Wallet.formAmount st))
    end
  /\ Wallet.totalIncome (Wallet.getAnalyticsData (Wallet.addTransaction now nowText st))
     = match Wallet.transactionType st with
       | Wallet.income =>
           JS.nadd (Wallet.totalIncome (Wallet.getAnalyticsData st))
                   (JS.parseFloat (Wallet.formAmount st))
       | Wallet.expense => Wallet.totalIncome (Wallet.getAnalyticsData st)
       end
  /\ Wallet.totalExpenses (Wallet.getAnalyticsData (Wallet.addTransaction now nowText st))
     = match Wallet.transactionType st with
       | Wallet.income => Wallet.totalExpenses (Wallet.getAnalyticsData st)
       | Wallet.expense =>
           JS.nadd (Wallet.totalExpenses (Wallet.getAnalyticsData st))
                   (JS.parseFloat (Wallet.formAmount st))
       end
  /\ Wallet.largestExpense (Wallet.getAnalyticsData (Wallet.addTransaction now nowText st))
     = match Wallet.transactionType st with
       | Wallet.income => Wallet.largestExpense (Wallet.getAnalyticsData st)
       | Wallet.expense =>
           match filter is_expense (Wallet.transactions st) with
           | [] => JS.parseFloat (Wallet.formAmount st)
           | _ :: _ => JS.nmax (Wallet.largestExpense (Wallet.getAnalyticsData st))
                               (JS.parseFloat (Wallet.formAmount st))
           end
       end
  /\ Wallet.expensesByCategory (Wallet.addTransaction now nowText st)
     = match Wallet.transactionType st with
       | Wallet.income => Wallet.expensesByCategory st
       | Wallet.expense =>
           Wallet.setEntry (Wallet.formCategory st)
             (JS.nadd (Wallet.orZero (Wallet.getEntry (Wallet.formCategory st)
                                        (Wallet.expensesByCategory st)))
                      (JS.parseFloat (Wallet.formAmount st)))
             (Wallet.expensesByCategory st)
       end
  /\ Wallet.spent (Wallet.getBudgetData (Wallet.addTransaction now nowText st))
     = Wallet.totalExpenses (Wallet.getAnalyticsData (Wallet.addTransaction now nowText st))
  /\ Wallet.totalTransactions (Wallet.getAnalyticsData (Wallet.addTransaction now nowText st))
     = S (Wallet.totalTransactions (Wallet.getAnalyticsData st)).
Proof.
  intros Hp. destruct (addTransaction_passes now nowText st Hp) as [Ht _].
  unfold Wallet.getCurrentBalance, Wallet.getAnalyticsData, Wallet.getBudgetData,
    Wallet.expensesByCategory, is_expense.
  cbn [Wallet.totalIncome Wallet.totalExpenses Wallet.totalTransactions Wallet.spent
       Wallet.largestExpense].
  rewrite Ht. rewrite !filter_app, !fold_left_app, length_app.
  cbn [filter Wallet.type].
  set (es := filter (fun t => Wallet.TransactionType_beq (Wallet.type t) Wallet.expense)
                    (Wallet.transactions st)).
  destruct (Wallet.transactionType st); cbn [Wallet.TransactionType_beq].
  - rewrite !app_nil_r. cbn. repeat split; try reflexivity; lia.
  - rewrite map_app. cbn [map Wallet.amount].
    rewrite largest_after_expense.
    repeat split; try reflexivity; try (cbn; lia).
    destruct es; reflexivity.
Qed.

Lemma figures_follow_additions_witness :
  Wallet.getCurrentBalance
    (Wallet.addTransaction (H:=Reference.host) 1735725600000 (JS.lit "1/1/2025, 10:00:00 AM")
       purchase_typed)
  = JS.nsub (Wallet.getCurrentBalance purchase_typed)
            (JS.parseFloat (Wallet.formAmount purchase_typed)).
Proof.
  refine (proj1 (figures_follow_additions Qcanon.Qc JS.exact Reference.host purchase_typed
                   1735725600000 (JS.lit "1/1/2025, 10:00:00 AM") _)).
  unfold form_passes. repeat split; try (vm_compute; reflexivity); vm_compute; discriminate.
Defined.

Section PieFacts.
Context {num : Type} {N : JS.Number num}.

Lemma setEntry_not_empty (c : Wallet.Category) (v : num) (acc : list (Wallet.Category * num)) :
  Wallet.setEntry c v acc <> [].
Proof.
  destruct acc as [|[k w] acc]; simpl; [discriminate|].
  destruct (Wallet.Category_beq c k); discriminate.
Qed.

Lemma reduce_not_empty (es : list (Wallet.Transaction num))
      (acc : list (Wallet.Category * num)) :
  es <> [] \/ acc <> [] ->
  fold_left (fun acc transaction =>
               let category := Wallet.category transaction in
               Wallet.setEntry category
                 (JS.nadd (Wallet.orZero (Wallet.getEntry category acc))
                          (Wallet.amount transaction)) acc)
            es acc <> [].
Proof.
  revert acc. induction es as [|t r IH]; intros acc Hne.
  - simpl. destruct Hne as [Hne|Hne]; [contradiction Hne; reflexivity|exact Hne].
  - simpl. apply IH. right. apply setEntry_not_empty.
Qed.

Context {E : JS.ExactAdd num}.

Lemma sum_after_setEntry (c : Wallet.Category) (a : num) (acc : list (Wallet.Category * num)) :
  fold_right (fun kv s => JS.nadd (snd kv) s) JS.nzero
    (Wallet.setEntry c (JS.nadd (Wallet.orZero (Wallet.getEntry c acc)) a) acc)
  = JS.nadd (fold_right (fun kv s => JS.nadd (snd kv) s) JS.nzero acc) a.
Proof.
  induction acc as [|[k w] acc IH].
  - cbn [Wallet.getEntry Wallet.setEntry Wallet.orZero fold_right snd]. apply nadd_0_r.
  - cbn [Wallet.getEntry Wallet.setEntry]. destruct (Wallet.Category_beq c k).
    + rewrite orZero_Some. cbn [fold_right snd].
      rewrite <- !JS.nadd_assoc. f_equal. apply JS.nadd_comm.
    + cbn [fold_right snd]. rewrite IH. apply JS.nadd_assoc.
Qed.

Lemma sum_after_reduce (es : list (Wallet.Transaction num))
      (acc : list (Wallet.Category * num)) :
  fold_right (fun kv s => JS.nadd (snd kv) s) JS.nzero
    (fold_left (fun acc transaction =>
                  let category := Wallet.category transaction in
                  Wallet.setEntry category
                    (JS.nadd (Wallet.orZero (Wallet.getEntry category acc))
                             (Wallet.amount transaction)) acc)
               es acc)
  = fold_left (fun sum t => JS.nadd sum (Wallet.amount t)) es
      (fold_right (fun kv s => JS.nadd (snd kv) s) JS.nzero acc).
Proof.
  revert acc. induction es as [|t r IH]; intros acc; [reflexivity|].
  cbn [fold_left]. rewrite IH. cbv zeta. rewrite sum_after_setEntry. reflexivity.
Qed.

End PieFacts.

Lemma sum_of_slices_entries {num : Type} {N : JS.Number num}
      (l : list (Wallet.Category * num)) :
  sum_of_slices
    (map (fun '(category, amount) =>
            {| Wallet.name := category; Wallet.value := amount;
               Wallet.color := Wallet.getCategoryColor category |}) l)
  = fold_right (fun kv s => JS.nadd (snd kv) s) JS.nzero l.
Proof.
  induction l as [|[c v] l IH]; [reflexivity|].
  cbn [map]. unfold sum_of_slices in *. cbn [fold_right Wallet.value snd].
  rewrite IH. reflexivity.
Qed.

(** X18.  The charts agree with the statistics.  The bars are the total income
    and the total expenses of the statistics, and are drawn when there is a
    transaction; the pie is drawn exactly when there is an expense; and in
    exact arithmetic the slices of the pie add up to the total expenses. *)
Theorem charts_agree_with_statistics
  (num : Type) (N : JS.Number num) (st : Wallet.State num) :
  Wallet.getIncomeVsExpenseData st
  = [ {| Wallet.periodName := JS.lit "Current Period";
         Wallet.periodIncome := Wallet.totalIncome (Wallet.getAnalyticsData st);
         Wallet.periodExpense := Wallet.totalExpenses (Wallet.getAnalyticsData st) |} ]
  /\ (Wallet.barsDrawn st = true <-> Wallet.transactions st <> [])
  /\ (Wallet.pieDrawn st = true <-> exists t, In t (Wallet.transactions st) /\ is_expense t = true)
  /\ (JS.ExactAdd num ->
      sum_of_slices (Wallet.getCategoryDistribution st)
      = Wallet.totalExpenses (Wallet.getAnalyticsData st)).
Proof.
  split; [reflexivity|]. split; [|split].
  - unfold Wallet.barsDrawn. destruct (Wallet.transactions st); simpl.
    + split; [discriminate|intros F; contradiction F; reflexivity].
    + split; [discriminate|reflexivity].
  - unfold Wallet.pieDrawn, Wallet.getCategoryDistribution, Wallet.expensesByCategory.
    rewrite length_map. fold (@is_expense num).
    destruct (filter is_expense (Wallet.transactions st)) as [|t r] eqn:F.
    + simpl. split; [discriminate|]. intros [t [Hin Ht]].
      assert (Hf : In t (filter is_expense (Wallet.transactions st)))
        by (apply filter_In; split; assumption).
      rewrite F in Hf. destruct Hf.
    + split.
      * intros _. exists t.
        assert (Hf : In t (filter is_expense (Wallet.transactions st)))
          by (rewrite F; left; reflexivity).
        apply filter_In in Hf. exact Hf.
      * intros _.
        match goal with |- negb (length ?l =? 0)%nat = true =>
          assert (Hne : l <> []) by (apply reduce_not_empty; left; discriminate);
          destruct l; [contradiction Hne; reflexivity|reflexivity] end.
  - intros E. unfold Wallet.getCategoryDistribution.
    rewrite sum_of_slices_entries.
    unfold Wallet.expensesByCategory. rewrite sum_after_reduce. reflexivity.
Qed.

Lemma charts_agree_with_statistics_witness :
  sum_of_slices (Wallet.getCategoryDistribution (@salary_and_purchases Qcanon.Qc JS.exact))
  = Wallet.totalExpenses (Wallet.getAnalyticsData (@salary_and_purchases Qcanon.Qc JS.exact)).
Proof.
  exact (proj2 (proj2 (proj2
    (charts_agree_with_statistics Qcanon.Qc JS.exact salary_and_purchases))) exact_add).
Defined.

(* ================================================================== *)
(** * The budget view *)
(* ================================================================== *)

Lemma float_ltb_leb (x y : float) : PrimFloat.ltb x y = true -> PrimFloat.leb x y = true.
Proof.
  rewrite FloatAxioms.ltb_spec, FloatAxioms.leb_spec.
  unfold SpecFloat.SFltb, SpecFloat.SFleb.
  destruct (SpecFloat.SFcompare (Prim2SF x) (Prim2SF y)) as [[| |]|]; congruence.
Qed.

(** [Math.min(100, p)] is NaN or at most 100, and clamping it again
    changes nothing. *)
Lemma float_min_hundred (p : float) :
  (PrimFloat.is_nan (JS.float_min 100%float p) = true
   \/ PrimFloat.leb (JS.float_min 100%float p) 100%float = true)
  /\ JS.float_min 100%float (JS.float_min 100%float p) = JS.float_min 100%float p.
Proof.
  unfold JS.float_min at 1 2 4 5.
  change (PrimFloat.is_nan 100%float) with false. cbn [orb].
  change (PrimFloat.classify 100%float) with PNormal. cbv iota.
  destruct (PrimFloat.is_nan p) eqn:Hn.
  { split; [left; reflexivity|reflexivity]. }
  destruct (PrimFloat.ltb 100%float p) eqn:H1.
  { split; [right; reflexivity|reflexivity]. }
  destruct (PrimFloat.ltb p 100%float) eqn:H2.
  - split; [right; apply float_ltb_leb, H2|].
    unfold JS.float_min. change (PrimFloat.is_nan 100%float) with false. cbn [orb].
    rewrite Hn, H1, H2. reflexivity.
  - split; [right; reflexivity|reflexivity].
Qed.

(** [Math.max(0, r)] is NaN or at least 0. *)
Lemma float_max_zero (r : float) :
  PrimFloat.is_nan (JS.float_max PrimFloat.zero r) = true
  \/ PrimFloat.leb PrimFloat.zero (JS.float_max PrimFloat.zero r) = true.
Proof.
  unfold JS.float_max.
  change (PrimFloat.is_nan PrimFloat.zero) with false. cbn [orb].
  change (PrimFloat.classify PrimFloat.zero) with PZero. cbv iota.
  destruct (PrimFloat.is_nan r) eqn:Hn; [left; reflexivity|].
  destruct (PrimFloat.ltb PrimFloat.zero r) eqn:H1; [right; apply float_ltb_leb, H1|].
  destruct (PrimFloat.ltb r PrimFloat.zero); right; reflexivity.
Qed.

(** X20.  On the numbers of the host, whatever the amounts and the budget: the
    percentage of the budget view is NaN or at most 100, the amount
    remaining is NaN or at least 0, and the progress bar is drawn when the
    notice is, as wide as the percentage (the second clamp changes
    nothing), green and yellow like the notice and red where the notice is
    orange or red. *)
Theorem budget_clamps_binary64 (st : Wallet.State float) :
  (PrimFloat.is_nan (Wallet.percentageSpent (Wallet.getBudgetData st)) = true
   \/ PrimFloat.leb (Wallet.percentageSpent (Wallet.getBudgetData st)) 100%float = true)
  /\ (PrimFloat.is_nan (Wallet.remaining (Wallet.getBudgetData st)) = true
      \/ PrimFloat.leb PrimFloat.zero (Wallet.remaining (Wallet.getBudgetData st)) = true)
  /\ Wallet.progressBar st
     = match Wallet.budgetNotice st with
       | Some (band, _) =>
           Some (match band with Wallet.orange => Wallet.red | b => b end,
                 Wallet.percentageSpent (Wallet.getBudgetData st))
       | None => None
       end.
Proof.
  split; [apply float_min_hundred|]. split; [apply float_max_zero|].
  unfold Wallet.progressBar, Wallet.budgetNotice, Wallet.noticeBand.
  destruct (JS.nltb JS.nzero (Wallet.budget st)); [|reflexivity].
  f_equal. f_equal.
  - destruct (JS.nleb (Wallet.percentageSpent (Wallet.getBudgetData st)) (JS.nofZ 50));
      [reflexivity|].
    destruct (JS.nleb (Wallet.percentageSpent (Wallet.getBudgetData st)) (JS.nofZ 80));
      [reflexivity|].
    destruct (JS.nltb (Wallet.percentageSpent (Wallet.getBudgetData st)) JS.nhundred);
      reflexivity.
  - apply float_min_hundred.
Qed.

(* ================================================================== *)
(** * The export of the wallet *)
(* ================================================================== *)

Lemma splitOn_piece (c : N) (x rest : JS.jsstring) :
  ~ In c x ->
  splitOn c (x ++ c :: rest) = x :: splitOn c rest.
Proof.
  induction x as [|a x IH]; intros Hno.
  - simpl. rewrite N.eqb_refl. reflexivity.
  - cbn [app splitOn]. destruct (N.eqb a c) eqn:E.
    + apply N.eqb_eq in E. exfalso. apply Hno. left. exact E.
    + rewrite IH; [reflexivity|]. intros Hin. apply Hno. right. exact Hin.
Qed.

Lemma splitOn_last (c : N) (x : JS.jsstring) : ~ In c x -> splitOn c x = [x].
Proof.
  induction x as [|a x IH]; intros Hno; [reflexivity|].
  cbn [splitOn]. destruct (N.eqb a c) eqn:E.
  - apply N.eqb_eq in E. exfalso. apply Hno. left. exact E.
  - rewrite IH; [reflexivity|]. intros Hin. apply Hno. right. exact Hin.
Qed.

(** Splitting what [join] made gives the pieces back, when no piece
    contains the separator. *)
Lemma splitOn_join (c : N) (x : JS.jsstring) (l : list JS.jsstring) :
  Forall (fun piece => ~ In c piece) (x :: l) ->
  splitOn c (JS.join [c] (x :: l)) = x :: l.
Proof.
  revert x. induction l as [|y l IH]; intros x Hall.
  - simpl. apply splitOn_last. inversion Hall; assumption.
  - inversion Hall as [|? ? Hx Hrest]; subst.
    change (JS.join [c] (x :: y :: l)) with (x ++ c :: JS.join [c] (y :: l)).
    rewrite (splitOn_piece c x _ Hx), (IH y Hrest). reflexivity.
Qed.

Lemma no_line_feed_in_row {num : Type} {N : JS.Number num} {P : JS.NumberText num}
      (t : Wallet.Transaction num) :
  ~ In 10%N (Wallet.createdAt t) -> ~ In 10%N (Wallet.description t) ->
  ~ In 10%N (JS.Number_toString (Wallet.amount t)) ->
  ~ In 10%N (Wallet.csvRow t).
Proof.
  intros Hc Hd Ha. unfold Wallet.csvRow. cbn [JS.join].
  rewrite !in_app_iff. cbn [In].
  assert (Hk : ~ In 10%N (Wallet.typeName (Wallet.type t)))
    by (destruct (Wallet.type t); vm_compute; intuition discriminate).
  assert (Hg : ~ In 10%N (Wallet.categoryName (Wallet.category t)))
    by (destruct (Wallet.category t); vm_compute; intuition discriminate).
  assert (Hcomma : ~ In 10%N (JS.lit ",")) by (vm_compute; intuition discriminate).
  intuition discriminate.
Qed.

(** The lines of the export. *)
Lemma csv_lines
  (num : Type) (N : JS.Number num) (P : JS.NumberText num)
  (iso : JS.jsstring) (st : Wallet.State num) :
  Forall (fun t => ~ In 10%N (Wallet.createdAt t)
                   /\ ~ In 10%N (Wallet.description t)
                   /\ ~ In 10%N (JS.Number_toString (Wallet.amount t)))
         (Wallet.transactions st) ->
  splitOn 10 (Wallet.content (Wallet.exportToCSV iso st))
  = JS.lit "Date,Type,Amount,Category,Description" :: map Wallet.csvRow (Wallet.transactions st).
Proof.
  intros Hall. unfold Wallet.exportToCSV. cbn [Wallet.content].
  change (JS.join (JS.lit ",")
            [JS.lit "Date"; JS.lit "Type"; JS.lit "Amount"; JS.lit "Category";
             JS.lit "Description"])
    with (JS.lit "Date,Type,Amount,Category,Description").
  apply splitOn_join. constructor.
  - vm_compute. intuition discriminate.
  - apply Forall_forall. intros row Hrow. apply in_map_iff in Hrow.
    destruct Hrow as [t [<- Ht]]. rewrite Forall_forall in Hall.
    destruct (Hall t Ht) as [Hc [Hd Ha]]. apply no_line_feed_in_row; assumption.
Qed.

Lemma app_separator_inj {A : Type} (c : A) (x1 x2 r1 r2 : list A) :
  ~ In c x1 -> ~ In c x2 -> x1 ++ c :: r1 = x2 ++ c :: r2 -> x1 = x2 /\ r1 = r2.
Proof.
  revert x2. induction x1 as [|a x1 IH]; intros x2 H1 H2 E.
  - destruct x2 as [|b x2]; simpl in E.
    + injection E as E. split; [reflexivity|exact E].
    + injection E as E _. exfalso. apply H2. left. symmetry. exact E.
  - destruct x2 as [|b x2]; simpl in E.
    + injection E as E _. exfalso. apply H1. left. exact E.
    + injection E as Eab E.
      destruct (IH x2) as [Ex Er]; [| |exact E|].
      * intros Hin. apply H1. right. exact Hin.
      * intros Hin. apply H2. right. exact Hin.
      * split; [congruence|exact Er].
Qed.

Lemma map_determined {A B C : Type} (f : A -> B) (g : A -> C) (l1 l2 : list A) :
  (forall x y, In x l1 -> In y l2 -> f x = f y -> g x = g y) ->
  map f l1 = map f l2 -> map g l1 = map g l2.
Proof.
  revert l2. induction l1 as [|x l1 IH]; intros l2 Hinj E.
  - destruct l2; [reflexivity|discriminate E].
  - destruct l2 as [|y l2]; [discriminate E|].
    simpl in E. injection E as Exy E. simpl. f_equal.
    + apply Hinj; [left; reflexivity|left; reflexivity|exact Exy].
    + apply IH; [|exact E]. intros a b Ha Hb. apply Hinj; right; assumption.
Qed.

Section CsvRows.
Context {num : Type} {N : JS.Number num} {P : JS.NumberText num}.

Lemma csvRow_shape (t : Wallet.Transaction num) :
  Wallet.csvRow t
  = 34%N :: Wallet.createdAt t
    ++ 34%N :: 44%N :: Wallet.typeName (Wallet.type t)
    ++ 44%N :: JS.Number_toString (Wallet.amount t)
    ++ 44%N :: Wallet.categoryName (Wallet.category t)
    ++ 44%N :: 34%N :: Wallet.description t ++ [34%N].
Proof.
  unfold Wallet.csvRow. cbn [JS.join]. change (JS.lit ",") with [44%N].
  cbn [app]. rewrite <- !app_assoc. reflexivity.
Qed.

Lemma no_comma_in_typeName (k : Wallet.TransactionType) : ~ In 44%N (Wallet.typeName k).
Proof. destruct k; vm_compute; intuition discriminate. Qed.

Lemma no_comma_in_categoryName (c : Wallet.Category) : ~ In 44%N (Wallet.categoryName c).
Proof. destruct c; vm_compute; intuition discriminate. Qed.

Lemma typeName_inj (k1 k2 : Wallet.TransactionType) :
  Wallet.typeName k1 = Wallet.typeName k2 -> k1 = k2.
Proof. destruct k1, k2; intros E; try reflexivity; vm_compute in E; discriminate E. Qed.

Lemma categoryName_inj (c1 c2 : Wallet.Category) :
  Wallet.categoryName c1 = Wallet.categoryName c2 -> c1 = c2.
Proof. destruct c1, c2; intros E; try reflexivity; vm_compute in E; discriminate E. Qed.

(** Two rows that are equal were written from the same fields. *)
Lemma csvRow_determines_fields (t1 t2 : Wallet.Transaction num) :
  exportable t1 -> exportable t2 ->
  (JS.Number_toString (Wallet.amount t1) = JS.Number_toString (Wallet.amount t2) ->
   Wallet.amount t1 = Wallet.amount t2) ->
  Wallet.csvRow t1 = Wallet.csvRow t2 -> exported t1 = exported t2.
Proof.
  intros [_ [Q1 [_ [_ C1]]]] [_ [Q2 [_ [_ C2]]]] Hinj E.
  rewrite !csvRow_shape in E. injection E as E.
  apply (app_separator_inj _ _ _ _ _ Q1 Q2) in E. destruct E as [Ec E].
  injection E as E.
  apply (app_separator_inj _ _ _ _ _ (no_comma_in_typeName _) (no_comma_in_typeName _)) in E.
  destruct E as [Ek E]. apply typeName_inj in Ek.
  apply (app_separator_inj _ _ _ _ _ C1 C2) in E. destruct E as [Ea E].
  apply Hinj in Ea.
  apply (app_separator_inj _ _ _ _ _ (no_comma_in_categoryName _)
           (no_comma_in_categoryName _)) in E.
  destruct E as [Eg E]. apply categoryName_inj in Eg.
  injection E as E. apply app_inv_tail in E.
  unfold exported. congruence.
Qed.

End CsvRows.

(** X21.  The export keeps every field but the id.  When the texts of the
    transactions do not break the layout (see [exportable]), the file
    splits at line feeds into the line of the column names and one row per
    transaction, in the order of the collection; and two collections whose
    files are equal have, position by position, the same date, type,
    amount, category and description, provided the amounts of the two are
    written differently when they differ. *)
Theorem csv_keeps_every_field
  (num : Type) (N : JS.Number num) (P : JS.NumberText num)
  (iso1 iso2 : JS.jsstring) (st1 st2 : Wallet.State num) :
  Forall exportable (Wallet.transactions st1) ->
  Forall exportable (Wallet.transactions st2) ->
  (forall t1 t2,
     In t1 (Wallet.transactions st1) -> In t2 (Wallet.transactions st2) ->
     JS.Number_toString (Wallet.amount t1) = JS.Number_toString (Wallet.amount t2) ->
     Wallet.amount t1 = Wallet.amount t2) ->
  splitOn 10 (Wallet.content (Wallet.exportToCSV iso1 st1))
  = JS.lit "Date,Type,Amount,Category,Description"
    :: map Wallet.csvRow (Wallet.transactions st1)
  /\ (Wallet.content (Wallet.exportToCSV iso1 st1)
      = Wallet.content (Wallet.exportToCSV iso2 st2) ->
      map exported (Wallet.transactions st1) = map exported (Wallet.transactions st2)).
Proof.
  intros H1 H2 Hinj.
  assert (L : forall iso st, Forall exportable (Wallet.transactions st) ->
            splitOn 10 (Wallet.content (Wallet.exportToCSV iso st))
            = JS.lit "Date,Type,Amount,Category,Description"
              :: map Wallet.csvRow (Wallet.transactions st)).
  { intros iso st Hall. apply (csv_lines num N P).
    apply Forall_forall. intros t Ht. rewrite Forall_forall in Hall.
    destruct (Hall t Ht) as [A [_ [B [C _]]]]. repeat split; assumption. }
  split; [apply L, H1|].
  intros E. apply (f_equal (splitOn 10)) in E. rewrite (L iso1 st1 H1), (L iso2 st2 H2) in E.
  injection E as E. revert E. apply map_determined.
  intros t1 t2 Ht1 Ht2. rewrite Forall_forall in H1, H2.
  apply csvRow_determines_fields; [apply H1, Ht1|apply H2, Ht2|apply Hinj; assumption].
Qed.

Lemma csv_keeps_every_field_witness :
  length (splitOn 10 (Wallet.content
            (Wallet.exportToCSV (P:=integerText) (JS.lit "2025-01-01T10:00:02.000Z")
               two_purchases)))
  = 3%nat.
Proof.
  destruct (csv_keeps_every_field Qcanon.Qc JS.exact integerText
              (JS.lit "2025-01-01T10:00:02.000Z") (JS.lit "2025-01-01T10:00:02.000Z")
              two_purchases two_purchases) as [L _].
  - repeat constructor; vm_compute; intuition discriminate.
  - repeat constructor; vm_compute; intuition discriminate.
  - intros t1 t2 [<-|[<-|[]]] [<-|[<-|[]]] E; try reflexivity; vm_compute in E; discriminate E.
  - rewrite L. reflexivity.
Defined.

(* ================================================================== *)
(** * The alerts of the import *)
(* ================================================================== *)

Section ImportAlerts.
Context {num : Type} {H : JS.Host num}.

Lemma every_until_unsound (l : list (JS.json num)) :
  JS.every Todo.hasTaskKeys l
  = match firstUnsound l with
    | None => JS.Ok true
    | Some JS.JNull => JS.Throw
    | Some v => if unshadowed v then JS.Ok false else JS.Throw
    end.
Proof.
  induction l as [|v l IH]; [reflexivity|].
  cbn [JS.every firstUnsound]. rewrite hasTaskKeys_cases. unfold sound.
  destruct (hasRequiredKeys v) eqn:K; cbn [andb].
  - destruct (unshadowed v) eqn:U; cbn [JS.bind]; rewrite ?U.
    + exact IH.
    + destruct v; reflexivity.
  - destruct v; try reflexivity.
    destruct (unshadowed _); reflexivity.
Qed.

End ImportAlerts.

(** X22.  What the import answers to every file.  Text that is not JSON, and the
    text [null], give the alert of a file that cannot be read; any other
    value without a [tasks] array gives the alert that asks for one; and
    with a [tasks] array the first element that is [null], lacks one of the
    five keys or has a key [hasOwnProperty] decides: a [null] element or one
    with that key gives the alert of a file that cannot be read, any other
    the alert of invalid task data.  Only when there is no such element is
    the collection replaced; in every other case the page is left as it
    was. *)
Theorem alert_names_the_first_defect
  (num : Type) (H : JS.Host num) (fileText : JS.jsstring) (st : Todo.State (JS.json num)) :
  Todo.reader_onload fileText st
  = match JS.JSON_parse fileText with
    | JS.Throw => (st, Todo.ErrorReadingFile)
    | JS.Ok JS.JNull => (st, Todo.ErrorReadingFile)
    | JS.Ok data =>
        match tasksOf data with
        | None => (st, Todo.ExpectedTasksArray)
        | Some l =>
            match firstUnsound l with
            | None => (Todo.setSelectedTaskId None (Todo.setTasks l st),
                       Todo.ImportedSuccessfully)
            | Some JS.JNull => (st, Todo.ErrorReadingFile)
            | Some v => if unshadowed v then (st, Todo.InvalidTaskData)
                        else (st, Todo.ErrorReadingFile)
            end
        end
    end.
Proof.
  unfold Todo.reader_onload, Todo.onload_try.
  destruct (JS.JSON_parse fileText) as [data|]; [|reflexivity].
  destruct data as [| b | n | s | l | m]; try reflexivity.
  cbn [JS.bind JS.getProperty tasksOf].
  destruct (JS.lookup (JS.lit "tasks") m) as [[| b | n | s | l | m']|]; try reflexivity.
  rewrite every_until_unsound.
  destruct (firstUnsound l) as [[| b | n | s | l' | m']|]; try reflexivity;
    match goal with |- context [unshadowed ?v] => destruct (unshadowed v) end; reflexivity.
Qed.

(* ================================================================== *)
(** * The page after an import *)
(* ================================================================== *)

Section ImportedValueFacts.
Context {num : Type} {N : JS.Number num} {H : JS.Host num}.

Lemma filter_r_throws {A : Type} (f : A -> JS.result bool) (l : list A) (x : A) :
  In x l -> f x = JS.Throw -> JS.filter_r f l = JS.Throw.
Proof.
  induction l as [|y l IH]; intros Hin Hx; [destruct Hin|].
  cbn [JS.filter_r]. destruct Hin as [->|Hin].
  - rewrite Hx. reflexivity.
  - destruct (f y) as [b|]; [|reflexivity]. cbn [JS.bind].
    rewrite (IH Hin Hx). reflexivity.
Qed.

Lemma filter_r_pure {A : Type} (f : A -> JS.result bool) (g : A -> bool) (l : list A) :
  (forall x, In x l -> f x = JS.Ok (g x)) -> JS.filter_r f l = JS.Ok (filter g l).
Proof.
  induction l as [|y l IH]; intros Hf; [reflexivity|].
  cbn [JS.filter_r filter]. rewrite (Hf y (or_introl eq_refl)). cbn [JS.bind].
  rewrite IH; [reflexivity|]. intros x Hx. apply Hf. right. exact Hx.
Qed.

Lemma categoryName_eqb (c d : Todo.Category) :
  JS.str_eqb (Todo.categoryName c) (Todo.categoryName d) = Todo.Category_beq c d.
Proof. destruct c, d; reflexivity. Qed.

Lemma priorityName_eqb (p q : Todo.Priority) :
  JS.str_eqb (Todo.priorityName p) (Todo.priorityName q) = Todo.Priority_beq p q.
Proof. destruct p, q; reflexivity. Qed.

Lemma matchesTask_taskObject (st : Todo.State Todo.Task) (t : Todo.Task) :
  Todo.matchesTask (Todo.asObjects st) (Todo.taskObject t)
  = JS.Ok (JS.includes (JS.toLowerCase (Todo.text t)) (JS.toLowerCase (Todo.searchTerm st))
           && Todo.matchesFilter Todo.Category_beq (Todo.filterCategory st) (Todo.category t)
           && Todo.matchesFilter Todo.Priority_beq (Todo.filterPriority st) (Todo.priority t)).
Proof.
  unfold Todo.matchesTask, Todo.taskObject. cbn.
  f_equal. f_equal; [f_equal|].
  - destruct (Todo.filterCategory st) as [|c]; [reflexivity|]. cbn. apply categoryName_eqb.
  - destruct (Todo.filterPriority st) as [|p]; [reflexivity|]. cbn. apply priorityName_eqb.
Qed.

Lemma filter_r_map {A B : Type} (f : B -> JS.result bool) (g : A -> bool) (h : A -> B)
      (l : list A) :
  (forall x, f (h x) = JS.Ok (g x)) -> JS.filter_r f (map h l) = JS.Ok (map h (filter g l)).
Proof.
  intros Hf. induction l as [|x l IH]; [reflexivity|].
  cbn [map JS.filter_r filter]. rewrite Hf, IH. cbn [JS.bind].
  destruct (g x); reflexivity.
Qed.

Lemma countTruthy_typed (l : list Todo.Task) :
  Todo.countTruthy (JS.lit "completed") (map (Todo.taskObject (N:=N)) l)
  = JS.Ok (Todo.countWhere (fun task => Todo.completed task) l).
Proof.
  unfold Todo.countTruthy.
  rewrite (filter_r_map _ (fun task => Todo.completed task)) by (intros t; reflexivity).
  cbn [JS.bind]. rewrite length_map. reflexivity.
Qed.

Lemma countNamed_category (c : Todo.Category) (l : list Todo.Task) :
  Todo.countNamed (JS.lit "category") (Todo.categoryName c) (map (Todo.taskObject (N:=N)) l)
  = JS.Ok (Todo.countWhere (fun task => Todo.Category_beq (Todo.category task) c) l).
Proof.
  unfold Todo.countNamed.
  rewrite (filter_r_map _ (fun task => Todo.Category_beq (Todo.category task) c))
    by (intros t; cbn; rewrite categoryName_eqb; reflexivity).
  cbn [JS.bind]. rewrite length_map. reflexivity.
Qed.

Lemma countNamed_priority (p : Todo.Priority) (l : list Todo.Task) :
  Todo.countNamed (JS.lit "priority") (Todo.priorityName p) (map (Todo.taskObject (N:=N)) l)
  = JS.Ok (Todo.countWhere (fun task => Todo.Priority_beq (Todo.priority task) p) l).
Proof.
  unfold Todo.countNamed.
  rewrite (filter_r_map _ (fun task => Todo.Priority_beq (Todo.priority task) p))
    by (intros t; cbn; rewrite priorityName_eqb; reflexivity).
  cbn [JS.bind]. rewrite length_map. reflexivity.
Qed.

Lemma rankOf_taskObject (t : Todo.Task) :
  Todo.rankOf (Todo.taskObject (N:=N) t) = Todo.getPriorityOrder (Todo.priority t).
Proof. unfold Todo.taskObject. destruct (Todo.priority t); reflexivity. Qed.

Lemma sort_insert_map {A B : Type} (k : A -> Z) (k' : B -> Z) (h : A -> B) (x : A)
      (l : list A) :
  (forall a, k' (h a) = k a) ->
  JS.sort_insert (fun a b => k' a - k' b) (h x) (map h l)
  = map h (JS.sort_insert (fun a b => k a - k b) x l).
Proof.
  intros Hk. induction l as [|y l IH]; [reflexivity|].
  cbn [map JS.sort_insert]. rewrite !Hk.
  destruct (k x - k y <=? 0); [reflexivity|]. cbn [map]. rewrite IH. reflexivity.
Qed.

Lemma Array_sort_map {A B : Type} (k : A -> Z) (k' : B -> Z) (h : A -> B) (l : list A) :
  (forall a, k' (h a) = k a) ->
  JS.Array_sort (fun a b => k' a - k' b) (map h l)
  = map h (JS.Array_sort (fun a b => k a - k b) l).
Proof.
  intros Hk. induction l as [|x l IH]; [reflexivity|].
  cbn [map JS.Array_sort]. rewrite IH. apply sort_insert_map, Hk.
Qed.

Lemma no_null_taskObject (l : list Todo.Task) :
  existsb Todo.isNull (map (Todo.taskObject (N:=N)) l) = false.
Proof. induction l as [|t l IH]; [reflexivity|]. exact IH. Qed.

End ImportedValueFacts.

(** X23.  A collection that was made by [add_task] runs the same whether it is
    held as tasks or as the objects of tasks: on the objects, the table,
    the statistics and the sort by priority throw nothing and give what
    they give on the tasks. *)
Theorem typed_collections_run_as_typed
  (num : Type) (N : JS.Number num) (H : JS.Host num) (st : Todo.State Todo.Task) :
  Todo.getFilteredValues (Todo.asObjects st)
  = JS.Ok (map Todo.taskObject (Todo.getFilteredTasks st))
  /\ Todo.getStatsOfValues (Todo.asObjects st) = JS.Ok (Todo.getStats st)
  /\ Todo.sortValuesByPriority (Todo.asObjects st)
     = JS.Ok (Todo.asObjects (Todo.sortTasksByPriority st)).
Proof.
  split; [|split].
  - unfold Todo.getFilteredValues, Todo.getFilteredTasks.
    change (Todo.tasks (Todo.asObjects st)) with (map (Todo.taskObject (N:=N)) (Todo.tasks st)).
    apply filter_r_map. intros t. apply matchesTask_taskObject.
  - unfold Todo.getStatsOfValues.
    change (Todo.tasks (Todo.asObjects st)) with (map (Todo.taskObject (N:=N)) (Todo.tasks st)).
    rewrite countTruthy_typed. cbn [JS.bind].
    rewrite (countNamed_category Todo.Work), (countNamed_category Todo.Personal),
      (countNamed_category Todo.Shopping), (countNamed_category Todo.Others),
      (countNamed_category Todo.Home). cbn [JS.bind].
    rewrite (countNamed_priority Todo.Critical), (countNamed_priority Todo.High),
      (countNamed_priority Todo.Medium), (countNamed_priority Todo.Low). cbn [JS.bind].
    rewrite length_map. reflexivity.
  - unfold Todo.sortValuesByPriority, Todo.sortTasksByPriority.
    change (Todo.tasks (Todo.asObjects st)) with (map (Todo.taskObject (N:=N)) (Todo.tasks st)).
    destruct (Todo.tasks st) as [|t1 [|t2 r]] eqn:E; [reflexivity|reflexivity|].
    rewrite no_null_taskObject.
    rewrite (Array_sort_map (fun t => Todo.getPriorityOrder (Todo.priority t)))
      by apply rankOf_taskObject.
    reflexivity.
Qed.

(** X24.  The import accepts tasks whose text is not a string, and the table
    cannot be drawn from them: when the file is JSON with a [tasks] array
    all of whose elements pass the check of the keys, the collection is
    replaced by that array; and if one of its elements has a [text] that is
    not a string, [getFilteredTasks] throws from then on, whatever the
    search term and the filters. *)
Theorem accepted_import_can_break_the_table
  (num : Type) (N : JS.Number num) (H : JS.Host num)
  (fileText : JS.jsstring) (data : JS.json num) (l : list (JS.json num))
  (v : JS.json num) (st : Todo.State (JS.json num)) :
  JS.JSON_parse fileText = JS.Ok data ->
  tasksOf data = Some l ->
  firstUnsound l = None ->
  In v l ->
  (forall s, propertyOf v (JS.lit "text") <> Some (JS.JString s)) ->
  Todo.reader_onload fileText st
  = (Todo.setSelectedTaskId None (Todo.setTasks l st), Todo.ImportedSuccessfully)
  /\ (forall st' : Todo.State (JS.json num),
        Todo.tasks st' = Todo.tasks (fst (Todo.reader_onload fileText st)) ->
        Todo.getFilteredValues st' = JS.Throw).
Proof.
  intros Hparse Htasks Hsound Hin Htext.
  assert (R : Todo.reader_onload fileText st
              = (Todo.setSelectedTaskId None (Todo.setTasks l st), Todo.ImportedSuccessfully)).
  { unfold Todo.reader_onload, Todo.onload_try. rewrite Hparse.
    destruct data as [| b | n | s | a | m]; try discriminate Htasks.
    cbn [JS.bind JS.getProperty]. cbn [tasksOf] in Htasks.
    destruct (JS.lookup (JS.lit "tasks") m) as [[| b | n | s | a | m']|];
      try discriminate Htasks.
    injection Htasks as ->. rewrite every_until_unsound, Hsound. reflexivity. }
  split; [exact R|].
  intros st' Hst'. rewrite R in Hst'. cbn in Hst'.
  unfold Todo.getFilteredValues. rewrite Hst'.
  apply (filter_r_throws _ _ v Hin).
  unfold Todo.matchesTask.
  destruct v as [| b | n | s | a | m]; try reflexivity.
  cbn [JS.getProperty JS.bind]. cbn [propertyOf] in Htext.
  destruct (JS.lookup (JS.lit "text") m) as [[| b | n | s | a | m']|]; try reflexivity.
  contradiction (Htext s). reflexivity.
Qed.

Lemma accepted_import_can_break_the_table_witness :
  Todo.getFilteredValues (H:=Reference.host)
    (fst (Todo.reader_onload (doubleQuoted numbered_text_file)
            (Todo.asObjects (N:=JS.exact) pair_of_tasks)))
  = JS.Throw.
Proof.
  refine (proj2 (accepted_import_can_break_the_table Qcanon.Qc JS.exact Reference.host
                   (doubleQuoted numbered_text_file) _ _ _ (Todo.asObjects pair_of_tasks)
                   _ _ _ _ _) _ eq_refl).
  - vm_compute. reflexivity.
  - reflexivity.
  - reflexivity.
  - left. reflexivity.
  - intros s. vm_compute. discriminate.
Defined.

Section ImportedStatistics.
Context {num : Type} {N : JS.Number num}.

Lemma getProperty_not_null (v : JS.json num) (k : JS.jsstring) :
  Todo.isNull v = false -> JS.getProperty v k = JS.Ok (propertyOf v k).
Proof. destruct v; try reflexivity. discriminate. Qed.

Lemma countNamed_not_null (k name : JS.jsstring) (l : list (JS.json num)) :
  existsb Todo.isNull l = false ->
  Todo.countNamed k name l
  = JS.Ok (Z.of_nat (length (filter (fun v => JS.isString (propertyOf v k) name) l))).
Proof.
  intros Hnn. unfold Todo.countNamed.
  rewrite (filter_r_pure _ (fun v => JS.isString (propertyOf v k) name)); [reflexivity|].
  intros v Hv. rewrite getProperty_not_null; [reflexivity|].
  destruct (Todo.isNull v) eqn:E; [|reflexivity].
  assert (T : existsb Todo.isNull l = true) by (apply existsb_exists; exists v; auto).
  congruence.
Qed.

Lemma countTruthy_not_null (k : JS.jsstring) (l : list (JS.json num)) :
  existsb Todo.isNull l = false ->
  Todo.countTruthy k l
  = JS.Ok (Z.of_nat (length (filter (fun v => JS.truthy (propertyOf v k)) l))).
Proof.
  intros Hnn. unfold Todo.countTruthy.
  rewrite (filter_r_pure _ (fun v => JS.truthy (propertyOf v k))); [reflexivity|].
  intros v Hv. rewrite getProperty_not_null; [reflexivity|].
  destruct (Todo.isNull v) eqn:E; [|reflexivity].
  assert (T : existsb Todo.isNull l = true) by (apply existsb_exists; exists v; auto).
  congruence.
Qed.

(** A value is the name of one category at most, and of none exactly when
    the task is uncategorized. *)
Lemma one_category (o : option (JS.json num)) :
  Z.b2z (JS.isString o (JS.lit "Work")) + (Z.b2z (JS.isString o (JS.lit "Personal"))
  + (Z.b2z (JS.isString o (JS.lit "Shopping")) + (Z.b2z (JS.isString o (JS.lit "Others"))
  + (Z.b2z (JS.isString o (JS.lit "Home")) + 0))))
  + Z.b2z (negb (existsb (fun c => JS.isString o (Todo.categoryName c))
                         [Todo.Work; Todo.Personal; Todo.Shopping; Todo.Others; Todo.Home]))
  = 1.
Proof.
  destruct o as [[| b | n | s | a | m]|]; try reflexivity.
  cbn [JS.isString existsb Todo.categoryName].
  destruct (JS.str_eqb s (JS.lit "Work")) eqn:E1;
    [apply str_eqb_eq in E1; subst s; reflexivity|].
  destruct (JS.str_eqb s (JS.lit "Personal")) eqn:E2;
    [apply str_eqb_eq in E2; subst s; reflexivity|].
  destruct (JS.str_eqb s (JS.lit "Shopping")) eqn:E3;
    [apply str_eqb_eq in E3; subst s; reflexivity|].
  destruct (JS.str_eqb s (JS.lit "Others")) eqn:E4;
    [apply str_eqb_eq in E4; subst s; reflexivity|].
  destruct (JS.str_eqb s (JS.lit "Home")) eqn:E5; reflexivity.
Qed.

Lemma one_priority (o : option (JS.json num)) :
  Z.b2z (JS.isString o (JS.lit "Critical")) + (Z.b2z (JS.isString o (JS.lit "High"))
  + (Z.b2z (JS.isString o (JS.lit "Medium")) + (Z.b2z (JS.isString o (JS.lit "Low")) + 0)))
  + Z.b2z (negb (existsb (fun p => JS.isString o (Todo.priorityName p))
                         [Todo.Critical; Todo.High; Todo.Medium; Todo.Low]))
  = 1.
Proof.
  destruct o as [[| b | n | s | a | m]|]; try reflexivity.
  cbn [JS.isString existsb Todo.priorityName].
  destruct (JS.str_eqb s (JS.lit "Critical")) eqn:E1;
    [apply str_eqb_eq in E1; subst s; reflexivity|].
  destruct (JS.str_eqb s (JS.lit "High")) eqn:E2;
    [apply str_eqb_eq in E2; subst s; reflexivity|].
  destruct (JS.str_eqb s (JS.lit "Medium")) eqn:E3;
    [apply str_eqb_eq in E3; subst s; reflexivity|].
  destruct (JS.str_eqb s (JS.lit "Low")) eqn:E4; reflexivity.
Qed.

Lemma length_filter_b2z {A : Type} (f : A -> bool) (x : A) (l : list A) :
  Z.of_nat (length (filter f (x :: l))) = Z.b2z (f x) + Z.of_nat (length (filter f l)).
Proof. cbn [filter]. destruct (f x); cbn [length Z.b2z]; lia. Qed.

End ImportedStatistics.

(** X25.  The statistics of a collection as an import may leave it, no task
    being [null]: [getStats] throws nothing; the counts by category add up
    to the total less the tasks whose category is none of the five, and the
    counts by priority to the total less the tasks whose priority is none
    of the four; and the completed and pending counts add up to the total,
    neither being negative. *)
Theorem statistics_of_imported_values
  (num : Type) (N : JS.Number num) (st : Todo.State (JS.json num)) :
  existsb Todo.isNull (Todo.tasks st) = false ->
  exists s : Todo.Stats,
    Todo.getStatsOfValues st = JS.Ok s
    /\ Todo.totalTasks s = Z.of_nat (length (Todo.tasks st))
    /\ sumCounts (Todo.categoryStats s)
       + Z.of_nat (length (filter uncategorized (Todo.tasks st)))
       = Todo.totalTasks s
    /\ sumCounts (Todo.priorityStats s)
       + Z.of_nat (length (filter unranked (Todo.tasks st)))
       = Todo.totalTasks s
    /\ Todo.pendingTasks s + Todo.completedTasks s = Todo.totalTasks s
    /\ 0 <= Todo.completedTasks s
    /\ 0 <= Todo.pendingTasks s.
Proof.
  intros Hnn. unfold Todo.getStatsOfValues.
  rewrite (countTruthy_not_null _ _ Hnn). cbn [JS.bind].
  rewrite !(countNamed_not_null _ _ _ Hnn). cbn [JS.bind].
  eexists. split; [reflexivity|].
  cbn [Todo.totalTasks Todo.categoryStats Todo.priorityStats Todo.pendingTasks
       Todo.completedTasks sumCounts fold_right snd].
  split; [reflexivity|]. clear Hnn.
  split; [|split; [|split; [|split]]].
  - unfold uncategorized. induction (Todo.tasks st) as [|v l IH]; [reflexivity|].
    rewrite !length_filter_b2z.
    pose proof (one_category (propertyOf v (JS.lit "category"))) as One.
    cbn [length]. lia.
  - unfold unranked. induction (Todo.tasks st) as [|v l IH]; [reflexivity|].
    rewrite !length_filter_b2z.
    pose proof (one_priority (propertyOf v (JS.lit "priority"))) as One.
    cbn [length]. lia.
  - lia.
  - lia.
  - pose proof (filter_length_le (fun v => JS.truthy (propertyOf v (JS.lit "completed")))
                  (Todo.tasks st)). lia.
Qed.

Lemma statistics_of_imported_values_witness :
  exists s : Todo.Stats,
    Todo.getStatsOfValues
      (fst (Todo.reader_onload (H:=Reference.host) (doubleQuoted numbered_text_file)
              (Todo.asObjects (N:=JS.exact) pair_of_tasks)))
    = JS.Ok s
    /\ Todo.totalTasks s = 1.
Proof.
  destruct (statistics_of_imported_values Qcanon.Qc JS.exact
              (fst (Todo.reader_onload (H:=Reference.host) (doubleQuoted numbered_text_file)
                      (Todo.asObjects (N:=JS.exact) pair_of_tasks))))
    as [s [Hs [Ht _]]].
  - vm_compute. reflexivity.
  - exists s. split; [exact Hs|]. rewrite Ht. vm_compute. reflexivity.
Defined.

Section UnknownPriorities.
Context {num : Type}.

Lemma rankOf_property (v : JS.json num) :
  Todo.rankOf v = Todo.getPriorityOrderOf (propertyOf v (JS.lit "priority")).
Proof. destruct v; reflexivity. Qed.

Lemma getPriorityOrderOf_range (o : option (JS.json num)) :
  0 <= Todo.getPriorityOrderOf o <= 4.
Proof.
  unfold Todo.getPriorityOrderOf.
  destruct (JS.isString o (JS.lit "Critical")); [lia|].
  destruct (JS.isString o (JS.lit "High")); [lia|].
  destruct (JS.isString o (JS.lit "Medium")); [lia|].
  destruct (JS.isString o (JS.lit "Low")); lia.
Qed.

Lemma unranked_rank (v : JS.json num) : unranked v = (Todo.rankOf v =? 4).
Proof.
  rewrite rankOf_property. unfold unranked, Todo.getPriorityOrderOf.
  cbn [existsb Todo.priorityName].
  destruct (JS.isString (propertyOf v (JS.lit "priority")) (JS.lit "Critical")); [reflexivity|].
  destruct (JS.isString (propertyOf v (JS.lit "priority")) (JS.lit "High")); [reflexivity|].
  destruct (JS.isString (propertyOf v (JS.lit "priority")) (JS.lit "Medium")); [reflexivity|].
  destruct (JS.isString (propertyOf v (JS.lit "priority")) (JS.lit "Low")); reflexivity.
Qed.

Lemma filter_none {A : Type} (f : A -> bool) (l : list A) :
  (forall x, In x l -> f x = false) -> filter f l = [].
Proof.
  induction l as [|x l IH]; intros Hf; [reflexivity|].
  cbn [filter]. rewrite (Hf x (or_introl eq_refl)). apply IH.
  intros y Hy. apply Hf. right. exact Hy.
Qed.

Lemma filter_filter {A : Type} (p q : A -> bool) (l : list A) :
  filter p (filter q l) = filter (fun x => q x && p x) l.
Proof.
  induction l as [|x l IH]; [reflexivity|].
  cbn [filter]. destruct (q x); cbn [filter andb]; rewrite IH; reflexivity.
Qed.

Lemma StronglySorted_app {A : Type} (R : A -> A -> Prop) (l1 l2 : list A) :
  StronglySorted R l1 -> StronglySorted R l2 ->
  (forall a b, In a l1 -> In b l2 -> R a b) -> StronglySorted R (l1 ++ l2).
Proof.
  induction l1 as [|x l1 IH]; intros S1 S2 Hab; [exact S2|].
  apply StronglySorted_inv in S1. destruct S1 as [S1 Hx].
  cbn [app]. constructor.
  - apply IH; [exact S1|exact S2|]. intros a b Ha Hb. apply Hab; [right; exact Ha|exact Hb].
  - apply Forall_app. split; [exact Hx|].
    apply Forall_forall. intros b Hb. apply Hab; [left; reflexivity|exact Hb].
Qed.

Lemma sorted_when_one_key {A : Type} (key : A -> Z) (k : Z) (l : list A) :
  (forall x, In x l -> key x = k) -> StronglySorted (key_le key) l.
Proof.
  induction l as [|x l IH]; intros Hk; constructor.
  - apply IH. intros y Hy. apply Hk. right. exact Hy.
  - apply Forall_forall. intros y Hy. unfold key_le.
    rewrite (Hk x (or_introl eq_refl)), (Hk y (or_intror Hy)). lia.
Qed.

(** The tasks of no known priority go last, in the order they had. *)
Lemma unranked_go_last (l : list (JS.json num)) :
  JS.Array_sort (by_key Todo.rankOf) l
  = JS.Array_sort (by_key Todo.rankOf) (filter (fun v => negb (unranked v)) l)
    ++ filter unranked l.
Proof.
  symmetry. apply Array_sort_unique.
  - apply StronglySorted_app.
    + apply Array_sort_sorted.
    + apply (sorted_when_one_key _ 4). intros x Hx. apply filter_In in Hx.
      destruct Hx as [_ Hx]. rewrite unranked_rank in Hx. apply Z.eqb_eq, Hx.
    + intros a b _ Hb. apply filter_In in Hb. destruct Hb as [_ Hb].
      rewrite unranked_rank in Hb. apply Z.eqb_eq in Hb. unfold key_le. rewrite Hb.
      rewrite rankOf_property. apply getPriorityOrderOf_range.
  - intros k. rewrite filter_app.
    rewrite (Array_sort_stable Todo.rankOf (fun a => Todo.rankOf a =? k))
      by (intros a b Ha Hb; apply Z.eqb_eq in Ha, Hb; lia).
    rewrite !filter_filter.
    destruct (k =? 4) eqn:K.
    + apply Z.eqb_eq in K. subst k.
      rewrite (filter_none (fun x => negb (unranked x) && (Todo.rankOf x =? 4))).
      2:{ intros x _. rewrite unranked_rank. destruct (Todo.rankOf x =? 4); reflexivity. }
      cbn [app]. apply filter_ext. intros x. rewrite unranked_rank.
      destruct (Todo.rankOf x =? 4); reflexivity.
    + apply Z.eqb_neq in K.
      rewrite (filter_none (fun x => unranked x && (Todo.rankOf x =? k))).
      2:{ intros x _. rewrite unranked_rank.
          destruct (Todo.rankOf x =? 4) eqn:E4; [|reflexivity].
          apply Z.eqb_eq in E4. rewrite E4. apply Z.eqb_neq. lia. }
      rewrite app_nil_r. apply filter_ext. intros x. rewrite unranked_rank.
      destruct (Todo.rankOf x =? 4) eqn:E4; [|reflexivity].
      apply Z.eqb_eq in E4. rewrite E4. cbn [negb andb]. symmetry. apply Z.eqb_neq. lia.
Qed.

End UnknownPriorities.

(** X26.  Sort by Priority on a collection as an import may leave it, no task
    being [null]: it throws nothing, and the tasks whose priority is none
    of the four, which [getPriorityOrder] ranks by its [default] branch,
    come after all the others, in the order they had; the others are sorted
    as tasks are. *)
Theorem unknown_priorities_sort_last
  (num : Type) (st : Todo.State (JS.json num)) :
  existsb Todo.isNull (Todo.tasks st) = false ->
  Todo.sortValuesByPriority st
  = JS.Ok (Todo.setTasks
             (JS.Array_sort (fun a b => Todo.rankOf a - Todo.rankOf b)
                            (filter (fun v => negb (unranked v)) (Todo.tasks st))
              ++ filter unranked (Todo.tasks st)) st).
Proof.
  intros Hnn. pose proof (unranked_go_last (Todo.tasks st)) as U.
  unfold by_key in U. rewrite <- U. clear U.
  unfold Todo.sortValuesByPriority. rewrite Hnn.
  destruct (Todo.tasks st) as [|v [|w r]]; reflexivity.
Qed.

Lemma unknown_priorities_sort_last_witness :
  match Todo.sortValuesByPriority
          (fst (Todo.reader_onload (H:=Reference.host) (doubleQuoted mixed_priorities_file)
                  (Todo.asObjects (N:=JS.exact) pair_of_tasks))) with
  | JS.Ok st =>
      map (fun v => propertyOf v (JS.lit "id")) (Todo.tasks st)
      = [ Some (JS.JNumber (JS.Qc_ofZ 4)); Some (JS.JNumber (JS.Qc_ofZ 2));
          Some (JS.JNumber (JS.Qc_ofZ 1)); Some (JS.JNumber (JS.Qc_ofZ 3)) ]
      /\ map unranked (Todo.tasks st) = [false; false; true; true]
  | JS.Throw => False
  end.
Proof.
  rewrite (unknown_priorities_sort_last Qcanon.Qc).
  - split; vm_compute; reflexivity.
  - vm_compute. reflexivity.
Defined.
